(** * The HCI engine of the Bluetooth stack (hci.go): a shallow embedding

    The engine sits between a byte transport and the ATT / L2CAP layers.
    This development embeds the packet framer ([poll], [processPacket]),
    the two decoders ([handleACLData], [handleEventData]) and the command
    dispatcher ([sendCommandWithParams], [sendWithoutResponse]) and states
    the properties of the specification over them.

    Conventions.
    - Buffers hold [Byte.byte]; every integer field is a [Z] and the
      wrap-around of Go's uint8 / uint16 arithmetic is written out.
    - A Go slice of the packet buffer is a window [lo, hi) on [buf]: it
      aliases the buffer, as [h.buf[1:h.pos]] and [h.cmdResponse] do.
    - A run-time panic of Go (index or slice bound out of range) is the
      outcome [Panic]; it carries no state.
    - The transport, the clock and the two protocol layers are outside the
      engine.  They are the [world] part of the state (bytes waiting in the
      transport, the clock, the log of calls made) and the record [collab],
      which fixes what each outside call answers. *)

From Stdlib Require Import ZArith List Bool Lia.
From Stdlib.Strings Require Import Byte.
Import ListNotations.
Local Open Scope Z_scope.

(** ** Bytes and fixed-width arithmetic *)

Definition u8 (b : byte) : Z := Z.of_N (Byte.to_N b).

Definition byte_of (z : Z) : byte :=
  match Byte.of_N (Z.to_N (z mod 256)) with
  | Some b => b
  | None => x00
  end.

Definition wrap8 (z : Z) : Z := z mod 256.
Definition wrap16 (z : Z) : Z := z mod 65536.

(** [int8(b)]: reinterpretation of a byte as a signed value. *)
Definition int8 (z : Z) : Z := if z <? 128 then z else z - 256.

(** [binary.LittleEndian.Uint16] on its first two bytes. *)
Definition le16 (b0 b1 : byte) : Z := Z.lor (u8 b0) (Z.shiftl (u8 b1) 8).

(** ** Constants (hci.go, the two [const] blocks) *)

Definition ogfCommandPos : Z := 10.
Definition ogfLinkCtl : Z := 0x01.
Definition ogfHostCtl : Z := 0x03.
Definition ogfInfoParam : Z := 0x04.
Definition ogfLECtrl : Z := 0x08.
Definition ocfReset : Z := 0x0003.
Definition ocfLESetAdvertiseEnable : Z := 0x000a.
Definition ocfLEParamRequestReply : Z := 0x0020.

Definition leMetaEventConnComplete : Z := 0x01.
Definition leMetaEventAdvertisingReport : Z := 0x02.
Definition leMetaEventConnectionUpdateComplete : Z := 0x03.
Definition leMetaEventLongTermKeyRequest : Z := 0x05.
Definition leMetaEventRemoteConnParamReq : Z := 0x06.
Definition leMetaEventDataLengthChange : Z := 0x07.
Definition leMetaEventReadLocalP256Complete : Z := 0x08.
Definition leMetaEventGenerateDHKeyComplete : Z := 0x09.
Definition leMetaEventEnhancedConnectionComplete : Z := 0x0A.

Definition hciCommandPkt : Z := 0x01.
Definition hciACLDataPkt : Z := 0x02.
Definition hciSynchronousDataPkt : Z := 0x03.
Definition hciEventPkt : Z := 0x04.

Definition evtDisconnComplete : Z := 0x05.
Definition evtEncryptionChange : Z := 0x08.
Definition evtCmdComplete : Z := 0x0e.
Definition evtCmdStatus : Z := 0x0f.
Definition evtHardwareError : Z := 0x10.
Definition evtNumCompPkts : Z := 0x13.
Definition evtLEMetaEvent : Z := 0x3e.

Definition hciACLLenPos : Z := 4.
Definition hciEvtLenPos : Z := 2.
Definition attCID : Z := 0x0004.
Definition signalingCID : Z := 0x0005.

(** Capacity of [h.buf] and [h.writebuf] ([make([]byte, 256)] in newHCI). *)
Definition bufCap : Z := 256.

Definition millisecond : Z := 1000000.
Definition second : Z := 1000000000.

(** ** Errors

    The package-level error values, the error built in [handleACLData]
    ([errors.New("fragmented packet")]), and the errors that come back from
    the transport or from the ATT / L2CAP layers, which are values of those
    packages and so differ from all of the former. *)
Inductive goerr : Type :=
| ErrHCITimeout
| ErrHCIUnknownEvent
| ErrHCIUnknown
| ErrHCIInvalidPacket
| ErrHCIHardware
| ErrFragmented
| ErrExternal (code : nat).

(** A Go [error] value; [None] is [nil]. *)
Definition error : Type := option goerr.

Definition goerr_eqb (a b : goerr) : bool :=
  match a, b with
  | ErrHCITimeout, ErrHCITimeout => true
  | ErrHCIUnknownEvent, ErrHCIUnknownEvent => true
  | ErrHCIUnknown, ErrHCIUnknown => true
  | ErrHCIInvalidPacket, ErrHCIInvalidPacket => true
  | ErrHCIHardware, ErrHCIHardware => true
  | ErrFragmented, ErrFragmented => true
  | ErrExternal m, ErrExternal n => Nat.eqb m n
  | _, _ => false
  end.

(** ** Data model *)

(** A slice of the packet buffer: [h.buf[lo:hi]]. *)
Record slice : Type := mkSlice { lo : Z; hi : Z }.

Definition slen (b : slice) : Z := hi b - lo b.
Definition scap (b : slice) : Z := bufCap - lo b.

Record leAdvertisingReport : Type := mkAdv {
  reported : bool;
  numReports : Z;
  typ : Z;
  adv_peerBdaddrType : Z;
  adv_peerBdaddr : list byte;   (* [6]uint8 *)
  eirLength : Z;
  eirData : list byte;          (* [31]uint8 *)
  rssi : Z                      (* int8 *)
}.

Record leConnectData : Type := mkConn {
  connected : bool;
  disconnected : bool;
  status : Z;
  handle : Z;
  role : Z;
  peerBdaddrType : Z;
  peerBdaddr : list byte;       (* [6]uint8 *)
  interval : Z;
  timeout : Z
}.

(** Calls that leave the engine, in the order they are made. *)
Inductive io : Type :=
| EvRead (requested : Z) (got : list byte)
| EvWrite (frame : list byte)
| EvAttHandleData (h : Z) (payload : list byte)
| EvL2capHandleData (h : Z) (payload : list byte)
| EvAttAddConnection (h : Z)
| EvL2capAddConnection (h role itv tmo : Z)
| EvAttRemoveConnection (h : Z)
| EvL2capRemoveConnection (h : Z).

(** The engine ([type hci struct]) followed by the world around it: the
    bytes buffered in the transport, the calls made so far, the clock. *)
Record state : Type := mkState {
  buf : list byte;
  pos : Z;
  end_ : Z;
  writebuf : list byte;
  cmdCompleteOpcode : Z;
  cmdCompleteStatus : Z;
  cmdResponse : slice;
  scanning : bool;
  advData : leAdvertisingReport;
  connectData : leConnectData;
  maxPkt : Z;
  pendingPkt : Z;
  rx : list byte;
  trace : list io;
  now : Z
}.

(** What the outside answers.  An answer [Some n] is the error
    [ErrExternal n]. *)
Record collab : Type := mkCollab {
  tr_read_err : Z -> option nat;
  tr_write_err : list byte -> option nat;
  att_handleData : Z -> list byte -> option nat;
  l2cap_handleData : Z -> list byte -> option nat;
  l2cap_addConnection : Z -> Z -> Z -> Z -> option nat
}.

Definition ext (o : option nat) : error := option_map ErrExternal o.

(** ** Field updates *)

Definition set_buf v s := mkState v (pos s) (end_ s) (writebuf s) (cmdCompleteOpcode s) (cmdCompleteStatus s) (cmdResponse s) (scanning s) (advData s) (connectData s) (maxPkt s) (pendingPkt s) (rx s) (trace s) (now s).
Definition set_pos v s := mkState (buf s) v (end_ s) (writebuf s) (cmdCompleteOpcode s) (cmdCompleteStatus s) (cmdResponse s) (scanning s) (advData s) (connectData s) (maxPkt s) (pendingPkt s) (rx s) (trace s) (now s).
Definition set_end v s := mkState (buf s) (pos s) v (writebuf s) (cmdCompleteOpcode s) (cmdCompleteStatus s) (cmdResponse s) (scanning s) (advData s) (connectData s) (maxPkt s) (pendingPkt s) (rx s) (trace s) (now s).
Definition set_writebuf v s := mkState (buf s) (pos s) (end_ s) v (cmdCompleteOpcode s) (cmdCompleteStatus s) (cmdResponse s) (scanning s) (advData s) (connectData s) (maxPkt s) (pendingPkt s) (rx s) (trace s) (now s).
Definition set_cmdCompleteOpcode v s := mkState (buf s) (pos s) (end_ s) (writebuf s) v (cmdCompleteStatus s) (cmdResponse s) (scanning s) (advData s) (connectData s) (maxPkt s) (pendingPkt s) (rx s) (trace s) (now s).
Definition set_cmdCompleteStatus v s := mkState (buf s) (pos s) (end_ s) (writebuf s) (cmdCompleteOpcode s) v (cmdResponse s) (scanning s) (advData s) (connectData s) (maxPkt s) (pendingPkt s) (rx s) (trace s) (now s).
Definition set_cmdResponse v s := mkState (buf s) (pos s) (end_ s) (writebuf s) (cmdCompleteOpcode s) (cmdCompleteStatus s) v (scanning s) (advData s) (connectData s) (maxPkt s) (pendingPkt s) (rx s) (trace s) (now s).
Definition set_advData v s := mkState (buf s) (pos s) (end_ s) (writebuf s) (cmdCompleteOpcode s) (cmdCompleteStatus s) (cmdResponse s) (scanning s) v (connectData s) (maxPkt s) (pendingPkt s) (rx s) (trace s) (now s).
Definition set_connectData v s := mkState (buf s) (pos s) (end_ s) (writebuf s) (cmdCompleteOpcode s) (cmdCompleteStatus s) (cmdResponse s) (scanning s) (advData s) v (maxPkt s) (pendingPkt s) (rx s) (trace s) (now s).
Definition set_pendingPkt v s := mkState (buf s) (pos s) (end_ s) (writebuf s) (cmdCompleteOpcode s) (cmdCompleteStatus s) (cmdResponse s) (scanning s) (advData s) (connectData s) (maxPkt s) v (rx s) (trace s) (now s).
Definition set_rx v s := mkState (buf s) (pos s) (end_ s) (writebuf s) (cmdCompleteOpcode s) (cmdCompleteStatus s) (cmdResponse s) (scanning s) (advData s) (connectData s) (maxPkt s) (pendingPkt s) v (trace s) (now s).
Definition set_trace v s := mkState (buf s) (pos s) (end_ s) (writebuf s) (cmdCompleteOpcode s) (cmdCompleteStatus s) (cmdResponse s) (scanning s) (advData s) (connectData s) (maxPkt s) (pendingPkt s) (rx s) v (now s).
Definition set_now v s := mkState (buf s) (pos s) (end_ s) (writebuf s) (cmdCompleteOpcode s) (cmdCompleteStatus s) (cmdResponse s) (scanning s) (advData s) (connectData s) (maxPkt s) (pendingPkt s) (rx s) (trace s) v.

(** ** The monad of engine code: state, and a panic that ends the run *)

Inductive res (A : Type) : Type :=
| Val (a : A) (s : state)
| Panic
| Spin.   (* a loop of the model ran out of its iteration budget *)
Arguments Val {A} a s.
Arguments Panic {A}.
Arguments Spin {A}.

Definition M (A : Type) : Type := state -> res A.

Definition ret {A} (a : A) : M A := fun s => Val a s.
Definition bind {A B} (m : M A) (k : A -> M B) : M B :=
  fun s => match m s with
           | Val a s' => k a s'
           | Panic => Panic
           | Spin => Spin
           end.
Definition panic {A} : M A := fun _ => Panic.
Definition gets {A} (f : state -> A) : M A := fun s => Val (f s) s.
Definition modify (f : state -> state) : M unit := fun s => Val tt (f s).

Declare Scope hci_scope.
Delimit Scope hci_scope with hci.
Notation "x <- m ;; k" := (bind m (fun x => k))
  (at level 61, m at next level, right associativity) : hci_scope.
Notation "m ;; k" := (bind m (fun _ => k))
  (at level 61, right associativity) : hci_scope.
Local Open Scope hci_scope.

Definition log (e : io) : M unit := modify (fun s => set_trace (trace s ++ [e]) s).

(** [time.Sleep(d)]: the clock moves on by [d]. *)
Definition sleep (d : Z) : M unit := modify (fun s => set_now (now s + d) s).

(** ** Slices of the packet buffer *)

Definition len {A} (l : list A) : Z := Z.of_nat (length l).

(** The whole buffer, [h.buf]. *)
Definition hbuf : slice := mkSlice 0 bufCap.

(** The bytes a slice shows. *)
Definition window (l : list byte) (b : slice) : list byte :=
  firstn (Z.to_nat (slen b)) (skipn (Z.to_nat (lo b)) l).

(** [b[i]]: panics unless [0 <= i < len(b)]. *)
Definition idx (b : slice) (i : Z) : M byte :=
  fun s =>
    if (0 <=? i) && (i <? slen b) then
      match nth_error (buf s) (Z.to_nat (lo b + i)) with
      | Some x => Val x s
      | None => Panic
      end
    else Panic.

(** [b[a:]]: panics unless [0 <= a <= len(b)]. *)
Definition from (b : slice) (a : Z) : M slice :=
  if (0 <=? a) && (a <=? slen b) then ret (mkSlice (lo b + a) (hi b)) else panic.

(** [b[a:c]]: panics unless [0 <= a <= c <= cap(b)]. *)
Definition sub (b : slice) (a c : Z) : M slice :=
  if (0 <=? a) && (a <=? c) && (c <=? scap b)
  then ret (mkSlice (lo b + a) (lo b + c)) else panic.

(** [binary.LittleEndian.Uint16(b)]: [_ = b[1]], then [b[0] | b[1]<<8]. *)
Definition Uint16 (b : slice) : M Z :=
  b1 <- idx b 1 ;;
  b0 <- idx b 0 ;;
  ret (le16 b0 b1).

(** [binary.LittleEndian.Uint16(b[off:])]. *)
Definition Uint16_from (b : slice) (off : Z) : M Z :=
  t <- from b off ;; Uint16 t.

(** [copy(dst, src)] on values: the first [min(len dst, len src)] elements
    of [dst] are replaced. *)
Definition copy_into (dst src : list byte) : list byte :=
  firstn (length dst) src ++ skipn (length src) dst.

(** Storing [src] into [l] from index [at_] on. *)
Definition store (l : list byte) (at_ : Z) (src : list byte) : list byte :=
  firstn (Z.to_nat at_) l ++ src ++ skipn (Z.to_nat at_ + length src) l.

(** ** The transport (interface [hciTransport]), simulated

    [Buffered] is the number of bytes waiting; [Read(p)] hands over as many
    of them as [p] holds, oldest first; [Write] sends a frame.  Either call
    fails when [collab] says so, and then moves no byte. *)

Definition Buffered : M Z := gets (fun s => len (rx s)).

Definition transport_Read (C : collab) (p : slice) : M (Z * error) :=
  fun s =>
    match tr_read_err C (slen p) with
    | Some e => Val (0, Some (ErrExternal e)) (set_trace (trace s ++ [EvRead (slen p) []]) s)
    | None =>
        let n := Z.min (slen p) (len (rx s)) in
        let got := firstn (Z.to_nat n) (rx s) in
        Val (n, None)
            (set_trace (trace s ++ [EvRead (slen p) got])
               (set_rx (skipn (Z.to_nat n) (rx s))
                  (set_buf (store (buf s) (lo p) got) s)))
    end.

Definition transport_Write (C : collab) (frame : list byte) : M (Z * error) :=
  log (EvWrite frame) ;;
  ret (len frame, ext (tr_write_err C frame)).

(** [h.write]. *)
Definition write (C : collab) (frame : list byte) : M (Z * error) :=
  transport_Write C frame.

(** ** The write buffer *)

(** [h.writebuf[i] = v]: panics unless [i] is an index of the buffer. *)
Definition wb_set (i : Z) (v : byte) : M unit :=
  fun s =>
    if (0 <=? i) && (i <? len (writebuf s))
    then Val tt (set_writebuf (store (writebuf s) i [v]) s)
    else Panic.

(** [copy(h.writebuf[4:], params)]. *)
Definition wb_copy4 (params : list byte) : M unit :=
  fun s =>
    if 4 <=? len (writebuf s)
    then Val tt (set_writebuf (firstn 4 (writebuf s) ++ copy_into (skipn 4 (writebuf s)) params) s)
    else Panic.

(** [h.writebuf[:n]]: panics unless [n <= cap]. *)
Definition wb_prefix (n : Z) : M (list byte) :=
  fun s =>
    if (0 <=? n) && (n <=? len (writebuf s))
    then Val (firstn (Z.to_nat n) (writebuf s)) s
    else Panic.

(** The frame both send functions build in [h.writebuf] (hci.go, the first
    lines of [sendCommandWithParams] and of [sendWithoutResponse]). *)
Definition encodeCommand (opcode : Z) (params : list byte) : M (list byte) :=
  wb_set 0 (byte_of hciCommandPkt) ;;
  wb_set 1 (byte_of opcode) ;;
  wb_set 2 (byte_of (Z.shiftr opcode 8)) ;;
  wb_set 3 (byte_of (len params)) ;;
  wb_copy4 params ;;
  wb_prefix (4 + len params).

(** ** Command dispatch without waiting *)

Definition resetCompletion : M unit :=
  modify (set_cmdCompleteOpcode 0xffff) ;;
  modify (set_cmdCompleteStatus 0xff).

Definition sendWithoutResponse (C : collab) (opcode : Z) (params : list byte) : M error :=
  frame <- encodeCommand opcode params ;;
  r <- write C frame ;;
  match snd r with
  | Some e => ret (Some e)
  | None => resetCompletion ;; ret None
  end.

Definition leSetAdvertiseEnable (C : collab) (enabled : bool) : M error :=
  let data := [if enabled then x01 else x00] in
  sendWithoutResponse C (Z.lor (Z.shiftl ogfLECtrl ogfCommandPos) ocfLESetAdvertiseEnable) data.

(** ** The ACL demultiplexer *)

Definition att_deliver (C : collab) (h : Z) (p : slice) : M error :=
  payload <- gets (fun s => window (buf s) p) ;;
  log (EvAttHandleData h payload) ;;
  ret (ext (att_handleData C h payload)).

Definition l2cap_deliver (C : collab) (h : Z) (p : slice) : M error :=
  payload <- gets (fun s => window (buf s) p) ;;
  log (EvL2capHandleData h payload) ;;
  ret (ext (l2cap_handleData C h payload)).

Definition handleACLData (C : collab) (b : slice) : M error :=
  hd <- Uint16_from b 0 ;;
  dlen <- Uint16_from b 2 ;;
  ln <- Uint16_from b 4 ;;
  cid <- Uint16_from b 6 ;;
  let aclFlags := Z.shiftr (Z.land hd 0xf000) 12 in
  if negb (wrap16 (dlen - 4) =? ln) then ret (Some ErrFragmented)
  else if cid =? attCID then
    if aclFlags =? 0x01 then
      p <- sub b 8 (wrap16 (ln + 8)) ;; att_deliver C (Z.land hd 0x0fff) p
    else
      p <- sub b 8 (wrap16 (ln + 8)) ;; att_deliver C (Z.land hd 0x0fff) p
  else if cid =? signalingCID then
    p <- sub b 8 (wrap16 (ln + 8)) ;; l2cap_deliver C (Z.land hd 0x0fff) p
  else ret None.

(** ** The event decoder *)

Definition put16 (v : Z) : list byte := [byte_of v; byte_of (Z.shiftr v 8)].

Definition zeros (n : nat) : list byte := repeat x00 n.

Definition upd_conn (f : leConnectData -> leConnectData) : M unit :=
  modify (fun s => set_connectData (f (connectData s)) s).
Definition upd_adv (f : leAdvertisingReport -> leAdvertisingReport) : M unit :=
  modify (fun s => set_advData (f (advData s)) s).

Definition conn_connected v c := mkConn v (disconnected c) (status c) (handle c) (role c) (peerBdaddrType c) (peerBdaddr c) (interval c) (timeout c).
Definition conn_disconnected v c := mkConn (connected c) v (status c) (handle c) (role c) (peerBdaddrType c) (peerBdaddr c) (interval c) (timeout c).
Definition conn_status v c := mkConn (connected c) (disconnected c) v (handle c) (role c) (peerBdaddrType c) (peerBdaddr c) (interval c) (timeout c).
Definition conn_handle v c := mkConn (connected c) (disconnected c) (status c) v (role c) (peerBdaddrType c) (peerBdaddr c) (interval c) (timeout c).
Definition conn_role v c := mkConn (connected c) (disconnected c) (status c) (handle c) v (peerBdaddrType c) (peerBdaddr c) (interval c) (timeout c).
Definition conn_peerBdaddrType v c := mkConn (connected c) (disconnected c) (status c) (handle c) (role c) v (peerBdaddr c) (interval c) (timeout c).
Definition conn_peerBdaddr v c := mkConn (connected c) (disconnected c) (status c) (handle c) (role c) (peerBdaddrType c) v (interval c) (timeout c).
Definition conn_interval v c := mkConn (connected c) (disconnected c) (status c) (handle c) (role c) (peerBdaddrType c) (peerBdaddr c) v (timeout c).
Definition conn_timeout v c := mkConn (connected c) (disconnected c) (status c) (handle c) (role c) (peerBdaddrType c) (peerBdaddr c) (interval c) v.

Definition adv_reported v a := mkAdv v (numReports a) (typ a) (adv_peerBdaddrType a) (adv_peerBdaddr a) (eirLength a) (eirData a) (rssi a).
Definition adv_numReports v a := mkAdv (reported a) v (typ a) (adv_peerBdaddrType a) (adv_peerBdaddr a) (eirLength a) (eirData a) (rssi a).
Definition adv_typ v a := mkAdv (reported a) (numReports a) v (adv_peerBdaddrType a) (adv_peerBdaddr a) (eirLength a) (eirData a) (rssi a).
Definition adv_bdaddrType v a := mkAdv (reported a) (numReports a) (typ a) v (adv_peerBdaddr a) (eirLength a) (eirData a) (rssi a).
Definition adv_bdaddr v a := mkAdv (reported a) (numReports a) (typ a) (adv_peerBdaddrType a) v (eirLength a) (eirData a) (rssi a).
Definition adv_eirLength v a := mkAdv (reported a) (numReports a) (typ a) (adv_peerBdaddrType a) (adv_peerBdaddr a) v (eirData a) (rssi a).
Definition adv_eirData v a := mkAdv (reported a) (numReports a) (typ a) (adv_peerBdaddrType a) (adv_peerBdaddr a) (eirLength a) v (rssi a).
Definition adv_rssi v a := mkAdv (reported a) (numReports a) (typ a) (adv_peerBdaddrType a) (adv_peerBdaddr a) (eirLength a) (eirData a) v.

Definition clearedAdv : leAdvertisingReport :=
  mkAdv false 0 0 0 (zeros 6) 0 (zeros 31) 0.

Definition clearAdvData : M error :=
  upd_adv (fun _ => clearedAdv) ;; ret None.

(** [case evtDisconnComplete]. *)
Definition onDisconnComplete (C : collab) (b : slice) : M error :=
  hd <- Uint16_from b 3 ;;
  log (EvAttRemoveConnection hd) ;;
  log (EvL2capRemoveConnection hd) ;;
  upd_conn (conn_disconnected true) ;;
  upd_conn (conn_handle hd) ;;
  leSetAdvertiseEnable C true.

(** [case evtCmdComplete]. *)
Definition onCmdComplete (b : slice) (plen : Z) : M error :=
  op <- Uint16_from b 3 ;;
  modify (set_cmdCompleteOpcode op) ;;
  st <- idx b 5 ;;
  modify (set_cmdCompleteStatus (u8 st)) ;;
  (if plen >? 0 then
     r <- sub b 1 (wrap8 (plen + 2)) ;; modify (set_cmdResponse r)
   else
     r <- sub b 0 0 ;; modify (set_cmdResponse r)) ;;
  ret None.

(** [case evtCmdStatus]. *)
Definition onCmdStatus (b : slice) : M error :=
  st <- idx b 2 ;;
  modify (set_cmdCompleteStatus (u8 st)) ;;
  op <- Uint16_from b 4 ;;
  modify (set_cmdCompleteOpcode op) ;;
  r <- sub b 0 0 ;;
  modify (set_cmdResponse r) ;;
  ret None.

(** The loop of [case evtNumCompPkts]:
    [for i := byte(0); i < c; i++ { pkts += Uint16(buf[5+i*4:]) }],
    with [n] iterations left, [i] and the index in uint8, [pkts] in uint16. *)
Fixpoint sumCompPkts (n : nat) (b : slice) (i pkts : Z) : M Z :=
  match n with
  | O => ret pkts
  | S n' =>
      v <- Uint16_from b (wrap8 (5 + i * 4)) ;;
      sumCompPkts n' b (wrap8 (i + 1)) (wrap16 (pkts + v))
  end.

(** [case evtNumCompPkts]. *)
Definition onNumCompPkts (b : slice) : M error :=
  c <- idx b 2 ;;
  pkts <- sumCompPkts (Z.to_nat (u8 c)) b 0 0 ;;
  modify (fun s =>
    if (pkts >? 0) && (pendingPkt s >? pkts)
    then set_pendingPkt (pendingPkt s - pkts) s
    else set_pendingPkt 0 s) ;;
  ret None.

(** [case leMetaEventConnComplete, leMetaEventEnhancedConnectionComplete]. *)
Definition onConnComplete (C : collab) (b : slice) : M error :=
  upd_conn (conn_connected true) ;;
  st <- idx b 3 ;;
  upd_conn (conn_status (u8 st)) ;;
  hd <- Uint16_from b 4 ;;
  upd_conn (conn_handle hd) ;;
  rl <- idx b 6 ;;
  upd_conn (conn_role (u8 rl)) ;;
  ty <- idx b 7 ;;
  upd_conn (conn_peerBdaddrType (u8 ty)) ;;
  a <- from b 8 ;;
  src <- gets (fun s => window (buf s) a) ;;
  upd_conn (fun c => conn_peerBdaddr (copy_into (peerBdaddr c) src) c) ;;
  sb <- idx b 2 ;;
  (if u8 sb =? leMetaEventConnComplete then
     iv <- Uint16_from b 14 ;;
     upd_conn (conn_interval iv) ;;
     tm <- Uint16_from b 18 ;;
     upd_conn (conn_timeout tm)
   else if u8 sb =? leMetaEventEnhancedConnectionComplete then
     iv <- Uint16_from b 26 ;;
     upd_conn (conn_interval iv) ;;
     tm <- Uint16_from b 30 ;;
     upd_conn (conn_timeout tm)
   else ret tt) ;;
  c <- gets connectData ;;
  log (EvAttAddConnection (handle c)) ;;
  log (EvL2capAddConnection (handle c) (role c) (interval c) (timeout c)) ;;
  match l2cap_addConnection C (handle c) (role c) (interval c) (timeout c) with
  | Some e => ret (Some (ErrExternal e))
  | None => leSetAdvertiseEnable C false
  end.

(** [case leMetaEventAdvertisingReport]. *)
Definition onAdvertisingReport (b : slice) : M error :=
  upd_adv (adv_reported true) ;;
  nr <- idx b 3 ;;
  upd_adv (adv_numReports (u8 nr)) ;;
  ty <- idx b 4 ;;
  upd_adv (adv_typ (u8 ty)) ;;
  at_ <- idx b 5 ;;
  upd_adv (adv_bdaddrType (u8 at_)) ;;
  a <- from b 6 ;;
  src <- gets (fun s => window (buf s) a) ;;
  upd_adv (fun r => adv_bdaddr (copy_into (adv_peerBdaddr r) src) r) ;;
  el <- idx b 12 ;;
  upd_adv (adv_eirLength (u8 el)) ;;
  upd_adv (adv_rssi 0) ;;
  let e := u8 el in
  if (wrap8 (13 + e + 1) >? slen b) || (e >? 31) then ret (Some ErrHCIInvalidPacket)
  else
    d <- sub b 13 (wrap8 (13 + e)) ;;
    eir <- gets (fun s => window (buf s) d) ;;
    upd_adv (fun r =>
      adv_eirData (copy_into (firstn (Z.to_nat e) (eirData r)) eir
                     ++ skipn (Z.to_nat e) (eirData r)) r) ;;
    n <- gets (fun s => numReports (advData s)) ;;
    (if n =? 0x01 then
       rs <- idx b (wrap8 (13 + e)) ;;
       upd_adv (adv_rssi (int8 (u8 rs)))
     else ret tt) ;;
    ret None.

(** [case leMetaEventRemoteConnParamReq]. *)
Definition onRemoteConnParamReq (C : collab) (b : slice) : M error :=
  connectionHandle <- Uint16_from b 3 ;;
  intervalMin <- Uint16_from b 5 ;;
  intervalMax <- Uint16_from b 7 ;;
  latency <- Uint16_from b 9 ;;
  timeOut <- Uint16_from b 11 ;;
  let p := put16 connectionHandle ++ put16 intervalMin ++ put16 intervalMax
           ++ put16 latency ++ put16 timeOut ++ put16 0x000F ++ put16 0x0FFF in
  sendWithoutResponse C (Z.lor (Z.shiftl ogfLECtrl 10) ocfLEParamRequestReply) p.

(** The sub-events that the inner switch names and only observes. *)
Definition observedOnly (sb : Z) : bool :=
  (sb =? leMetaEventLongTermKeyRequest)
  || (sb =? leMetaEventConnectionUpdateComplete)
  || (sb =? leMetaEventReadLocalP256Complete)
  || (sb =? leMetaEventGenerateDHKeyComplete)
  || (sb =? leMetaEventDataLengthChange).

(** [case evtLEMetaEvent]: the switch on [buf[2]]. *)
Definition onLEMetaEvent (C : collab) (b : slice) : M error :=
  sb <- idx b 2 ;;
  let sb := u8 sb in
  if (sb =? leMetaEventConnComplete) || (sb =? leMetaEventEnhancedConnectionComplete)
  then onConnComplete C b
  else if sb =? leMetaEventAdvertisingReport then onAdvertisingReport b
  else if sb =? leMetaEventRemoteConnParamReq then onRemoteConnParamReq C b
  else if observedOnly sb then ret None
  else clearAdvData ;; ret (Some ErrHCIUnknownEvent).

Definition handleEventData (C : collab) (b : slice) : M error :=
  e <- idx b 0 ;;
  pl <- idx b 1 ;;
  let evt := u8 e in
  let plen := u8 pl in
  if evt =? evtDisconnComplete then onDisconnComplete C b
  else if evt =? evtEncryptionChange then ret None
  else if evt =? evtCmdComplete then onCmdComplete b plen
  else if evt =? evtCmdStatus then onCmdStatus b
  else if evt =? evtNumCompPkts then onNumCompPkts b
  else if evt =? evtLEMetaEvent then onLEMetaEvent C b
  else if evt =? evtHardwareError then ret (Some ErrHCIUnknownEvent)
  else ret None.

(** ** The packet framer *)

(** [processPacket]: classify the buffered bytes by [h.buf[0]] and, once a
    frame is complete, hand [h.buf[1:h.pos]] to its decoder. *)
Definition processPacket (C : collab) : M (bool * error) :=
  t <- idx hbuf 0 ;;
  p <- gets pos ;;
  e <- gets end_ ;;
  if u8 t =? hciACLDataPkt then
    if p >? hciACLLenPos then
      h35 <- sub hbuf 3 5 ;;
      pktlen <- Uint16 h35 ;;
      if e <? hciACLLenPos + pktlen then ret (false, None)
      else if p >=? hciACLLenPos + pktlen then
        modify (set_pos (hciACLLenPos + pktlen + 1)) ;;
        fr <- sub hbuf 1 (hciACLLenPos + pktlen + 1) ;;
        err <- handleACLData C fr ;;
        ret (true, err)
      else ret (false, None)
    else ret (false, None)
  else if u8 t =? hciEventPkt then
    if p >? hciEvtLenPos then
      pl <- idx hbuf hciEvtLenPos ;;
      let pktlen := u8 pl in
      if e <? hciEvtLenPos + pktlen then ret (false, None)
      else if p >=? hciEvtLenPos + pktlen then
        modify (set_pos (hciEvtLenPos + pktlen + 1)) ;;
        fr <- sub hbuf 1 (hciEvtLenPos + pktlen + 1) ;;
        err <- handleEventData C fr ;;
        ret (true, err)
      else ret (false, None)
    else ret (false, None)
  else if u8 t =? hciSynchronousDataPkt then
    if p >? 3 then
      pl <- idx hbuf 3 ;;
      modify (set_pos (1 + 3 + u8 pl)) ;;
      ret (true, None)
    else ret (false, None)
  else ret (true, Some ErrHCIUnknown).

(** [aligned := available + (4-(available%4))%4]; Go's [%] truncates. *)
Definition aligned (available : Z) : Z :=
  available + Z.rem (4 - Z.rem available 4) 4.

(** The errors after which [poll] drops the buffer and goes on. *)
Definition resync (err : error) : bool :=
  match err with
  | Some ErrHCIInvalidPacket | Some ErrHCIUnknown | Some ErrHCIUnknownEvent => true
  | _ => false
  end.

Definition dropBuffer : M unit :=
  modify (set_pos 0) ;; modify (set_end 0).

(** How one turn of the loop of [poll] ends. *)
Inductive turn : Type :=
| Again
| Return (err : error).

(** The read at the head of the loop body:
    [n, err := h.transport.Read(h.buf[h.end : h.end+aligned])]. *)
Definition pollRead (C : collab) (available : Z) : M error :=
  e <- gets end_ ;;
  p <- sub hbuf e (e + aligned available) ;;
  r <- transport_Read C p ;;
  match snd r with
  | Some err => ret (Some err)
  | None => modify (fun s => set_end (end_ s + fst r) s) ;; ret None
  end.

(** The [switch] that ends the loop body, on the answer [(done, err)] of
    [processPacket]. *)
Definition pollSwitch (r : bool * error) : M turn :=
  let done := fst r in
  let err := snd r in
  if resync err then
    dropBuffer ;; sleep (5 * millisecond) ;; ret Again
  else
    match err with
    | Some _ => dropBuffer ;; ret (Return err)
    | None =>
        if done then
          p <- gets pos ;;
          e <- gets end_ ;;
          (if e >? p then
             src <- sub hbuf p e ;;
             modify (fun s => set_buf (copy_into (buf s) (window (buf s) src)) s) ;;
             modify (fun s => set_end (end_ s - pos s) s)
           else modify (set_end 0)) ;;
          modify (set_pos 0) ;;
          ret (Return None)
        else
          p <- gets pos ;;
          e <- gets end_ ;;
          if p >? e then
            dropBuffer ;; sleep (5 * millisecond) ;; ret Again
          else sleep (1 * millisecond) ;; ret Again
    end.

(** The body of the loop of [poll]. *)
Definition pollTurn (C : collab) : M turn :=
  available <- Buffered ;;
  rd <- (if available >? 0 then pollRead C available else ret None) ;;
  match rd with
  | Some err => ret (Return (Some err))
  | None =>
      modify (fun s => set_pos (pos s + 1) s) ;;
      r <- processPacket C ;;
      pollSwitch r
  end.

(** [for h.transport.Buffered() > 0 || h.end > h.pos { ... }], at most
    [fuel] turns. *)
Fixpoint pollLoop (C : collab) (fuel : nat) : M error :=
  fun s =>
    if (len (rx s) >? 0) || (end_ s >? pos s) then
      match fuel with
      | O => Spin
      | S fuel' =>
          (t <- pollTurn C ;;
           match t with
           | Again => pollLoop C fuel'
           | Return err => ret err
           end) s
      end
    else Val None s.

(** [poll].  With the bytes of the transport read in the first turn, the
    cursor then moves by one per turn over at most [bufCap] bytes; the
    budget is never reached (see [poll_returns]). *)
Definition pollFuel : nat := 520.
Definition poll (C : collab) : M error := pollLoop C pollFuel.

(** ** The blocking command call *)

(** What the world does between two calls of [poll] while a command
    waits: time passes and bytes reach the transport. *)
Record tick : Type := mkTick { elapse : Z; incoming : list byte }.

Definition worldTurn (t : tick) : M unit :=
  modify (fun s => set_now (now s + elapse t) (set_rx (rx s ++ incoming t) s)).

(** [for h.cmdCompleteOpcode != opcode { poll; timeout check }]: one
    element of [script] is used before each [poll]; [Spin] when the script
    ends with the call still waiting. *)
Fixpoint waitLoop (C : collab) (script : list tick) (opcode start : Z) : M error :=
  fun s =>
    if negb (cmdCompleteOpcode s =? opcode) then
      match script with
      | [] => Spin
      | t :: rest =>
          (worldTurn t ;;
           err <- poll C ;;
           match err with
           | Some _ => ret err
           | None =>
               n <- gets now ;;
               if Z.quot (n - start) second >? 3 then ret (Some ErrHCITimeout)
               else waitLoop C rest opcode start
           end) s
      end
    else Val None s.

Definition sendCommandWithParams (C : collab) (script : list tick)
    (opcode : Z) (params : list byte) : M error :=
  frame <- encodeCommand opcode params ;;
  r <- write C frame ;;
  match snd r with
  | Some e => ret (Some e)
  | None =>
      resetCompletion ;;
      start <- gets now ;;
      waitLoop C script opcode start
  end.

Definition sendCommand (C : collab) (script : list tick) (opcode : Z) : M error :=
  sendCommandWithParams C script opcode [].

(** [h.reset()]. *)
Definition reset (C : collab) (script : list tick) : M error :=
  sendCommand C script (Z.lor (Z.shiftl ogfHostCtl 10) ocfReset).

(** [h.start()]: drain the transport through a 32-byte scratch array,
    never asking for more than the array holds. *)
Fixpoint startLoop (C : collab) (fuel : nat) : M error :=
  fun s =>
    let i := len (rx s) in
    if i >? 0 then
      match fuel with
      | O => Spin
      | S fuel' =>
          let i := if i >? 32 then 32 else i in
          match tr_read_err C i with
          | Some e => Val (Some (ErrExternal e)) (set_trace (trace s ++ [EvRead i []]) s)
          | None =>
              startLoop C fuel'
                (set_trace (trace s ++ [EvRead i (firstn (Z.to_nat i) (rx s))])
                   (set_rx (skipn (Z.to_nat i) (rx s)) s))
          end
      end
    else Val None s.

Definition start (C : collab) : M error :=
  fun s => startLoop C (length (rx s)) s.

(** ** Initial states and well-formedness *)

Definition emptyAdv : leAdvertisingReport := mkAdv false 0 0 0 (zeros 6) 0 (zeros 31) 0.
Definition emptyConn : leConnectData := mkConn false false 0 0 0 0 (zeros 6) 0 0.

(** [newHCI(t)] on a transport that holds [pending] and a clock at [t0]. *)
Definition newHCI (pending : list byte) (t0 : Z) : state :=
  mkState (zeros 256) 0 0 (zeros 256) 0 0 (mkSlice 0 0) false emptyAdv emptyConn 0 0
          pending [] t0.

(** A collaborator set that never fails. *)
Definition quiet : collab :=
  mkCollab (fun _ => None) (fun _ => None) (fun _ _ => None) (fun _ _ => None)
           (fun _ _ _ _ => None).

(** The two buffers have the capacity [newHCI] gave them. *)
Definition buffers_ok (s : state) : Prop :=
  len (buf s) = bufCap /\ len (writebuf s) = bufCap.

(** A slice that lies in the packet buffer. *)
Definition slice_ok (b : slice) : Prop :=
  0 <= lo b /\ lo b <= hi b /\ hi b <= bufCap.

(** The invariant of the data model: [0 <= pos <= end <= capacity]. *)
Definition cursor_ok (s : state) : Prop :=
  0 <= pos s /\ pos s <= end_ s /\ end_ s <= bufCap.

(** What a caller sees through [h.cmdResponse]. *)
Definition response (s : state) : list byte := window (buf s) (cmdResponse s).

(** The byte at index [i] of the frame [b], [x00] outside the buffer. *)
Definition byteAt (s : state) (b : slice) (i : Z) : byte :=
  nth (Z.to_nat (lo b + i)) (buf s) x00.

Definition at_ (s : state) (b : slice) (i : Z) : Z := u8 (byteAt s b i).

(** The 16-bit little-endian field at index [i] of the frame [b]. *)
Definition at16 (s : state) (b : slice) (i : Z) : Z :=
  le16 (byteAt s b i) (byteAt s b (i + 1)).

(** ** Descriptions used in the statements *)

(** The bytes of a command frame: tag, opcode (little endian), length,
    parameters. *)
Definition commandFrame (opcode : Z) (params : list byte) : list byte :=
  [byte_of hciCommandPkt; byte_of opcode; byte_of (Z.shiftr opcode 8);
   byte_of (len params)] ++ params.

(** The state once a command frame was built in [h.writebuf] and written. *)
Definition sent (opcode : Z) (params : list byte) (s : state) : state :=
  set_trace (trace s ++ [EvWrite (commandFrame opcode params)])
    (set_writebuf (commandFrame opcode params
                   ++ skipn (4 + length params) (writebuf s)) s).

(** The completion slot set to "no command pending". *)
Definition noPending (s : state) : state :=
  set_cmdCompleteStatus 0xff (set_cmdCompleteOpcode 0xffff s).

(** The frame that answers a Reset: Event tag, CommandComplete, length 4,
    one packet allowed, opcode 0x0C03, status 0. *)
Definition resetComplete : list byte := [x04; x0e; x04; x01; x03; x0c; x00].

(** The opcode of Reset, [ogfHostCtl<<10 | ocfReset]. *)
Definition opReset : Z := Z.lor (Z.shiftl ogfHostCtl 10) ocfReset.

(** The head of an ACL frame that announces 0xFFFF bytes, followed by
    [n] zero bytes: a frame the buffer can never hold. *)
Definition oversizedACL (n : nat) : list byte :=
  [x02; x01; x00; xff; xff] ++ zeros n.

(** The decoded state the application and the dispatcher read: the
    advertising slot, the connection slot and the completion slot. *)
Definition decoded (s : state) :
    leAdvertisingReport * leConnectData * (Z * Z * slice) :=
  (advData s, connectData s,
   (cmdCompleteOpcode s, cmdCompleteStatus s, cmdResponse s)).

(** A decoder run [m s = Val r s1] is settled when running [m] again, on
    [s1], ends the same way and leaves the decoded state as it is. *)
Definition settled (m : M error) (r : error) (s1 : state) : Prop :=
  exists s2, m s1 = Val r s2 /\ decoded s2 = decoded s1.

(** The completion slot is untouched or back to "no command pending". *)
Definition slotKept (s s1 : state) : Prop :=
  cmdCompleteOpcode s1 = cmdCompleteOpcode s \/ cmdCompleteOpcode s1 = 0xffff.

(** The sub-events the inner switch of [handleEventData] has a case for. *)
Definition knownSubevent (sb : Z) : bool :=
  (sb =? leMetaEventConnComplete) || (sb =? leMetaEventEnhancedConnectionComplete)
  || (sb =? leMetaEventAdvertisingReport) || (sb =? leMetaEventRemoteConnParamReq)
  || observedOnly sb.

(** An engine fresh from [newHCI] whose packet buffer holds [bytes] from
    index 0 on, all of them read ([end] behind them) and none consumed. *)
Definition holding (bytes : list byte) : state :=
  set_end (len bytes) (set_buf (store (zeros 256) 0 bytes) (newHCI [] 0)).

(** The frame the framer hands to a decoder, [h.buf[1:n]]. *)
Definition frame (n : Z) : slice := mkSlice 1 n.

(** The sum of the completed-packet counts of [n] handle entries, from
    entry [i] on: entry [k] has its 16-bit count at index [5 + 4k]. *)
Fixpoint completedSum (s : state) (b : slice) (i : Z) (n : nat) : Z :=
  match n with
  | O => 0
  | S n' => at16 s b (5 + 4 * i) + completedSum s b (i + 1) n'
  end.

(** ** Reading off the end of a run *)

(** What a run answered; [None] when it panicked or ran out of budget. *)
Definition answer {A} (r : res A) : option A :=
  match r with
  | Val a _ => Some a
  | _ => None
  end.

(** A field of the state a run ended in. *)
Definition after {A B} (r : res A) (f : state -> B) : option B :=
  match r with
  | Val _ s => Some (f s)
  | _ => None
  end.

(** ** Frames used in the examples *)

(** NumberOfCompletedPackets, one handle (0x0040), 2 packets completed. *)
Definition twoCompleted : list byte := [x04; x13; x05; x01; x40; x00; x02; x00].

(** NumberOfCompletedPackets, one handle (0x0040), 0 packets completed. *)
Definition noneCompleted : list byte := [x04; x13; x05; x01; x40; x00; x00; x00].

(** An LE meta-event with sub-event 0x0B (Direct Advertising Report), for
    which the decoder has no case. *)
Definition directReport : list byte := [x04; x3e; x02; x0b; x00].



(** An LE Advertising Report cut short after the report count. *)
Definition truncatedReport : list byte := [x04; x3e; x02; x02; x01].

(** An LE Advertising Report with one report, 31 EIR bytes (01 .. 1F) and
    RSSI byte C8 (-56). *)
Definition fullReport : list byte :=
  [x04; x3e; x2b; x02; x01; x00; x01; xa1; xa2; xa3; xa4; xa5; xa6; x1f;
   x01; x02; x03; x04; x05; x06; x07; x08; x09; x0a; x0b; x0c; x0d; x0e; x0f; x10;
   x11; x12; x13; x14; x15; x16; x17; x18; x19; x1a; x1b; x1c; x1d; x1e; x1f;
   xc8].

(** ** Outbound data and the command encoders *)

(** [copy(h.writebuf[n:], data)]. *)
Definition wb_copyAt (n : Z) (data : list byte) : M unit :=
  fun s =>
    if (0 <=? n) && (n <=? len (writebuf s))
    then Val tt (set_writebuf
                   (firstn (Z.to_nat n) (writebuf s)
                    ++ copy_into (skipn (Z.to_nat n) (writebuf s)) data) s)
    else Panic.

(** [binary.LittleEndian.PutUint16(h.writebuf[n:], v)]. *)
Definition wb_put16 (n v : Z) : M unit :=
  wb_set n (byte_of v) ;; wb_set (n + 1) (byte_of (Z.shiftr v 8)).

(** [sendAclPkt(handle uint16, cid uint8, data []byte)]. *)
Definition sendAclPkt (C : collab) (hd cid : Z) (data : list byte) : M error :=
  wb_set 0 (byte_of hciACLDataPkt) ;;
  wb_put16 1 hd ;;
  wb_put16 3 (wrap16 (len data + 4)) ;;
  wb_put16 5 (wrap16 (len data)) ;;
  wb_put16 7 cid ;;
  wb_copyAt 9 data ;;
  fr <- wb_prefix (9 + len data) ;;
  r <- write C fr ;;
  match snd r with
  | Some e => ret (Some e)
  | None =>
      modify (fun s => set_pendingPkt (wrap16 (pendingPkt s + 1)) s) ;;
      ret None
  end.

(** The bytes of an outbound ACL frame. *)
Definition aclFrame (hd cid : Z) (data : list byte) : list byte :=
  [byte_of hciACLDataPkt] ++ put16 hd ++ put16 (wrap16 (len data + 4))
  ++ put16 (wrap16 (len data)) ++ put16 cid ++ data.

(** [binary.LittleEndian.PutUint64] into an 8-byte array. *)
Definition put64 (v : Z) : list byte :=
  map (fun k => byte_of (Z.shiftr v (8 * Z.of_nat k))) (seq 0 8).

Definition opcodeOf (ogf ocf : Z) : Z := Z.lor (Z.shiftl ogf ogfCommandPos) ocf.

Definition ocfDisconnect : Z := 0x0006.
Definition ocfSetEventMask : Z := 0x0001.
Definition ocfReadBDAddr : Z := 0x0009.
Definition ocfLEReadBufferSize : Z := 0x0002.
Definition ocfLESetAdvertisingParameters : Z := 0x0006.
Definition ocfLESetAdvertisingData : Z := 0x0008.
Definition ocfLESetScanResponseData : Z := 0x0009.
Definition ocfLESetScanParameters : Z := 0x000b.
Definition ocfLESetScanEnable : Z := 0x000c.
Definition ocfLECreateConn : Z := 0x000d.
Definition ocfLECancelConn : Z := 0x000e.
Definition ocfLEConnUpdate : Z := 0x0013.
Definition hciOEUserEndedConnection : Z := 0x13.

Definition set_scanning v s := mkState (buf s) (pos s) (end_ s) (writebuf s) (cmdCompleteOpcode s) (cmdCompleteStatus s) (cmdResponse s) v (advData s) (connectData s) (maxPkt s) (pendingPkt s) (rx s) (trace s) (now s).
Definition set_maxPkt v s := mkState (buf s) (pos s) (end_ s) (writebuf s) (cmdCompleteOpcode s) (cmdCompleteStatus s) (cmdResponse s) (scanning s) (advData s) (connectData s) v (pendingPkt s) (rx s) (trace s) (now s).

Definition bit (b : bool) : byte := if b then x01 else x00.

Definition setEventMask (C : collab) (script : list tick) (eventMask : Z) : M error :=
  sendCommandWithParams C script (opcodeOf ogfHostCtl ocfSetEventMask) (put64 eventMask).

Definition setLeEventMask (C : collab) (script : list tick) (eventMask : Z) : M error :=
  sendCommandWithParams C script (opcodeOf ogfLECtrl 0x01) (put64 eventMask).

Definition leSetScanEnable (C : collab) (script : list tick)
    (enabled duplicates : bool) : M error :=
  modify (set_scanning enabled) ;;
  sendCommandWithParams C script (opcodeOf ogfLECtrl ocfLESetScanEnable)
    [bit enabled; bit duplicates].

Definition leSetScanParameters (C : collab) (script : list tick)
    (ty itv window ownBdaddrType filter : Z) : M error :=
  sendCommandWithParams C script (opcodeOf ogfLECtrl ocfLESetScanParameters)
    ([byte_of ty] ++ put16 itv ++ put16 window
     ++ [byte_of ownBdaddrType; byte_of filter]).

(** [var b [n]byte; ...; copy(b[k:], src)] on an array that is still
    zero from index [k] on: what lies in [b[k:]] afterwards. *)
Definition copied (room : nat) (src : list byte) : list byte :=
  copy_into (zeros room) src.

Definition leSetAdvertisingParameters (C : collab) (script : list tick)
    (minInterval maxInterval advType ownBdaddrType directBdaddrType : Z)
    (directBdaddr : list byte) (chanMap filter : Z) : M error :=
  sendCommandWithParams C script (opcodeOf ogfLECtrl ocfLESetAdvertisingParameters)
    (put16 minInterval ++ put16 maxInterval
     ++ [byte_of advType; byte_of ownBdaddrType; byte_of directBdaddrType]
     ++ copied 6 directBdaddr
     ++ [byte_of chanMap; byte_of filter]).

(** The 32-byte block of [leSetAdvertisingData] and
    [leSetScanResponseData]: [b[0] = byte(len(data)); copy(b[1:], data)]. *)
Definition advBlock (data : list byte) : list byte :=
  byte_of (len data) :: copied 31 data.

Definition leSetAdvertisingData (C : collab) (script : list tick)
    (data : list byte) : M error :=
  sendCommandWithParams C script (opcodeOf ogfLECtrl ocfLESetAdvertisingData)
    (advBlock data).

Definition leSetScanResponseData (C : collab) (script : list tick)
    (data : list byte) : M error :=
  sendCommandWithParams C script (opcodeOf ogfLECtrl ocfLESetScanResponseData)
    (advBlock data).

Definition leCreateConn (C : collab) (script : list tick)
    (itv window initiatorFilter peerBdaddrType_ : Z) (peerBdaddr_ : list byte)
    (ownBdaddrType minInterval maxInterval latency supervisionTimeout
     minCeLength maxCeLength : Z) : M error :=
  sendCommandWithParams C script (opcodeOf ogfLECtrl ocfLECreateConn)
    (put16 itv ++ put16 window
     ++ [byte_of initiatorFilter; byte_of peerBdaddrType_]
     ++ copied 6 peerBdaddr_
     ++ [byte_of ownBdaddrType]
     ++ put16 minInterval ++ put16 maxInterval ++ put16 latency
     ++ put16 supervisionTimeout ++ put16 minCeLength ++ put16 maxCeLength).

Definition leCancelConn (C : collab) (script : list tick) : M error :=
  sendCommand C script (opcodeOf ogfLECtrl ocfLECancelConn).

Definition leConnUpdate (C : collab) (script : list tick)
    (hd minInterval maxInterval latency supervisionTimeout : Z) : M error :=
  sendCommandWithParams C script (opcodeOf ogfLECtrl ocfLEConnUpdate)
    (put16 hd ++ put16 minInterval ++ put16 maxInterval ++ put16 latency
     ++ put16 supervisionTimeout ++ put16 0x0004 ++ put16 0x0006).

Definition disconnect (C : collab) (script : list tick) (hd : Z) : M error :=
  sendCommandWithParams C script (opcodeOf ogfLinkCtl ocfDisconnect)
    (put16 hd ++ [byte_of hciOEUserEndedConnection]).

(** [readLeBufferSize]: after the command, the packet length is read at
    [h.buf[0:]] and the packet count at [h.buf[2]]; the length, raised to
    27 when below, goes to [att.setMaxMTU], whose answer is [setMaxMTU]. *)
Definition readLeBufferSize (C : collab) (setMaxMTU : Z -> option nat)
    (script : list tick) : M error :=
  err <- sendCommand C script (opcodeOf ogfLECtrl ocfLEReadBufferSize) ;;
  match err with
  | Some e => ret (Some e)
  | None =>
      pktLen <- Uint16_from hbuf 0 ;;
      mp <- idx hbuf 2 ;;
      modify (set_maxPkt (u8 mp)) ;;
      let pktLen := if pktLen <? 27 then 27 else pktLen in
      ret (ext (setMaxMTU pktLen))
  end.

(** [clearConnectData]. *)
Definition clearConnectData : M error :=
  upd_conn (conn_connected false) ;;
  upd_conn (conn_disconnected false) ;;
  upd_conn (conn_status 0) ;;
  upd_conn (conn_handle 0) ;;
  upd_conn (conn_role 0) ;;
  upd_conn (conn_peerBdaddrType 0) ;;
  upd_conn (conn_peerBdaddr (zeros 6)) ;;
  ret None.

(** What the framer works on: packet buffer, fill level, transport queue. *)
Definition framerView (s : state) : list byte * Z * list byte :=
  (buf s, end_ s, rx s).

(** The state of a fresh engine after [bytes] were read into the packet
    buffer from index 0 and the cursor moved to [p]. *)
Definition received (bytes : list byte) (p : Z) : state :=
  set_pos p (holding bytes).

(** Every read request in [t] asks for [lo_] to [hi_] bytes. *)
Fixpoint requestsWithin (lo_ hi_ : Z) (t : list io) : Prop :=
  match t with
  | [] => True
  | EvRead n _ :: t' => lo_ <= n <= hi_ /\ requestsWithin lo_ hi_ t'
  | _ :: t' => requestsWithin lo_ hi_ t'
  end.

(** The state once an ACL frame was built in [h.writebuf] and written. *)
Definition sentAcl (hd cid : Z) (data : list byte) (s : state) : state :=
  set_trace (trace s ++ [EvWrite (aclFrame hd cid data)])
    (set_writebuf (aclFrame hd cid data
                   ++ skipn (9 + length data) (writebuf s)) s).

(** The packet buffer of [s] starts with the bytes [f]. *)
Definition buffered (f : list byte) (s : state) : Prop :=
  firstn (length f) (buf s) = f.

(** ** What a call leaves alone *)

(** [wp m s Q]: from [s], the call [m] ends, with a panic or with a value
    and a state that satisfy [Q]. *)
Definition wp {A} (m : M A) (s : state) (Q : A -> state -> Prop) : Prop :=
  match m s with
  | Val a s1 => Q a s1
  | Panic => True
  | Spin => False
  end.

(** [m] ends from every state, and relates the states by [R] when it
    ends with a value. *)
Definition keeps {A} (R : state -> state -> Prop) (m : M A) : Prop :=
  forall s, wp m s (fun _ s1 => R s s1).

Definition notRead (e : io) : Prop :=
  match e with
  | EvRead _ _ => False
  | _ => True
  end.

(** The two fields that only the command functions write. *)
Definition flags (s : state) : bool * Z := (scanning s, maxPkt s).

(** What belongs to the framer, to the world and to the command
    functions: the packet buffer, its two cursors, the bytes waiting in
    the transport, the clock, the scanning flag and the packet limit are
    what they were, the write buffer has the size it had, and the calls
    made in between include no read of the transport. *)
Definition framing (s s1 : state) : Prop :=
  buf s1 = buf s /\ pos s1 = pos s /\ end_ s1 = end_ s /\
  rx s1 = rx s /\ now s1 = now s /\
  length (writebuf s1) = length (writebuf s) /\
  flags s1 = flags s /\
  exists t, trace s1 = trace s ++ t /\ Forall notRead t.

(** What [processPacket] may change of the framer's state is the cursor:
    it moves it behind the frame it dispatched and leaves it alone when
    it asks for more bytes. *)
Definition dispatched (s : state) (r : bool * error) (s1 : state) : Prop :=
  buf s1 = buf s /\ end_ s1 = end_ s /\ rx s1 = rx s /\
  length (writebuf s1) = length (writebuf s) /\
  flags s1 = flags s /\
  0 <= pos s1 /\
  (fst r = false -> snd r = None /\ pos s1 = pos s).

(** How a turn of the loop of [poll] leaves the engine: the buffers have
    their capacity and the cursors are in order; a turn that asks for
    another one has emptied the transport, and has brought the read
    cursor closer to the fill level when the transport was empty
    already. *)
Definition turned (s : state) (t : turn) (s1 : state) : Prop :=
  buffers_ok s1 /\ cursor_ok s1 /\ flags s1 = flags s /\
  match t with
  | Again => rx s1 = [] /\ (rx s = [] -> end_ s1 - pos s1 < end_ s - pos s)
  | Return _ => True
  end.

(** How the [switch] at the end of a turn leaves the engine. *)
Definition switched (s : state) (r : bool * error) (t : turn) (s1 : state) : Prop :=
  buffers_ok s1 /\ cursor_ok s1 /\ rx s1 = rx s /\ flags s1 = flags s /\
  match t with
  | Again => (pos s1 = 0 /\ end_ s1 = 0) \/
             (fst r = false /\ pos s1 = pos s /\ end_ s1 = end_ s)
  | Return _ => True
  end.

(** ** The framer at work *)

(** The engine once [poll] has read [bytes] from an idle framer, moved the
    cursor to [n] and slept [w] milliseconds. *)
Definition arrived (s : state) (bytes : list byte) (n w : Z) : state :=
  set_now (now s + w * millisecond)
    (set_pos n
       (set_end (len bytes)
          (set_trace (trace s ++ [EvRead (aligned (len bytes)) bytes])
             (set_rx [] (set_buf (store (buf s) 0 bytes) s))))).

(** The [case done] of [poll]: what lies behind the cursor moves to the
    front of the buffer. *)
Definition compacted (s : state) : state :=
  if end_ s >? pos s then
    set_pos 0
      (set_end (end_ s - pos s)
         (set_buf (copy_into (buf s) (window (buf s) (mkSlice (pos s) (end_ s)))) s))
  else set_pos 0 (set_end 0 s).

(** An event frame: tag, event code, parameter length, parameters. *)
Definition eventFrame (evt : byte) (params : list byte) : list byte :=
  [x04; evt; byte_of (len params)] ++ params.

(** [readBdAddr].  [h.address] is no part of [state]: the contents of
    [h.address.MAC] are passed in as [mac] and handed back with the
    answer.  [copy] fills as much of the array as the seven bytes of
    [h.cmdResponse[:7]] cover. *)
Definition readBdAddr (C : collab) (script : list tick) (mac : list byte)
    : M (error * list byte) :=
  err <- sendCommand C script (opcodeOf ogfInfoParam ocfReadBDAddr) ;;
  match err with
  | Some e => ret (Some e, mac)
  | None =>
      r <- gets cmdResponse ;;
      src <- sub r 0 7 ;;
      bytes <- gets (fun s => window (buf s) src) ;;
      ret (None, copy_into mac bytes)
  end.

(** * Properties *)

(** ** Bytes *)

Lemma u8_range (b : byte) : 0 <= u8 b < 256.
Proof.
  unfold u8. pose proof (Byte.to_N_bounded b) as H.
  split; [apply N2Z.is_nonneg|].
  apply N.le_lteq in H. lia.
Qed.

Lemma le16_sum (a b : byte) : le16 a b = u8 a + 256 * u8 b.
Proof.
  unfold le16.
  pose proof (u8_range a) as Ha. pose proof (u8_range b) as Hb.
  rewrite Z.shiftl_mul_pow2 by lia. change (2 ^ 8) with 256.
  rewrite <- Z.lxor_lor.
  - rewrite <- Z.add_nocarry_lxor; [lia|].
    apply Z.bits_inj'. intros n Hn. rewrite Z.land_spec, Z.bits_0.
    destruct (Z.ltb_spec n 8).
    + replace (u8 b * 256) with (u8 b * 2 ^ 8) by reflexivity.
      rewrite Z.mul_pow2_bits_low by lia. apply andb_false_r.
    + rewrite (Z.bits_above_log2 (u8 a)); [reflexivity|lia|].
      destruct (Z.eq_dec (u8 a) 0) as [->|]; [simpl; lia|].
      apply Z.log2_lt_pow2; [lia|].
      apply Z.lt_le_trans with (2 ^ 8); [simpl; lia|].
      apply Z.pow_le_mono_r; lia.
  - apply Z.bits_inj'. intros n Hn. rewrite Z.land_spec, Z.bits_0.
    destruct (Z.ltb_spec n 8).
    + replace (u8 b * 256) with (u8 b * 2 ^ 8) by reflexivity.
      rewrite Z.mul_pow2_bits_low by lia. apply andb_false_r.
    + rewrite (Z.bits_above_log2 (u8 a)); [reflexivity|lia|].
      destruct (Z.eq_dec (u8 a) 0) as [->|]; [simpl; lia|].
      apply Z.log2_lt_pow2; [lia|].
      apply Z.lt_le_trans with (2 ^ 8); [simpl; lia|].
      apply Z.pow_le_mono_r; lia.
Qed.

Lemma le16_range (a b : byte) : 0 <= le16 a b < 65536.
Proof.
  rewrite le16_sum. pose proof (u8_range a). pose proof (u8_range b). lia.
Qed.

Lemma len_nonneg {A} (l : list A) : 0 <= len l.
Proof. unfold len. lia. Qed.

(** ** The monad *)

Lemma bind_Val {A B} (m : M A) (k : A -> M B) s r s' :
  bind m k s = Val r s' ->
  exists a t, m s = Val a t /\ k a t = Val r s'.
Proof.
  unfold bind. destruct (m s) as [a t| |]; try discriminate. eauto.
Qed.

Lemma bind_run {A B} (m : M A) (k : A -> M B) s a t :
  m s = Val a t -> bind m k s = k a t.
Proof. unfold bind. intros ->. reflexivity. Qed.

(** ** Reading through a slice *)

Lemma idx_Val b i s x s' :
  idx b i s = Val x s' ->
  s' = s /\ 0 <= i < slen b /\ u8 x = at_ s b i.
Proof.
  unfold idx, at_, byteAt.
  destruct (Z.leb_spec 0 i); [|discriminate].
  destruct (Z.ltb_spec i (slen b)); [|discriminate]. simpl.
  destruct (nth_error (buf s) (Z.to_nat (lo b + i))) eqn:E; [|discriminate].
  intros Hv. inversion Hv; subst.
  rewrite (nth_error_nth _ _ _ E). auto.
Qed.

Lemma idx_same_buf b i s t x s' :
  buf t = buf s -> idx b i s = Val x s' -> idx b i t = Val x t.
Proof.
  unfold idx. intros ->.
  destruct ((0 <=? i) && (i <? slen b)); [|discriminate].
  destruct (nth_error (buf s) (Z.to_nat (lo b + i))); [|discriminate].
  intros H; inversion H; reflexivity.
Qed.

Lemma idx_ok b i s :
  slice_ok b -> len (buf s) = bufCap -> 0 <= i < slen b ->
  exists x, idx b i s = Val x s /\ u8 x = at_ s b i.
Proof.
  intros (H0 & H1 & H2) Hl Hi. unfold idx, slen in *.
  destruct (Z.leb_spec 0 i); [|lia].
  destruct (Z.ltb_spec i (hi b - lo b)); [|lia]. simpl.
  destruct (nth_error (buf s) (Z.to_nat (lo b + i))) eqn:E.
  - exists b0. split; [reflexivity|]. unfold at_, byteAt.
    rewrite (nth_error_nth _ _ _ E). reflexivity.
  - apply nth_error_None in E. unfold len in Hl. lia.
Qed.

Lemma from_Val b a s t s' :
  from b a s = Val t s' ->
  s' = s /\ 0 <= a <= slen b /\ t = mkSlice (lo b + a) (hi b).
Proof.
  unfold from, ret, panic.
  destruct (Z.leb_spec 0 a); [|discriminate].
  destruct (Z.leb_spec a (slen b)); [|discriminate]. simpl.
  intros Hv; inversion Hv; subst. auto.
Qed.

Lemma from_ok b a s :
  0 <= a <= slen b -> from b a s = Val (mkSlice (lo b + a) (hi b)) s.
Proof.
  intros H. unfold from, ret.
  destruct (Z.leb_spec 0 a); [|lia].
  destruct (Z.leb_spec a (slen b)); [|lia]. reflexivity.
Qed.

Lemma sub_Val b a c s t s' :
  sub b a c s = Val t s' ->
  s' = s /\ 0 <= a <= c /\ c <= scap b /\ t = mkSlice (lo b + a) (lo b + c).
Proof.
  unfold sub, ret, panic.
  destruct (Z.leb_spec 0 a); [|discriminate].
  destruct (Z.leb_spec a c); [|discriminate].
  destruct (Z.leb_spec c (scap b)); [|discriminate]. simpl.
  intros Hv; inversion Hv; subst. auto.
Qed.

Lemma sub_ok b a c s :
  0 <= a <= c -> c <= scap b -> sub b a c s = Val (mkSlice (lo b + a) (lo b + c)) s.
Proof.
  intros H H'. unfold sub, ret.
  destruct (Z.leb_spec 0 a); [|lia].
  destruct (Z.leb_spec a c); [|lia].
  destruct (Z.leb_spec c (scap b)); [|lia]. reflexivity.
Qed.

Lemma sub_same b a c s t s' u : sub b a c s = Val t s' -> sub b a c u = Val t u.
Proof.
  unfold sub, ret, panic. destruct ((0 <=? a) && (a <=? c) && (c <=? scap b)); [|discriminate].
  intros H; inversion H; reflexivity.
Qed.

Lemma from_same b a s t s' u : from b a s = Val t s' -> from b a u = Val t u.
Proof.
  unfold from, ret, panic. destruct ((0 <=? a) && (a <=? slen b)); [|discriminate].
  intros H; inversion H; reflexivity.
Qed.

Lemma Uint16_from_Val b off s v s' :
  Uint16_from b off s = Val v s' ->
  s' = s /\ 0 <= off /\ off + 2 <= slen b /\ v = at16 s b off.
Proof.
  unfold Uint16_from, Uint16. intros H.
  apply bind_Val in H as (t & s1 & Hf & H).
  apply from_Val in Hf as (-> & Ha & ->).
  apply bind_Val in H as (b1 & s1 & H1 & H).
  apply bind_Val in H as (b0 & s2 & H0 & H).
  unfold idx in H1, H0. unfold slen in *. simpl in *.
  destruct (Z.ltb_spec 1 (hi b - (lo b + off))); [|discriminate]. simpl in H1.
  destruct (Z.ltb_spec 0 (hi b - (lo b + off))); [|lia]. simpl in H0.
  destruct (nth_error (buf s) (Z.to_nat (lo b + off + 1))) eqn:E1; [|discriminate].
  inversion H1; subst.
  destruct (nth_error (buf s1) (Z.to_nat (lo b + off + 0))) eqn:E0; [|discriminate].
  inversion H0; subst. inversion H; subst.
  repeat split; try lia. unfold at16, byteAt.
  rewrite Z.add_0_r in E0. rewrite Z.add_assoc.
  rewrite (nth_error_nth _ _ _ E0), (nth_error_nth _ _ _ E1). reflexivity.
Qed.

Lemma Uint16_from_same_buf b off s t v s' :
  buf t = buf s -> Uint16_from b off s = Val v s' -> Uint16_from b off t = Val v t.
Proof.
  unfold Uint16_from, Uint16. intros Hb H.
  apply bind_Val in H as (sl & s1 & Hf & H).
  rewrite (bind_run _ _ _ _ _ (from_same _ _ _ _ _ t Hf)).
  apply from_Val in Hf as (-> & _ & _).
  apply bind_Val in H as (b1 & s1 & H1 & H).
  rewrite (bind_run _ _ _ _ _ (idx_same_buf _ _ _ t _ _ Hb H1)).
  apply idx_Val in H1 as (-> & _ & _).
  apply bind_Val in H as (b0 & s2 & H0 & H).
  rewrite (bind_run _ _ _ _ _ (idx_same_buf _ _ _ t _ _ Hb H0)).
  inversion H; reflexivity.
Qed.

Lemma Uint16_from_ok b off s :
  slice_ok b -> len (buf s) = bufCap -> 0 <= off -> off + 2 <= slen b ->
  Uint16_from b off s = Val (at16 s b off) s.
Proof.
  intros (H0 & H1 & H2) Hl Ho Hs. unfold Uint16_from, Uint16.
  rewrite (bind_run _ _ _ _ _ (from_ok b off s ltac:(lia))).
  unfold bind, idx, slen, at16, byteAt in *. simpl.
  destruct (Z.ltb_spec 1 (hi b - (lo b + off))); [|lia].
  destruct (Z.ltb_spec 0 (hi b - (lo b + off))); [|lia]. simpl.
  destruct (nth_error (buf s) (Z.to_nat (lo b + off + 1))) eqn:E1.
  2:{ apply nth_error_None in E1. unfold len in Hl. lia. }
  destruct (nth_error (buf s) (Z.to_nat (lo b + off + 0))) eqn:E0.
  2:{ apply nth_error_None in E0. unfold len in Hl. lia. }
  rewrite Z.add_0_r in E0. rewrite Z.add_assoc.
  rewrite (nth_error_nth _ _ _ E0), (nth_error_nth _ _ _ E1). reflexivity.
Qed.

Lemma idx_run b i s t :
  slice_ok b -> len (buf s) = bufCap -> buf t = buf s -> 0 <= i < slen b ->
  idx b i t = Val (byteAt s b i) t.
Proof.
  intros (H0 & H1 & H2) Hl Hb Hi. unfold idx, byteAt, slen in *. rewrite Hb.
  destruct (Z.leb_spec 0 i); [|lia].
  destruct (Z.ltb_spec i (hi b - lo b)); [|lia]. simpl.
  destruct (nth_error (buf s) (Z.to_nat (lo b + i))) eqn:E.
  - rewrite (nth_error_nth _ _ _ E). reflexivity.
  - apply nth_error_None in E. unfold len in Hl. lia.
Qed.

Lemma Uint16_from_run b off s t :
  slice_ok b -> len (buf s) = bufCap -> buf t = buf s ->
  0 <= off -> off + 2 <= slen b ->
  Uint16_from b off t = Val (at16 s b off) t.
Proof.
  intros Hb Hl Ht Ho Hs.
  apply (Uint16_from_same_buf b off s t _ s Ht).
  apply Uint16_from_ok; assumption.
Qed.

Lemma bind_modify {B} (f : state -> state) (k : unit -> M B) s :
  bind (modify f) k s = k tt (f s).
Proof. reflexivity. Qed.

Lemma bind_gets {A B} (f : state -> A) (k : A -> M B) s :
  bind (gets f) k s = k (f s) s.
Proof. reflexivity. Qed.

Lemma bind_ret {A B} (a : A) (k : A -> M B) s : bind (ret a) k s = k a s.
Proof. reflexivity. Qed.

Lemma bind_assoc {A B D} (m : M A) (k : A -> M B) (j : B -> M D) s :
  bind (bind m k) j s = bind m (fun a => bind (k a) j) s.
Proof. unfold bind. destruct (m s); reflexivity. Qed.

(** ** Building and sending a command frame *)

Lemma copy_into_short (dst src : list byte) :
  (length src <= length dst)%nat -> copy_into dst src = src ++ skipn (length src) dst.
Proof.
  intros H. unfold copy_into. rewrite firstn_all2 by lia. reflexivity.
Qed.
Lemma encodeCommand_eq opcode params s :
  encodeCommand opcode params s =
  if 4 + len params <=? len (writebuf s)
  then Val (commandFrame opcode params)
           (set_writebuf (commandFrame opcode params
                          ++ skipn (4 + length params) (writebuf s)) s)
  else Panic.
Proof.
  unfold encodeCommand, bind, wb_set, wb_copy4, wb_prefix.
  pose proof (len_nonneg params) as Hn.
  assert (Hm : Z.to_nat (4 + len params) = (4 + length params)%nat) by (unfold len; lia).
  assert (Hm4 : 4 <= 4 + len params) by lia.
  remember (4 + len params) as m eqn:Em.
  remember (4 + length params)%nat as k eqn:Ek.
  unfold commandFrame.
  remember (byte_of (len params)) as bl.
  clear Em Hn.
  destruct s as [bf ps en wb ? ? ? ? ? ? ? ? ? ? ?].
  destruct wb as [|w0 [|w1 [|w2 [|w3 wb]]]]; unfold len, store; simpl.
  1-4: destruct (Z.leb_spec m 0); destruct (Z.leb_spec m 1); destruct (Z.leb_spec m 2); destruct (Z.leb_spec m 3); try lia; try reflexivity.
  unfold set_writebuf; simpl.
  assert (Hl : length (copy_into wb params) = length wb).
  { unfold copy_into. rewrite length_app, length_firstn, length_skipn. lia. }
  repeat (match goal with
          | |- context [?a <? ?b] => rewrite (proj2 (Z.ltb_lt a b)) by lia
          | |- context [4 <=? ?b] => rewrite (proj2 (Z.leb_le 4 b)) by lia
          | |- context [0 <=? ?b] => rewrite (proj2 (Z.leb_le 0 b)) by lia
          end; simpl).
  rewrite Hl.
  match goal with |- context [m <=? ?b] => destruct (Z.leb_spec m b) as [Hle|Hgt] end;
    [|reflexivity].
  assert (Hp : (length params <= length wb)%nat) by lia.
  rewrite Hm, Ek. simpl. rewrite (copy_into_short _ _ Hp).
  rewrite firstn_app, firstn_all, Nat.sub_diag, firstn_O, app_nil_r.
  reflexivity.
Qed.

Lemma sendWithoutResponse_eq C opcode params s :
  sendWithoutResponse C opcode params s =
  if 4 + len params <=? len (writebuf s) then
    match tr_write_err C (commandFrame opcode params) with
    | Some e => Val (Some (ErrExternal e)) (sent opcode params s)
    | None => Val None (noPending (sent opcode params s))
    end
  else Panic.
Proof.
  unfold sendWithoutResponse, bind. rewrite encodeCommand_eq.
  destruct (4 + len params <=? len (writebuf s)); [|reflexivity].
  unfold write, transport_Write, bind, log, modify, ret, ext. simpl.
  destruct (tr_write_err C (commandFrame opcode params)); reflexivity.
Qed.

Lemma sent_writebuf_len opcode params s :
  4 + len params <= len (writebuf s) ->
  len (writebuf (sent opcode params s)) = len (writebuf s).
Proof.
  unfold sent, len. intros H.
  cbn [writebuf set_trace set_writebuf].
  rewrite length_app, length_skipn. unfold commandFrame.
  rewrite length_app. cbn [length]. lia.
Qed.

(** ** The read of [poll] *)

Lemma aligned_spec (available : Z) :
  0 < available ->
  aligned available mod 4 = 0 /\ available <= aligned available < available + 4.
Proof.
  intros H. unfold aligned.
  rewrite (Z.rem_mod_nonneg available 4) by lia.
  pose proof (Z.mod_pos_bound available 4 ltac:(lia)) as Hb.
  rewrite (Z.rem_mod_nonneg (4 - available mod 4) 4) by lia.
  Z.div_mod_to_equations. lia.
Qed.

(** The read slice [h.buf[h.end : h.end+aligned]] is taken without a
    look at the capacity: past it, the slice expression panics. *)
Lemma pollRead_past_capacity C available s :
  0 < available -> bufCap < end_ s + aligned available ->
  pollRead C available s = Panic.
Proof.
  intros Ha Hc. unfold pollRead, bind, gets, sub, scap, hbuf, panic. simpl.
  destruct (Z.leb_spec (end_ s + aligned available) bufCap); [lia|].
  rewrite andb_false_r. reflexivity.
Qed.

(** Within the capacity the turn makes one read, of [aligned] bytes. *)
Lemma pollRead_in_capacity C available s r s' :
  pollRead C available s = Val r s' ->
  exists got,
    trace s' = trace s ++ [EvRead (aligned available) got] /\
    0 <= end_ s /\ end_ s + aligned available <= bufCap.
Proof.
  unfold pollRead. intros H.
  apply bind_Val in H as (e & s1 & He & H). unfold gets in He. inversion He; subst.
  apply bind_Val in H as (p & s2 & Hp & H).
  apply sub_Val in Hp as (-> & Hr & Hc & ->).
  apply bind_Val in H as ([n err] & s2 & Hrd & H).
  unfold transport_Read, slen, scap, hbuf in *. simpl in *.
  replace (end_ s1 + aligned available - end_ s1) with (aligned available) in Hrd by lia.
  destruct (tr_read_err C (aligned available)).
  - inversion Hrd; subst. simpl in H. inversion H; subst. simpl.
    eexists; split; [reflexivity|lia].
  - inversion Hrd; subst. simpl in H. inversion H; subst. simpl.
    eexists; split; [reflexivity|lia].
Qed.

(** [start], the other reader of the transport, clamps each request to
    its scratch array and so never leaves it. *)
Lemma startLoop_never_panics C fuel s : startLoop C fuel s <> Panic.
Proof.
  revert s. induction fuel as [|fuel IH]; intros s; simpl.
  - destruct (len (rx s) >? 0); discriminate.
  - destruct (len (rx s) >? 0); [|discriminate].
    destruct (tr_read_err C _); [discriminate|apply IH].
Qed.

(** ** The ACL demultiplexer *)

(** A reassembled frame is [h.buf[1:h.pos]] with [h.pos = 4+totalLen+1]:
    its length is the declared total length plus the four bytes of handle
    and total length.  When it holds the whole 8-byte header, the
    demultiplexer does what the length and channel fields say. *)
Lemma handleACLData_reassembled C b s :
  slice_ok b -> len (buf s) = bufCap ->
  slen b = 4 + at16 s b 2 -> 8 <= slen b ->
  let hd := at16 s b 0 in
  let ln := at16 s b 4 in
  let cid := at16 s b 6 in
  let payload := window (buf s) (mkSlice (lo b + 8) (lo b + (ln + 8))) in
  handleACLData C b s =
    if negb (at16 s b 2 =? ln + 4) then Val (Some ErrFragmented) s
    else if cid =? attCID then
      Val (ext (att_handleData C (Z.land hd 0x0fff) payload))
          (set_trace (trace s ++ [EvAttHandleData (Z.land hd 0x0fff) payload]) s)
    else if cid =? signalingCID then
      Val (ext (l2cap_handleData C (Z.land hd 0x0fff) payload))
          (set_trace (trace s ++ [EvL2capHandleData (Z.land hd 0x0fff) payload]) s)
    else Val None s.
Proof.
  intros Hb Hl Hre H8 hd ln cid payload.
  pose proof Hb as (Hb0 & Hb1 & Hb2).
  unfold handleACLData.
  rewrite (bind_run _ _ _ _ _ (Uint16_from_ok b 0 s Hb Hl ltac:(lia) ltac:(lia))).
  rewrite (bind_run _ _ _ _ _ (Uint16_from_ok b 2 s Hb Hl ltac:(lia) ltac:(lia))).
  rewrite (bind_run _ _ _ _ _ (Uint16_from_ok b 4 s Hb Hl ltac:(lia) ltac:(lia))).
  rewrite (bind_run _ _ _ _ _ (Uint16_from_ok b 6 s Hb Hl ltac:(lia) ltac:(lia))).
  fold hd ln cid.
  assert (Hd : 4 <= at16 s b 2) by lia.
  assert (Hln : 0 <= ln < 65536) by (apply le16_range).
  assert (Hw : wrap16 (at16 s b 2 - 4) = at16 s b 2 - 4).
  { unfold wrap16. apply Z.mod_small. pose proof (le16_range (byteAt s b 2) (byteAt s b (2 + 1))).
    unfold at16 in *. lia. }
  rewrite Hw.
  assert (Heq : (at16 s b 2 - 4 =? ln) = (at16 s b 2 =? ln + 4)).
  { destruct (Z.eqb_spec (at16 s b 2 - 4) ln), (Z.eqb_spec (at16 s b 2) (ln + 4));
      try reflexivity; exfalso; lia. }
  rewrite Heq.
  destruct (Z.eqb_spec (at16 s b 2) (ln + 4)) as [E'|E']; cbn [negb];
    [|reflexivity].
  assert (Hw8 : wrap16 (ln + 8) = ln + 8).
  { unfold wrap16. apply Z.mod_small. unfold slen, bufCap in *. lia. }
  rewrite Hw8.
  assert (Hs : sub b 8 (ln + 8) s = Val (mkSlice (lo b + 8) (lo b + (ln + 8))) s).
  { apply sub_ok; [lia|]. unfold scap, slen in *. lia. }
  destruct (cid =? attCID).
  - destruct (Z.shiftr (Z.land hd 61440) 12 =? 1);
      rewrite (bind_run _ _ _ _ _ Hs); reflexivity.
  - destruct (cid =? signalingCID); [|reflexivity].
    rewrite (bind_run _ _ _ _ _ Hs). reflexivity.
Qed.


(** ** Copies *)

Lemma copy_into_length (dst src : list byte) :
  length (copy_into dst src) = length dst.
Proof.
  unfold copy_into. rewrite length_app, length_firstn, length_skipn. lia.
Qed.

Lemma copy_into_idem (dst src : list byte) :
  copy_into (copy_into dst src) src = copy_into dst src.
Proof.
  unfold copy_into at 1. rewrite copy_into_length.
  unfold copy_into.
  destruct (Nat.le_gt_cases (length src) (length dst)) as [H|H].
  - rewrite (firstn_all2 src) by lia.
    rewrite skipn_app, skipn_all, Nat.sub_diag. reflexivity.
  - rewrite (skipn_all2 dst) by lia. rewrite !app_nil_r.
    rewrite skipn_all2 by (rewrite length_firstn; lia). apply app_nil_r.
Qed.

Lemma eir_store_idem (e : nat) (old eir : list byte) :
  copy_into (firstn e (copy_into (firstn e old) eir ++ skipn e old)) eir
    ++ skipn e (copy_into (firstn e old) eir ++ skipn e old)
  = copy_into (firstn e old) eir ++ skipn e old.
Proof.
  pose proof (copy_into_length (firstn e old) eir) as Hl.
  rewrite length_firstn in Hl.
  destruct (Nat.le_gt_cases e (length old)) as [H|H].
  - rewrite Nat.min_l in Hl by lia.
    rewrite firstn_app, Hl, Nat.sub_diag, firstn_O, app_nil_r.
    rewrite <- Hl at 1. rewrite firstn_all.
    rewrite skipn_app, Hl, Nat.sub_diag. cbn [skipn].
    rewrite <- Hl at 2. rewrite skipn_all. cbn [app].
    rewrite copy_into_idem. reflexivity.
  - rewrite Nat.min_r in Hl by lia.
    rewrite (skipn_all2 old) by lia. rewrite !app_nil_r.
    rewrite (firstn_all2 (copy_into (firstn e old) eir)) by lia.
    rewrite (skipn_all2 (copy_into (firstn e old) eir)) by lia.
    rewrite app_nil_r. apply copy_into_idem.
Qed.

(** ** Stepping through decoder code *)

(** Take the next action off a run [H : (x <- m ;; k) s = Val r s']. *)
Ltac inv_step H :=
  match type of H with
  | bind (idx ?b ?i) ?k ?s = Val _ _ =>
      let x := fresh "x" in let t := fresh "t" in let E := fresh "Ei" in
      apply bind_Val in H as (x & t & E & H);
      let Hs := fresh in
      pose proof (idx_Val _ _ _ _ _ E) as (Hs & ? & ?); subst t
  | bind (Uint16_from ?b ?i) ?k ?s = Val _ _ =>
      let x := fresh "v" in let t := fresh "t" in let E := fresh "Eu" in
      apply bind_Val in H as (x & t & E & H);
      let Hs := fresh in
      pose proof (Uint16_from_Val _ _ _ _ _ E) as (Hs & ? & ? & ?); subst t
  | bind (from ?b ?i) ?k ?s = Val _ _ =>
      let x := fresh "sl" in let t := fresh "t" in let E := fresh "Ef" in
      apply bind_Val in H as (x & t & E & H);
      let Hs := fresh in
      pose proof (from_Val _ _ _ _ _ E) as (Hs & ? & ?); subst t
  | bind (sub ?b ?i ?j) ?k ?s = Val _ _ =>
      let x := fresh "sl" in let t := fresh "t" in let E := fresh "Es" in
      apply bind_Val in H as (x & t & E & H);
      let Hs := fresh in
      pose proof (sub_Val _ _ _ _ _ _ E) as (Hs & ? & ? & ?); subst t
  | bind (modify ?f) ?k ?s = Val _ _ => rewrite bind_modify in H
  | bind (gets ?f) ?k ?s = Val _ _ => rewrite bind_gets in H
  | bind (ret ?a) ?k ?s = Val _ _ => rewrite bind_ret in H
  | bind (bind ?m ?j) ?k ?s = Val _ _ => rewrite bind_assoc in H
  end.

(** Replay in the goal an action whose run is among the hypotheses. *)
Ltac run_step :=
  match goal with
  | E : idx ?b ?i ?s = Val ?x ?s |- context [bind (idx ?b ?i) ?k ?t] =>
      rewrite (bind_run (idx b i) k t x t (idx_same_buf b i s t x s eq_refl E))
  | E : Uint16_from ?b ?i ?s = Val ?x ?s |- context [bind (Uint16_from ?b ?i) ?k ?t] =>
      rewrite (bind_run (Uint16_from b i) k t x t (Uint16_from_same_buf b i s t x s eq_refl E))
  | E : from ?b ?i ?s = Val ?x ?s |- context [bind (from ?b ?i) ?k ?t] =>
      rewrite (bind_run (from b i) k t x t (from_same b i s x s t E))
  | E : sub ?b ?i ?j ?s = Val ?x ?s |- context [bind (sub ?b ?i ?j) ?k ?t] =>
      rewrite (bind_run (sub b i j) k t x t (sub_same b i j s x s t E))
  | |- context [bind (modify ?f) ?k ?t] => rewrite bind_modify
  | |- context [bind (gets ?f) ?k ?t] => rewrite bind_gets
  | |- context [bind (ret ?a) ?k ?t] => rewrite bind_ret
  | |- context [bind (bind ?m ?j) ?k ?t] => rewrite bind_assoc
  end.

(** States are kept as explicit records and every update is computed
    at once, innermost first, so that terms stay small. *)
Ltac norm_in H :=
  cbv beta iota delta
   [noPending sent set_buf set_pos set_end set_writebuf
    set_cmdCompleteOpcode set_cmdCompleteStatus set_cmdResponse
    set_advData set_connectData set_pendingPkt set_rx set_trace set_now
    buf pos end_ writebuf cmdCompleteOpcode cmdCompleteStatus cmdResponse
    scanning advData connectData maxPkt pendingPkt rx trace now
    connected disconnected status handle role peerBdaddrType peerBdaddr
    interval timeout conn_connected conn_disconnected conn_status
    conn_handle conn_role conn_peerBdaddrType conn_peerBdaddr conn_interval
    conn_timeout reported numReports typ adv_peerBdaddrType adv_peerBdaddr
    eirLength eirData rssi adv_reported adv_numReports adv_typ
    adv_bdaddrType adv_bdaddr adv_eirLength adv_eirData adv_rssi] in H.

Ltac norm :=
  cbv beta iota delta
   [noPending sent set_buf set_pos set_end set_writebuf
    set_cmdCompleteOpcode set_cmdCompleteStatus set_cmdResponse
    set_advData set_connectData set_pendingPkt set_rx set_trace set_now
    buf pos end_ writebuf cmdCompleteOpcode cmdCompleteStatus cmdResponse
    scanning advData connectData maxPkt pendingPkt rx trace now
    connected disconnected status handle role peerBdaddrType peerBdaddr
    interval timeout conn_connected conn_disconnected conn_status
    conn_handle conn_role conn_peerBdaddrType conn_peerBdaddr conn_interval
    conn_timeout reported numReports typ adv_peerBdaddrType adv_peerBdaddr
    eirLength eirData rssi adv_reported adv_numReports adv_typ
    adv_bdaddrType adv_bdaddr adv_eirLength adv_eirData adv_rssi].

(** One action off a run, with the state brought back to normal form. *)
Ltac istep H := inv_step H; norm_in H.

(** Replay of a whole run in the goal. *)
Ltac replay :=
  repeat first
    [ run_step; norm
    | match goal with
      | Ec : ?c = _ |- context [if ?c then _ else _] => rewrite Ec
      | Ec : ?c = _ |- context [match ?c with Some _ => _ | None => _ end] =>
          rewrite Ec
      end
    | progress cbv iota ].

Ltac same_decoded :=
  unfold decoded; norm; rewrite ?copy_into_idem, ?eir_store_idem; reflexivity.

(** Split a run at the test it stands on. *)
Ltac ibranch H :=
  match type of H with
  | bind (if ?c then _ else _) _ _ = _ => destruct c eqn:?
  | (if ?c then _ else _) _ = _ => destruct c eqn:?
  end.

Ltac open_state s :=
  destruct s as [bf ps en wb co cs cr sc ad cd mp pp rxs tr nw];
  destruct ad as [a_rep a_num a_typ a_bty a_bd a_len a_eir a_rssi];
  destruct cd as [c_con c_dis c_st c_hd c_role c_bty c_bd c_itv c_tmo].

(** ** The event decoder, case by case

    Each lemma takes a run of one case apart: what it answers, that it
    leaves the packet buffer and the credit alone (or not), what it does
    to the completion slot, and that the run is settled. *)

Lemma onCmdStatus_run b s r s1 :
  onCmdStatus b s = Val r s1 ->
  r = None /\ buf s1 = buf s /\ pendingPkt s1 = pendingPkt s /\
  6 <= slen b /\ cmdCompleteOpcode s1 = at16 s b 4 /\
  settled (onCmdStatus b) r s1.
Proof.
  unfold onCmdStatus. intros H. open_state s.
  repeat istep H.
  inversion H; subst r s1; clear H.
  repeat split; try reflexivity; try lia.
  { subst v. reflexivity. }
  eexists. split; [replay; reflexivity|same_decoded].
Qed.

Lemma onCmdComplete_run b plen s r s1 :
  onCmdComplete b plen s = Val r s1 ->
  r = None /\ buf s1 = buf s /\ pendingPkt s1 = pendingPkt s /\
  6 <= slen b /\ cmdCompleteOpcode s1 = at16 s b 3 /\
  settled (onCmdComplete b plen) r s1.
Proof.
  unfold onCmdComplete. intros H. open_state s.
  repeat istep H.
  destruct (plen >? 0) eqn:Ep; repeat istep H;
    inversion H; subst r s1; clear H;
    (repeat split; try reflexivity; try lia;
     [ subst v; reflexivity
     | eexists; split; [replay; reflexivity|same_decoded]]).
Qed.

Lemma sent_len opcode params (w : list byte) :
  4 + len params <= len w ->
  len (commandFrame opcode params ++ skipn (4 + length params) w) = len w.
Proof.
  unfold len, commandFrame. intros H.
  rewrite !length_app, length_skipn. cbn [length]. lia.
Qed.

Lemma sendWithoutResponse_Val C opcode params s r s1 :
  sendWithoutResponse C opcode params s = Val r s1 ->
  4 + len params <= len (writebuf s) /\
  r = ext (tr_write_err C (commandFrame opcode params)) /\
  s1 = match r with
       | None => noPending (sent opcode params s)
       | Some _ => sent opcode params s
       end.
Proof.
  rewrite sendWithoutResponse_eq.
  destruct (Z.leb_spec (4 + len params) (len (writebuf s))); [|discriminate].
  destruct (tr_write_err C (commandFrame opcode params)) eqn:E;
    intros H'; inversion H'; subst; auto.
Qed.

Lemma sendWithoutResponse_again C opcode params (n : Z) t :
  4 + len params <= n ->
  len (writebuf t) = n ->
  sendWithoutResponse C opcode params t =
  Val (ext (tr_write_err C (commandFrame opcode params)))
      match ext (tr_write_err C (commandFrame opcode params)) with
      | None => noPending (sent opcode params t)
      | Some _ => sent opcode params t
      end.
Proof.
  intros H Ht. rewrite sendWithoutResponse_eq, Ht.
  destruct (Z.leb_spec (4 + len params) n); [|lia].
  destruct (tr_write_err C (commandFrame opcode params)); reflexivity.
Qed.

Lemma ext_not_unknown (o : option nat) : ext o <> Some ErrHCIUnknownEvent.
Proof. destruct o; discriminate. Qed.

(** The two outcomes of the write inside a send. *)
Ltac send_cases Hr Hs Ew :=
  match type of Hr with
  | ?r = ext (tr_write_err ?C ?f) =>
      subst r; destruct (tr_write_err C f) eqn:Ew; cbn [ext option_map] in Hs;
      match type of Hs with ?s1 = _ => subst s1 end
  end.

(** The send at the end of a replayed run. *)
Ltac after_send Hl Ew :=
  match type of Hl with
  | _ <= ?n =>
      match goal with
      | |- sendWithoutResponse ?C ?op ?params ?t = _ =>
          rewrite (sendWithoutResponse_again C op params n t Hl)
            by (norm; first [reflexivity | apply sent_len; exact Hl]);
          rewrite Ew; reflexivity
      end
  end.

Ltac send_tail H :=
  let Hl := fresh "Hl" in let Hr := fresh "Hr" in let Hs := fresh "Hs" in
  let Ew := fresh "Ew" in
  apply sendWithoutResponse_Val in H as (Hl & Hr & Hs); norm_in Hl;
  send_cases Hr Hs Ew;
  [ split; [discriminate|]; split; [reflexivity|]; split; [reflexivity|];
    split; [left; reflexivity|];
    unfold settled; norm; eexists; split; [replay; after_send Hl Ew|same_decoded]
  | split; [discriminate|]; split; [reflexivity|]; split; [reflexivity|];
    split; [right; reflexivity|];
    unfold settled; norm; eexists; split; [replay; after_send Hl Ew|same_decoded] ].

Lemma onDisconnComplete_run C b s r s1 :
  onDisconnComplete C b s = Val r s1 ->
  r <> Some ErrHCIUnknownEvent /\ buf s1 = buf s /\ pendingPkt s1 = pendingPkt s /\
  slotKept s s1 /\ settled (onDisconnComplete C b) r s1.
Proof.
  unfold onDisconnComplete, log, upd_conn, leSetAdvertiseEnable. intros H.
  open_state s.
  repeat istep H.
  send_tail H.
Qed.

Lemma onRemoteConnParamReq_run C b s r s1 :
  onRemoteConnParamReq C b s = Val r s1 ->
  r <> Some ErrHCIUnknownEvent /\ buf s1 = buf s /\ pendingPkt s1 = pendingPkt s /\
  slotKept s s1 /\ settled (onRemoteConnParamReq C b) r s1.
Proof.
  unfold onRemoteConnParamReq. intros H. open_state s.
  repeat istep H.
  send_tail H.
Qed.

Lemma onConnComplete_run C b s r s1 :
  onConnComplete C b s = Val r s1 ->
  r <> Some ErrHCIUnknownEvent /\ buf s1 = buf s /\ pendingPkt s1 = pendingPkt s /\
  slotKept s s1 /\ settled (onConnComplete C b) r s1.
Proof.
  unfold onConnComplete, log, upd_conn, leSetAdvertiseEnable. intros H.
  open_state s.
  repeat istep H.
  ibranch H; [|ibranch H]; repeat istep H;
    match type of H with
    | context [l2cap_addConnection ?C ?a1 ?a2 ?a3 ?a4] =>
        destruct (l2cap_addConnection C a1 a2 a3 a4) eqn:El
    end.
  1,3,5: (inversion H; subst r s1; clear H;
          split; [discriminate|]; split; [reflexivity|]; split; [reflexivity|];
          split; [left; reflexivity|];
          unfold settled; norm; eexists; split;
          [replay; rewrite ?copy_into_idem; replay; reflexivity|same_decoded]).
  all: send_tail H.
Qed.

Lemma onAdvertisingReport_run b s r s1 :
  onAdvertisingReport b s = Val r s1 ->
  r <> Some ErrHCIUnknownEvent /\ buf s1 = buf s /\ pendingPkt s1 = pendingPkt s /\
  slotKept s s1 /\ settled (onAdvertisingReport b) r s1.
Proof.
  unfold onAdvertisingReport, upd_adv. intros H.
  open_state s.
  repeat istep H.
  ibranch H.
  - inversion H; subst r s1; clear H.
    split; [discriminate|]. split; [reflexivity|]. split; [reflexivity|].
    split; [left; reflexivity|].
    unfold settled; norm; eexists; split;
      [replay; rewrite ?copy_into_idem; replay; reflexivity|same_decoded].
  - repeat istep H. ibranch H; repeat istep H;
      inversion H; subst r s1; clear H;
      (split; [discriminate|]; split; [reflexivity|]; split; [reflexivity|];
       split; [left; reflexivity|];
       unfold settled; norm; eexists; split;
       [replay; rewrite ?copy_into_idem; replay; reflexivity|same_decoded]).
Qed.

Lemma sumCompPkts_run n b i pkts s v s1 :
  sumCompPkts n b i pkts s = Val v s1 ->
  s1 = s /\ forall t, buf t = buf s -> sumCompPkts n b i pkts t = Val v t.
Proof.
  revert i pkts. induction n as [|n IH]; intros i pkts H; cbn [sumCompPkts] in *.
  - inversion H; subst. split; [reflexivity|]. intros; reflexivity.
  - apply bind_Val in H as (x & t & E & H).
    pose proof (Uint16_from_Val _ _ _ _ _ E) as (-> & _).
    apply IH in H as (-> & Hr). split; [reflexivity|].
    intros u Hu.
    rewrite (bind_run _ _ _ _ _ (Uint16_from_same_buf _ _ _ u _ _ Hu E)).
    apply Hr. exact Hu.
Qed.

Lemma onNumCompPkts_run b s r s1 :
  onNumCompPkts b s = Val r s1 ->
  r = None /\ buf s1 = buf s /\ cmdCompleteOpcode s1 = cmdCompleteOpcode s /\
  settled (onNumCompPkts b) r s1.
Proof.
  unfold onNumCompPkts. intros H. open_state s.
  repeat istep H.
  apply bind_Val in H as (pk & t & Es & H).
  apply sumCompPkts_run in Es as (-> & Hr).
  repeat istep H.
  inversion H; subst r s1; clear H.
  destruct ((pk >? 0) && (pp >? pk)) eqn:Ec.
  all: split; [reflexivity|]; split; [reflexivity|]; split; [reflexivity|].
  all: unfold settled; eexists; split;
    [ replay;
      match goal with
      | |- context [bind (sumCompPkts ?n ?b0 ?i ?p) ?k ?t] =>
          rewrite (bind_run (sumCompPkts n b0 i p) k t pk t (Hr t eq_refl))
      end;
      replay; reflexivity
    | unfold decoded; norm;
      match goal with |- context [if ?c then _ else _] => destruct c end;
      reflexivity ].
Qed.

Lemma settled_after_idx b i (k : byte -> M error) s x r s1 :
  idx b i s = Val x s -> buf s1 = buf s ->
  settled (k x) r s1 -> settled (bind (idx b i) k) r s1.
Proof.
  intros E Hb (s2 & H2 & Hd). exists s2. split; [|exact Hd].
  rewrite (bind_run _ _ _ _ _ (idx_same_buf b i s s1 x s Hb E)). exact H2.
Qed.

Lemma settled_ret r s1 : settled (ret r) r s1.
Proof. exists s1. split; reflexivity. Qed.

Lemma slotKept_refl s : slotKept s s.
Proof. left; reflexivity. Qed.

Lemma onLEMetaEvent_run C b s r s1 :
  onLEMetaEvent C b s = Val r s1 ->
  3 <= slen b /\
  buf s1 = buf s /\ pendingPkt s1 = pendingPkt s /\ slotKept s s1 /\
  settled (onLEMetaEvent C b) r s1 /\
  (r = Some ErrHCIUnknownEvent <-> knownSubevent (at_ s b 2) = false) /\
  (knownSubevent (at_ s b 2) = false -> advData s1 = clearedAdv).
Proof.
  unfold onLEMetaEvent. intros H.
  apply bind_Val in H as (x & t & E & H).
  pose proof (idx_Val _ _ _ _ _ E) as (-> & Hi & Hx).
  cbv zeta in H. unfold knownSubevent. rewrite <- Hx.
  split; [lia|].
  destruct ((u8 x =? leMetaEventConnComplete)
            || (u8 x =? leMetaEventEnhancedConnectionComplete)) eqn:E1.
  { apply onConnComplete_run in H as (Hr & Hb & Hp & Hk & Hs).
    repeat split; auto.
    - apply (settled_after_idx b 2 _ s x r s1 E Hb). cbv zeta. rewrite E1. exact Hs.
    - intros ->. contradiction.
    - discriminate.
    - discriminate. }
  destruct (u8 x =? leMetaEventAdvertisingReport) eqn:E2.
  { apply onAdvertisingReport_run in H as (Hr & Hb & Hp & Hk & Hs).
    repeat split; auto.
    - apply (settled_after_idx b 2 _ s x r s1 E Hb). cbv zeta. rewrite E1, E2. exact Hs.
    - intros ->. contradiction.
    - discriminate.
    - discriminate. }
  destruct (u8 x =? leMetaEventRemoteConnParamReq) eqn:E3.
  { apply onRemoteConnParamReq_run in H as (Hr & Hb & Hp & Hk & Hs).
    repeat split; auto.
    - apply (settled_after_idx b 2 _ s x r s1 E Hb). cbv zeta. rewrite E1, E2, E3. exact Hs.
    - intros ->. contradiction.
    - discriminate.
    - discriminate. }
  destruct (observedOnly (u8 x)) eqn:E4.
  { inversion H; subst r s1; clear H.
    repeat split; auto using slotKept_refl.
    - apply (settled_after_idx b 2 _ s x None s E eq_refl). cbv zeta.
      rewrite E1, E2, E3, E4. apply settled_ret.
    - discriminate.
    - discriminate.
    - discriminate. }
  cbn [orb]. unfold clearAdvData, upd_adv in H.
  repeat inv_step H. inversion H; subst r s1; clear H.
  split; [reflexivity|]. split; [reflexivity|]. split; [left; reflexivity|].
  split; [|split; [split; reflexivity|reflexivity]].
  apply (settled_after_idx b 2 _ s x (Some ErrHCIUnknownEvent)
           (set_advData clearedAdv s) E eq_refl). cbv zeta.
  rewrite E1, E2, E3, E4. unfold clearAdvData, upd_adv.
  eexists. split; [repeat run_step; reflexivity|reflexivity].
Qed.

(** The whole decoder: one run, taken apart. *)
Lemma handleEventData_run C b s r s1 :
  handleEventData C b s = Val r s1 ->
  2 <= slen b /\ buf s1 = buf s /\
  settled (handleEventData C b) r s1 /\
  (at_ s b 0 <> evtNumCompPkts -> pendingPkt s1 = pendingPkt s) /\
  (r = Some ErrHCIUnknownEvent <->
     at_ s b 0 = evtHardwareError \/
     (at_ s b 0 = evtLEMetaEvent /\ knownSubevent (at_ s b 2) = false)) /\
  (at_ s b 0 = evtLEMetaEvent -> knownSubevent (at_ s b 2) = false ->
     advData s1 = clearedAdv) /\
  (at_ s b 0 = evtCmdComplete -> cmdCompleteOpcode s1 = at16 s b 3) /\
  (at_ s b 0 = evtCmdStatus -> cmdCompleteOpcode s1 = at16 s b 4) /\
  (at_ s b 0 <> evtCmdComplete -> at_ s b 0 <> evtCmdStatus -> slotKept s s1) /\
  (at_ s b 0 = evtLEMetaEvent -> 3 <= slen b).
Proof.
  unfold handleEventData. intros H.
  apply bind_Val in H as (x & t & E0 & H).
  pose proof (idx_Val _ _ _ _ _ E0) as (-> & Hi0 & Hx).
  apply bind_Val in H as (y & t & E1 & H).
  pose proof (idx_Val _ _ _ _ _ E1) as (-> & Hi1 & Hy).
  cbv zeta in H. rewrite <- Hx.
  split; [lia|].
  assert (Hlift : forall r' s', buf s' = buf s ->
            settled (if u8 x =? evtDisconnComplete then onDisconnComplete C b
                     else if u8 x =? evtEncryptionChange then ret None
                     else if u8 x =? evtCmdComplete then onCmdComplete b (u8 y)
                     else if u8 x =? evtCmdStatus then onCmdStatus b
                     else if u8 x =? evtNumCompPkts then onNumCompPkts b
                     else if u8 x =? evtLEMetaEvent then onLEMetaEvent C b
                     else if u8 x =? evtHardwareError then ret (Some ErrHCIUnknownEvent)
                     else ret None) r' s' ->
            settled (e <- idx b 0 ;; pl <- idx b 1 ;;
                     let evt := u8 e in let plen := u8 pl in
                     if evt =? evtDisconnComplete then onDisconnComplete C b
                     else if evt =? evtEncryptionChange then ret None
                     else if evt =? evtCmdComplete then onCmdComplete b plen
                     else if evt =? evtCmdStatus then onCmdStatus b
                     else if evt =? evtNumCompPkts then onNumCompPkts b
                     else if evt =? evtLEMetaEvent then onLEMetaEvent C b
                     else if evt =? evtHardwareError then ret (Some ErrHCIUnknownEvent)
                     else ret None) r' s').
  { intros r' s' Hb Hs.
    apply (settled_after_idx b 0 _ s x r' s' E0 Hb).
    apply (settled_after_idx b 1 _ s y r' s' E1 Hb). exact Hs. }
  unfold evtDisconnComplete, evtEncryptionChange, evtCmdComplete, evtCmdStatus,
    evtNumCompPkts, evtLEMetaEvent, evtHardwareError in *.
  destruct (Z.eqb_spec (u8 x) 5) as [e5|n5].
  { apply onDisconnComplete_run in H as (Hr & Hb & Hp & Hk & Hs).
    split; [exact Hb|]. split; [apply Hlift; assumption|]. split; [auto|].
    split; [split; [intros ->; contradiction|intros [?|[? _]]; lia]|].
    split; [intros; lia|]. repeat split; intros; try lia; try assumption; try apply slotKept_refl. }
  destruct (Z.eqb_spec (u8 x) 8) as [e8|n8].
  { inversion H; subst r s1; clear H.
    split; [reflexivity|]. split; [apply Hlift; [reflexivity|apply settled_ret]|].
    split; [auto|].
    split; [split; [discriminate|intros [?|[? _]]; lia]|].
    split; [intros; lia|]. repeat split; intros; try lia; try assumption; try apply slotKept_refl. }
  destruct (Z.eqb_spec (u8 x) 14) as [e14|n14].
  { apply onCmdComplete_run in H as (Hr & Hb & Hp & Hl & Ho & Hs).
    split; [exact Hb|]. split; [apply Hlift; assumption|]. split; [auto|].
    split; [split; [intros ->; discriminate|intros [?|[? _]]; lia]|].
    split; [intros; lia|]. repeat split; intros; try lia; try assumption; try apply slotKept_refl. }
  destruct (Z.eqb_spec (u8 x) 15) as [e15|n15].
  { apply onCmdStatus_run in H as (Hr & Hb & Hp & Hl & Ho & Hs).
    split; [exact Hb|]. split; [apply Hlift; assumption|]. split; [auto|].
    split; [split; [intros ->; discriminate|intros [?|[? _]]; lia]|].
    split; [intros; lia|]. repeat split; intros; try lia; try assumption; try apply slotKept_refl. }
  destruct (Z.eqb_spec (u8 x) 19) as [e19|n19].
  { apply onNumCompPkts_run in H as (Hr & Hb & Ho & Hs).
    split; [exact Hb|]. split; [apply Hlift; assumption|].
    split; [intros; lia|].
    split; [split; [intros ->; discriminate|intros [?|[? _]]; lia]|].
    split; [intros; lia|]. repeat split; intros; try lia; left; exact Ho. }
  destruct (Z.eqb_spec (u8 x) 62) as [e62|n62].
  { apply onLEMetaEvent_run in H as (H3 & Hb & Hp & Hk & Hs & Hu & Ha).
    split; [exact Hb|]. split; [apply Hlift; assumption|]. split; [auto|].
    split; [split; [intros Hr; right; split; [exact e62|apply Hu, Hr]
                   |intros [?|[_ ?]]; [lia|apply Hu; assumption]]|].
    split; [intros _; exact Ha|]. repeat split; intros; try lia; try assumption; try apply slotKept_refl. }
  destruct (Z.eqb_spec (u8 x) 16) as [e16|n16].
  { inversion H; subst r s1; clear H.
    split; [reflexivity|]. split; [apply Hlift; [reflexivity|apply settled_ret]|].
    split; [auto|].
    split; [split; [left; exact e16|reflexivity]|].
    split; [intros; lia|]. repeat split; intros; try lia; try assumption; try apply slotKept_refl. }
  inversion H; subst r s1; clear H.
  split; [reflexivity|]. split; [apply Hlift; [reflexivity|apply settled_ret]|].
  split; [auto|].
  split; [split; [discriminate|intros [?|[? _]]; lia]|].
  split; [intros; lia|]. repeat split; intros; try lia; try assumption; try apply slotKept_refl.
Qed.

(** ** C1: the read of the poll loop *)

(** C1 (the code does not keep the promise).  The claim says the read
    slice [buf[end:end+aligned]] always lies within the 256-byte buffer.
    With 257 bytes waiting in the transport of a fresh engine, [aligned] is
    260 and the slice expression [h.buf[0:260]] panics. *)
Theorem poll_read_past_capacity :
  aligned 257 = 260 /\
  poll quiet (newHCI (zeros 257) 0) = Panic.
Proof. split; vm_compute; reflexivity. Qed.

(** The same with no single read above 128 bytes: an ACL frame that
    announces 0xFFFF bytes is never complete, the fill level only grows,
    and the read of the third call starts at 256. *)
Lemma poll_read_past_capacity_stepwise :
  (poll quiet ;; worldTurn (mkTick 0 (zeros 128)) ;;
   poll quiet ;; worldTurn (mkTick 0 [x00]) ;;
   poll quiet) (newHCI (oversizedACL 123) 0) = Panic.
Proof. vm_compute. reflexivity. Qed.

(** ** C4: the timeout *)

(** The test [(now-start)/second > 3] holds from four seconds on. *)
Lemma timeout_threshold (start n : Z) :
  start <= n ->
  (Z.quot (n - start) second >? 3) = true <-> 4 * second <= n - start.
Proof.
  intros H. unfold second.
  rewrite Z.quot_div_nonneg by lia.
  rewrite Z.gtb_ltb, Z.ltb_lt.
  pose proof (Z.div_mod (n - start) 1000000000 ltac:(lia)).
  pose proof (Z.mod_pos_bound (n - start) 1000000000 ltac:(lia)).
  split; intros; nia.
Qed.

(** C4 (the code does not keep the promise).  The claim says a call
    with no matching completion within 3 seconds fails with Timeout.
    Here Reset is sent, the transport stays silent for 3.5 seconds, then
    the completion arrives: the call returns success, at 3.505 s. *)
Theorem no_timeout_after_three_seconds :
  let run := reset quiet [mkTick 3500000000 []; mkTick 0 resetComplete] (newHCI [] 0) in
  answer run = Some None /\ after run now = Some 3505000000.
Proof. cbv zeta. split; vm_compute; reflexivity. Qed.

(** With four seconds of silence the call does fail with Timeout, and the
    next Reset, answered at once, completes: the engine is ready again. *)
Lemma timeout_then_ready :
  let run :=
    (e1 <- reset quiet [mkTick 4000000000 []] ;;
     e2 <- reset quiet [mkTick 0 resetComplete] ;;
     ret (e1, e2)) (newHCI [] 0) in
  answer run = Some (Some ErrHCITimeout, None) /\
  after run cmdCompleteOpcode = Some opReset /\
  after run cmdCompleteStatus = Some 0.
Proof. cbv zeta. repeat split; vm_compute; reflexivity. Qed.

(** ** C7: Reset and its completion *)



(** ** C10 and C3: the wait for a completion *)

Lemma waitLoop_done C script opcode start s :
  cmdCompleteOpcode s = opcode -> waitLoop C script opcode start s = Val None s.
Proof.
  intros H. destruct script; cbn [waitLoop]; rewrite H, Z.eqb_refl; reflexivity.
Qed.

Lemma sendCommandWithParams_eq C script opcode params s :
  sendCommandWithParams C script opcode params s =
  if 4 + len params <=? len (writebuf s) then
    match tr_write_err C (commandFrame opcode params) with
    | Some e => Val (Some (ErrExternal e)) (sent opcode params s)
    | None => waitLoop C script opcode (now s) (noPending (sent opcode params s))
    end
  else Panic.
Proof.
  unfold sendCommandWithParams, bind. rewrite encodeCommand_eq.
  destruct (4 + len params <=? len (writebuf s)); [|reflexivity].
  unfold write, transport_Write, bind, log, modify, ret, ext. simpl.
  destruct (tr_write_err C (commandFrame opcode params)); reflexivity.
Qed.

(** C10.  A blocking send with opcode 0xFFFF, the "no command pending"
    sentinel, returns success as soon as the frame is written, whatever
    the world would do next ([script]): the Framer is not driven (cursor,
    fill level, packet buffer and the bytes waiting in the transport are
    untouched, the clock has not moved) and the only call made is the
    write of the frame. *)
Theorem sentinel_opcode_returns_at_once C script params s :
  buffers_ok s -> len params <= 251 ->
  tr_write_err C (commandFrame 0xffff params) = None ->
  let s1 := noPending (sent 0xffff params s) in
  sendCommandWithParams C script 0xffff params s = Val None s1 /\
  trace s1 = trace s ++ [EvWrite (commandFrame 0xffff params)] /\
  rx s1 = rx s /\ buf s1 = buf s /\ pos s1 = pos s /\ end_ s1 = end_ s /\
  now s1 = now s /\ cmdCompleteOpcode s1 = 0xffff /\ cmdCompleteStatus s1 = 0xff.
Proof.
  intros (_ & Hw) Hp Hwr s1. split; [|repeat split].
  rewrite sendCommandWithParams_eq, Hwr.
  destruct (Z.leb_spec (4 + len params) (len (writebuf s))) as [_|Hlt].
  - apply waitLoop_done. reflexivity.
  - unfold bufCap in Hw. lia.
Qed.

Lemma sentinel_opcode_returns_at_once_witness :
  let s := newHCI [] 0 in
  let s1 := noPending (sent 0xffff [xaa] s) in
  sendCommandWithParams quiet [] 0xffff [xaa] s = Val None s1 /\
  trace s1 = trace s ++ [EvWrite (commandFrame 0xffff [xaa])] /\
  rx s1 = rx s /\ buf s1 = buf s /\ pos s1 = pos s /\ end_ s1 = end_ s /\
  now s1 = now s /\ cmdCompleteOpcode s1 = 0xffff /\ cmdCompleteStatus s1 = 0xff.
Proof.
  apply (sentinel_opcode_returns_at_once quiet [] [xaa] (newHCI [] 0)).
  - split; vm_compute; reflexivity.
  - vm_compute. discriminate.
  - reflexivity.
Defined.

Lemma waitLoop_success C script opcode start s s1 :
  waitLoop C script opcode start s = Val None s1 -> cmdCompleteOpcode s1 = opcode.
Proof.
  revert s. induction script as [|t script IH]; intros s; cbn [waitLoop].
  - destruct (Z.eqb_spec (cmdCompleteOpcode s) opcode) as [E|E]; cbn [negb];
      [intros H; inversion H; congruence|discriminate].
  - destruct (Z.eqb_spec (cmdCompleteOpcode s) opcode) as [E|E]; cbn [negb];
      [intros H; inversion H; congruence|].
    intros H.
    apply bind_Val in H as (u & s2 & _ & H).
    apply bind_Val in H as (err & s3 & _ & H).
    destruct err as [e|]; [inversion H|].
    rewrite bind_gets in H.
    destruct (Z.quot (now s3 - start) second >? 3); [inversion H|].
    apply IH in H. exact H.
Qed.

(** A blocking send that returns nil leaves its opcode in the completion
    slot: the loop has no other way out with success. *)
Lemma command_success_slot C script X params s s1 :
  sendCommandWithParams C script X params s = Val None s1 ->
  cmdCompleteOpcode s1 = X.
Proof.
  intros H. rewrite sendCommandWithParams_eq in H.
  destruct (4 + len params <=? len (writebuf s)); [|discriminate].
  destruct (tr_write_err C (commandFrame X params)); [discriminate|].
  apply waitLoop_success in H. exact H.
Qed.

(** A complete CommandStatus event for another opcode leaves the call
    waiting.  After a first Reset, a second Reset is answered by the
    whole frame 04 0F 04 st n 03 20, which carries opcode 0x2003: the slot
    takes 0x2003 and the call waits on, until the timeout. *)
Lemma other_opcode_keeps_waiting (st1 n1 st2 n2 : byte) :
  let first := [x04; x0f; x04; st1; n1; x03; x0c] in
  let other := [x04; x0f; x04; st2; n2; x03; x20] in
  let run :=
    (reset quiet [mkTick 0 first] ;;
     reset quiet [mkTick 0 other; mkTick (4 * second) []]) (newHCI [] 0) in
  answer run = Some (Some ErrHCITimeout) /\
  after run cmdCompleteOpcode = Some 0x2003.
Proof. cbv zeta. repeat split; vm_compute; reflexivity. Qed.

(** C3 fails in the code: a command is unblocked by an event that was
    not received.  C3 says that the call for opcode X returns success
    only once a CommandComplete or CommandStatus event carrying X was
    recorded, and that an event with another opcode leaves it waiting.
    The framer asks for more data only while [end < 2 + plen], one byte
    short of the [3 + plen] bytes it hands to the decoder.  A first Reset
    (opcode 0x0C03) is completed by the CommandStatus frame
    04 0F 04 st1 n1 03 0C, which stays in the packet buffer.  A second
    Reset is sent and six bytes of the next event arrive,
    04 0F 04 st2 n2 03; its seventh byte, the high byte of the opcode,
    is still on its way ([late], in a later tick).  The framer dispatches
    at once, the decoder reads the missing byte from [h.buf[6]], where
    0x0C of the first frame still lies, and the call returns nil with
    0x0C03 in the slot: all that was read during the call are the six
    bytes, and the outcome is the same whatever the last byte turns out
    to be, so also when the event carries another opcode. *)
Theorem stale_byte_completes_command (st1 n1 st2 n2 late : byte)
    (d : Z) (rest : list tick) :
  let first := [x04; x0f; x04; st1; n1; x03; x0c] in
  let head := [x04; x0f; x04; st2; n2; x03] in
  let run :=
    (reset quiet [mkTick 0 first] ;;
     reset quiet (mkTick 0 head :: mkTick d [late] :: rest)) (newHCI [] 0) in
  answer (reset quiet [mkTick 0 first] (newHCI [] 0)) = Some None /\
  answer run = Some None /\
  after run cmdCompleteOpcode = Some opReset /\
  after run cmdCompleteStatus = Some (u8 st2) /\
  after run trace =
    Some [EvWrite [x01; x03; x0c; x00]; EvRead 8 first;
          EvWrite [x01; x03; x0c; x00]; EvRead 8 head] /\
  after run (fun t => (pos t, end_ t, rx t)) = Some (0, 0, []) /\
  after run now = Some (10 * millisecond).
Proof. cbv zeta. repeat split; vm_compute; reflexivity. Qed.

(** ** C9: the same frame, fed twice *)




(** ** C8: UnknownEvent *)

Lemma handleEventData_head C b s :
  slice_ok b -> len (buf s) = bufCap -> 2 <= slen b ->
  handleEventData C b s =
    (let evt := at_ s b 0 in
     let plen := at_ s b 1 in
     if evt =? evtDisconnComplete then onDisconnComplete C b
     else if evt =? evtEncryptionChange then ret None
     else if evt =? evtCmdComplete then onCmdComplete b plen
     else if evt =? evtCmdStatus then onCmdStatus b
     else if evt =? evtNumCompPkts then onNumCompPkts b
     else if evt =? evtLEMetaEvent then onLEMetaEvent C b
     else if evt =? evtHardwareError then ret (Some ErrHCIUnknownEvent)
     else ret None) s.
Proof.
  intros Hb Hl H2. unfold handleEventData.
  rewrite (bind_run _ _ _ _ _ (idx_run b 0 s s Hb Hl eq_refl ltac:(lia))).
  rewrite (bind_run _ _ _ _ _ (idx_run b 1 s s Hb Hl eq_refl ltac:(lia))).
  reflexivity.
Qed.

(** C8, amended.  For a frame of at least two bytes, the decoder fails
    with UnknownEvent exactly for a HardwareError event and for an LE
    meta-event whose sub-event has no case; in the latter case the
    advertising slot is cleared first.  An event code that has no case at
    all is accepted: the decoder returns success and changes nothing. *)
Theorem unknownEvent_exactly C b s :
  slice_ok b -> len (buf s) = bufCap -> 2 <= slen b ->
  let evt := at_ s b 0 in
  let unknown :=
    evt = evtHardwareError \/
    (evt = evtLEMetaEvent /\ 3 <= slen b /\ knownSubevent (at_ s b 2) = false) in
  ((exists s1, handleEventData C b s = Val (Some ErrHCIUnknownEvent) s1) <-> unknown) /\
  (evt = evtLEMetaEvent -> 3 <= slen b -> knownSubevent (at_ s b 2) = false ->
   handleEventData C b s = Val (Some ErrHCIUnknownEvent) (set_advData clearedAdv s)) /\
  (evt <> evtDisconnComplete -> evt <> evtEncryptionChange ->
   evt <> evtCmdComplete -> evt <> evtCmdStatus -> evt <> evtNumCompPkts ->
   evt <> evtLEMetaEvent -> evt <> evtHardwareError ->
   handleEventData C b s = Val None s).
Proof.
  intros Hb Hl H2 evt unknown.
  assert (Hmeta : evt = evtLEMetaEvent -> 3 <= slen b ->
                  knownSubevent (at_ s b 2) = false ->
                  handleEventData C b s =
                  Val (Some ErrHCIUnknownEvent) (set_advData clearedAdv s)).
  { intros He H3 Hk. rewrite (handleEventData_head C b s Hb Hl H2).
    cbv zeta. fold evt. rewrite He. cbn [Z.eqb evtLEMetaEvent evtDisconnComplete
      evtEncryptionChange evtCmdComplete evtCmdStatus evtNumCompPkts Pos.eqb].
    unfold onLEMetaEvent.
    rewrite (bind_run _ _ _ _ _ (idx_run b 2 s s Hb Hl eq_refl ltac:(lia))).
    cbv zeta. change (u8 (byteAt s b 2)) with (at_ s b 2).
    unfold knownSubevent in Hk.
    apply orb_false_elim in Hk as (Hk & Hk4).
    apply orb_false_elim in Hk as (Hk & Hk3).
    apply orb_false_elim in Hk as (Hk1 & Hk2).
    rewrite Hk1, Hk2, Hk3, Hk4. reflexivity. }
  split; [split|split; [exact Hmeta|]].
  - intros (s1 & H).
    apply handleEventData_run in H as (_ & _ & _ & _ & Hu & _ & _ & _ & _ & H3).
    destruct Hu as (Hu & _). destruct (Hu eq_refl) as [E|(E & K)].
    + left; exact E.
    + right. auto.
  - intros [E|(E & H3 & K)].
    + exists s. rewrite (handleEventData_head C b s Hb Hl H2).
      cbv zeta. fold evt. rewrite E. reflexivity.
    + eexists. apply Hmeta; assumption.
  - intros N1 N2 N3 N4 N5 N6 N7.
    rewrite (handleEventData_head C b s Hb Hl H2). cbv zeta. fold evt.
    destruct (Z.eqb_spec evt evtDisconnComplete); [contradiction|].
    destruct (Z.eqb_spec evt evtEncryptionChange); [contradiction|].
    destruct (Z.eqb_spec evt evtCmdComplete); [contradiction|].
    destruct (Z.eqb_spec evt evtCmdStatus); [contradiction|].
    destruct (Z.eqb_spec evt evtNumCompPkts); [contradiction|].
    destruct (Z.eqb_spec evt evtLEMetaEvent); [contradiction|].
    destruct (Z.eqb_spec evt evtHardwareError); [contradiction|].
    reflexivity.
Qed.

Lemma unknownEvent_exactly_witness :
  let s := holding directReport in
  handleEventData quiet (frame 5) s =
  Val (Some ErrHCIUnknownEvent) (set_advData clearedAdv s).
Proof.
  apply (unknownEvent_exactly quiet (frame 5) (holding directReport)).
  - unfold slice_ok, frame, bufCap. simpl. lia.
  - vm_compute. reflexivity.
  - vm_compute. discriminate.
  - vm_compute. reflexivity.
  - vm_compute. discriminate.
  - vm_compute. reflexivity.
Defined.

(** C8 as stated fails: the event code 0xFF has no case, and the frame
    04 FF 00 is decoded with success, not with UnknownEvent. *)
Lemma unrecognized_event_code_accepted :
  answer (handleEventData quiet (frame 3) (holding [x04; xff; x00])) = Some None /\
  answer (poll quiet (newHCI [x04; xff; x00] 0)) = Some None.
Proof. split; vm_compute; reflexivity. Qed.

(** ** C6: the credit of pending packets *)

Lemma wrap16_add_l (a b : Z) : wrap16 (wrap16 a + b) = wrap16 (a + b).
Proof. unfold wrap16. apply Zplus_mod_idemp_l. Qed.

Lemma wrap16_range (a : Z) : 0 <= wrap16 a < 65536.
Proof. unfold wrap16. apply Z.mod_pos_bound. reflexivity. Qed.

(** The loop of the decoder adds up the counts of the entries, modulo
    2^16, when all the entries lie in the frame. *)
Lemma sumCompPkts_sum n b s i pkts :
  slice_ok b -> len (buf s) = bufCap ->
  0 <= i -> 3 + 4 * (i + Z.of_nat n) <= slen b ->
  0 <= pkts < 65536 ->
  sumCompPkts n b i pkts s = Val (wrap16 (pkts + completedSum s b i n)) s.
Proof.
  intros Hb Hl. revert i pkts.
  induction n as [|n IH]; intros i pkts Hi Hn Hp; cbn [sumCompPkts completedSum].
  - unfold ret, wrap16. rewrite Z.add_0_r, Z.mod_small by lia. reflexivity.
  - pose proof Hb as (Hb0 & Hb1 & Hb2). unfold slen, bufCap in *.
    assert (Hw : wrap8 (5 + i * 4) = 5 + 4 * i).
    { unfold wrap8. rewrite Z.mod_small by lia. lia. }
    assert (Hw1 : wrap8 (i + 1) = i + 1).
    { unfold wrap8. rewrite Z.mod_small by lia. lia. }
    rewrite Hw, Hw1.
    rewrite (bind_run _ _ _ _ _
               (Uint16_from_ok b (5 + 4 * i) s Hb Hl ltac:(lia)
                  ltac:(unfold slen; lia))).
    rewrite IH; [|lia|lia|apply wrap16_range].
    rewrite wrap16_add_l, Z.add_assoc. reflexivity.
Qed.

(** C6, amended.  For a NumberOfCompletedPackets event whose handle
    entries all lie in the frame, the decoder succeeds, and with [sum] the
    sum of the per-handle counts modulo 2^16: the new credit is
    [old - sum] when [0 < sum < old] and 0 otherwise.  So the credit is
    never negative, a sum that reaches the credit puts it at zero, and a
    sum of zero puts it at zero as well. *)
Theorem numCompPkts_credit C b s :
  slice_ok b -> len (buf s) = bufCap ->
  at_ s b 0 = evtNumCompPkts ->
  3 + 4 * at_ s b 2 <= slen b ->
  let sum := wrap16 (completedSum s b 0 (Z.to_nat (at_ s b 2))) in
  let credit := if (0 <? sum) && (sum <? pendingPkt s)
                then pendingPkt s - sum else 0 in
  handleEventData C b s = Val None (set_pendingPkt credit s) /\
  0 <= credit /\
  (sum = 0 -> credit = 0) /\
  (pendingPkt s <= sum -> credit = 0).
Proof.
  intros Hb Hl He Hn sum credit.
  assert (Hc : 0 <= at_ s b 2 < 256) by apply u8_range.
  assert (Hs : 0 <= sum < 65536) by apply wrap16_range.
  split.
  - rewrite (handleEventData_head C b s Hb Hl ltac:(lia)).
    cbv zeta. rewrite He. cbn [Z.eqb evtNumCompPkts evtDisconnComplete
      evtEncryptionChange evtCmdComplete evtCmdStatus Pos.eqb].
    unfold onNumCompPkts.
    rewrite (bind_run _ _ _ _ _ (idx_run b 2 s s Hb Hl eq_refl ltac:(lia))).
    change (u8 (byteAt s b 2)) with (at_ s b 2).
    rewrite (bind_run _ _ _ _ _
               (sumCompPkts_sum (Z.to_nat (at_ s b 2)) b s 0 0 Hb Hl
                  ltac:(lia) ltac:(lia) ltac:(lia))).
    rewrite Z.add_0_l. fold sum. rewrite bind_modify.
    unfold ret, credit.
    rewrite Z.gtb_ltb, (Z.gtb_ltb (pendingPkt s) sum).
    destruct ((0 <? sum) && (sum <? pendingPkt s)); reflexivity.
  - unfold credit.
    destruct (Z.ltb_spec 0 sum), (Z.ltb_spec sum (pendingPkt s)); cbn [andb];
      repeat split; intros; lia.
Qed.

Lemma numCompPkts_credit_witness :
  let s := set_pendingPkt 5 (holding twoCompleted) in
  handleEventData quiet (frame 8) s = Val None (set_pendingPkt 3 s).
Proof.
  apply (numCompPkts_credit quiet (frame 8) (set_pendingPkt 5 (holding twoCompleted))).
  - unfold slice_ok, frame, bufCap. simpl. lia.
  - vm_compute. reflexivity.
  - vm_compute. reflexivity.
  - vm_compute. discriminate.
Defined.

(** C6 as stated fails: with a credit of 5, an event whose counts sum
    to zero leaves a credit of 0, not [max (5 - 0) 0 = 5]. *)
Lemma zero_sum_clears_credit :
  let s := set_pendingPkt 5 (holding noneCompleted) in
  completedSum s (frame 8) 0 1 = 0 /\
  after (handleEventData quiet (frame 8) s) pendingPkt = Some 0 /\
  after (handleEventData quiet (frame 8) s) pendingPkt
    <> Some (Z.max (pendingPkt s - completedSum s (frame 8) 0 1) 0).
Proof. cbv zeta. repeat split; vm_compute; congruence. Qed.

(** ** C2: the ACL demultiplexer on reassembled frames *)




(** ** C5: the LE Advertising Report *)

(** C5 (the code does not keep the promise).  The claim says a report
    whose EIR bytes and RSSI byte would lie past the buffered frame is
    refused with InvalidPacket.  The report 3E 02 | 02 01 ends after the
    report count: the decoder reads the fields at indexes 4 to 12 before it
    looks at the length of the frame, and the first of these reads panics. *)
Theorem truncated_report_panics :
  handleEventData quiet (frame 5) (holding truncatedReport) = Panic /\
  poll quiet (newHCI truncatedReport 0) = Panic.
Proof. split; vm_compute; reflexivity. Qed.

(** A report that holds 31 EIR bytes and the RSSI byte is decoded. *)
Lemma full_report_decoded :
  let run := handleEventData quiet (frame 46) (holding fullReport) in
  answer run = Some None /\
  after run (fun t => eirLength (advData t)) = Some 31 /\
  after run (fun t => eirData (advData t)) = Some (firstn 31 (skipn 14 fullReport)) /\
  after run (fun t => rssi (advData t)) = Some (-56).
Proof. cbv zeta. repeat split; vm_compute; reflexivity. Qed.

(** * Further properties of the engine *)

(** ** Little-endian fields *)

Lemma u8_byte_of (z : Z) : u8 (byte_of z) = z mod 256.
Proof.
  unfold u8, byte_of.
  pose proof (Z.mod_pos_bound z 256 ltac:(lia)) as Hb.
  destruct (Byte.of_N (Z.to_N (z mod 256))) as [b|] eqn:E.
  - apply Byte.to_of_N in E. rewrite E. lia.
  - apply Byte.of_N_None_iff in E. lia.
Qed.

(** What [PutUint16] writes, [Uint16] reads back: the value modulo 2^16. *)
Theorem put16_read_back (v : Z) :
  le16 (nth 0 (put16 v) x00) (nth 1 (put16 v) x00) = v mod 65536.
Proof.
  cbn [put16 nth]. rewrite le16_sum, !u8_byte_of.
  rewrite Z.shiftr_div_pow2 by lia. change (2 ^ 8) with 256.
  pose proof (Z.div_mod v 256 ltac:(lia)).
  pose proof (Z.mod_pos_bound v 256 ltac:(lia)).
  pose proof (Z.div_mod (v / 256) 256 ltac:(lia)).
  pose proof (Z.mod_pos_bound (v / 256) 256 ltac:(lia)).
  apply Z.mod_unique with (q := v / 256 / 256); lia.
Qed.

(** ** [start] *)

Lemma startLoop_drains C fuel s :
  (forall n, tr_read_err C n = None) ->
  (length (rx s) <= fuel)%nat ->
  exists s1 t, startLoop C fuel s = Val None s1 /\ rx s1 = [] /\
               buf s1 = buf s /\ pos s1 = pos s /\ end_ s1 = end_ s /\
               trace s1 = trace s ++ t /\ requestsWithin 1 32 t.
Proof.
  intros Hok. revert s. induction fuel as [|fuel IH]; intros s Hf.
  - destruct (rx s) eqn:E; [|cbn in Hf; lia].
    exists s, []. cbn [startLoop]. rewrite E, app_nil_r. cbn. auto 10.
  - cbn [startLoop]. unfold len.
    destruct (rx s) as [|x l] eqn:E.
    + exists s, []. rewrite app_nil_r. cbn. auto 10.
    + replace (Z.of_nat (length (x :: l)) >? 0) with true
        by (symmetry; apply Z.gtb_lt; cbn [length]; lia).
      set (i := if Z.of_nat (length (x :: l)) >? 32 then 32
                else Z.of_nat (length (x :: l))).
      assert (Hi : 1 <= i <= 32).
      { unfold i. destruct (Z.gtb_spec (Z.of_nat (length (x :: l))) 32);
          cbn [length] in *; lia. }
      rewrite Hok.
      destruct (IH (set_trace (trace s ++ [EvRead i (firstn (Z.to_nat i) (x :: l))])
                      (set_rx (skipn (Z.to_nat i) (x :: l)) s)))
        as (s1 & t & H1 & H2 & H3 & H4 & H5 & H6 & H7).
      { cbn [rx set_trace set_rx]. rewrite length_skipn. cbn [length] in *. lia. }
      exists s1, (EvRead i (firstn (Z.to_nat i) (x :: l)) :: t).
      split; [exact H1|]. split; [exact H2|]. split; [exact H3|].
      split; [exact H4|]. split; [exact H5|].
      split; [rewrite H6; cbn [trace set_trace]; rewrite <- app_assoc; reflexivity|].
      cbn [requestsWithin]. auto.
Qed.

(** X1.  [start] empties the transport when its reads succeed: it returns nil,
    no byte is left waiting, each request asks for 1 to 32 bytes, and the
    engine's packet buffer, cursor and fill level are as before. *)
Theorem start_drains C s :
  (forall n, tr_read_err C n = None) ->
  exists s1 t, start C s = Val None s1 /\ rx s1 = [] /\
               buf s1 = buf s /\ pos s1 = pos s /\ end_ s1 = end_ s /\
               trace s1 = trace s ++ t /\ requestsWithin 1 32 t.
Proof.
  intros Hok. unfold start. apply startLoop_drains; [exact Hok|lia].
Qed.

Lemma start_drains_witness :
  exists s1 t, start quiet (newHCI (zeros 70) 0) = Val None s1 /\ rx s1 = [] /\
               buf s1 = buf (newHCI (zeros 70) 0) /\ pos s1 = 0 /\ end_ s1 = 0 /\
               trace s1 = [] ++ t /\ requestsWithin 1 32 t.
Proof.
  apply (start_drains quiet (newHCI (zeros 70) 0)). reflexivity.
Defined.

(** ** Outbound ACL data *)

Lemma sendAclPkt_eq C hd cid data s :
  sendAclPkt C hd cid data s =
  if 9 + len data <=? len (writebuf s) then
    match tr_write_err C (aclFrame hd cid data) with
    | Some e => Val (Some (ErrExternal e)) (sentAcl hd cid data s)
    | None => Val None (set_pendingPkt (wrap16 (pendingPkt s + 1))
                          (sentAcl hd cid data s))
    end
  else Panic.
Proof.
  unfold sendAclPkt, wb_put16, bind, wb_set, wb_copyAt, wb_prefix, sentAcl.
  pose proof (len_nonneg data) as Hn.
  assert (Hm : Z.to_nat (9 + len data) = (9 + length data)%nat) by (unfold len; lia).
  assert (Hm9 : 9 <= 9 + len data) by lia.
  remember (9 + len data) as m eqn:Em.
  remember (9 + length data)%nat as k eqn:Ek.
  unfold aclFrame, put16.
  remember (wrap16 (len data + 4)) as l4.
  remember (wrap16 (len data)) as l0.
  clear Em Hn Heql4 Heql0.
  destruct s as [bf ps en wb ? ? ? ? ? ? ? ? ? ? ?].
  destruct wb as [|w0 [|w1 [|w2 [|w3 [|w4 [|w5 [|w6 [|w7 [|w8 wb]]]]]]]]];
    unfold len, store; simpl.
  1-9: repeat match goal with
            | |- context [?a <=? ?k] => rewrite (proj2 (Z.leb_gt a k)) by lia
            end; reflexivity.
  unfold set_writebuf; simpl.
  assert (Hl : length (copy_into wb data) = length wb) by apply copy_into_length.
  repeat (match goal with
          | |- context [?a <? ?b] => rewrite (proj2 (Z.ltb_lt a b)) by lia
          | |- context [9 <=? ?b] => rewrite (proj2 (Z.leb_le 9 b)) by lia
          | |- context [0 <=? ?b] => rewrite (proj2 (Z.leb_le 0 b)) by lia
          end; simpl).
  rewrite Hl.
  match goal with |- context [m <=? ?b] => destruct (Z.leb_spec m b) as [Hle|Hgt] end;
    [|reflexivity].
  assert (Hp : (length data <= length wb)%nat) by lia.
  rewrite Hm, Ek. simpl. rewrite (copy_into_short _ _ Hp).
  rewrite firstn_app, firstn_all, Nat.sub_diag, firstn_O, app_nil_r.
  unfold write, transport_Write, bind, log, modify, ret, ext. simpl.
  destruct (tr_write_err C _); reflexivity.
Qed.

Lemma buffered_byteAt f s n i :
  buffered f s -> 0 <= i -> (Z.to_nat (1 + i) < length f)%nat ->
  byteAt s (frame n) i = nth (Z.to_nat (1 + i)) f x00.
Proof.
  intros Hf Hi Hlt. unfold byteAt, frame, buffered in *. cbn [lo].
  rewrite <- Hf at 1. rewrite nth_firstn.
  destruct (Nat.ltb_spec (Z.to_nat (1 + i)) (length f)); [reflexivity|lia].
Qed.

Lemma le16_put16 (v : Z) :
  0 <= v < 65536 -> le16 (byte_of v) (byte_of (Z.shiftr v 8)) = v.
Proof.
  intros H. pose proof (put16_read_back v) as P. cbn [put16 nth] in P.
  rewrite P. apply Z.mod_small. exact H.
Qed.

Ltac hdr_bytes :=
  repeat match goal with
  | |- context [Z.to_nat ?e] =>
      let v := eval vm_compute in (Z.to_nat e) in change (Z.to_nat e) with v
  end;
  unfold aclFrame, put16; cbn [app nth].

(** The frame of [sendAclPkt], once in a packet buffer, goes to the layer
    its channel names, with the payload it was built from. *)
Lemma aclFrame_delivered C hd cid data r :
  0 <= hd < 65536 -> len data <= 247 ->
  cid = attCID \/ cid = signalingCID ->
  len (buf r) = bufCap -> buffered (aclFrame hd cid data) r ->
  handleACLData C (frame (9 + len data)) r =
    if cid =? attCID then
      Val (ext (att_handleData C (Z.land hd 0x0fff) data))
          (set_trace (trace r ++ [EvAttHandleData (Z.land hd 0x0fff) data]) r)
    else
      Val (ext (l2cap_handleData C (Z.land hd 0x0fff) data))
          (set_trace (trace r ++ [EvL2capHandleData (Z.land hd 0x0fff) data]) r).
Proof.
  intros Hh Hd Hc Hl Hf.
  pose proof (len_nonneg data) as Hn.
  set (b := frame (9 + len data)).
  assert (Hlen : length (aclFrame hd cid data) = (9 + length data)%nat).
  { unfold aclFrame. rewrite !length_app. reflexivity. }
  assert (Hb : slice_ok b) by (unfold slice_ok, b, frame, bufCap; cbn [lo hi]; lia).
  assert (Hat : forall i, 0 <= i < 8 ->
            byteAt r b i = nth (Z.to_nat (1 + i)) (aclFrame hd cid data) x00).
  { intros i Hi. apply buffered_byteAt; [exact Hf|lia|rewrite Hlen; lia]. }
  assert (Hcid : 0 <= cid < 65536) by (unfold attCID, signalingCID in Hc; lia).
  assert (H0 : at16 r b 0 = hd).
  { unfold at16. rewrite !Hat by lia. hdr_bytes. apply le16_put16. exact Hh. }
  assert (H2 : at16 r b 2 = len data + 4).
  { unfold at16. rewrite !Hat by lia. hdr_bytes. rewrite le16_put16 by apply wrap16_range.
    unfold wrap16. apply Z.mod_small. lia. }
  assert (H4 : at16 r b 4 = len data).
  { unfold at16. rewrite !Hat by lia. hdr_bytes. rewrite le16_put16 by apply wrap16_range.
    unfold wrap16. apply Z.mod_small. lia. }
  assert (H6 : at16 r b 6 = cid).
  { unfold at16. rewrite !Hat by lia. hdr_bytes. apply le16_put16. exact Hcid. }
  assert (Hpay : window (buf r) (mkSlice (lo b + 8) (lo b + (at16 r b 4 + 8))) = data).
  { rewrite H4. unfold window, slen, b, frame. cbn [lo hi].
    replace (Z.to_nat (1 + (len data + 8) - (1 + 8))) with (length data) by (unfold len; lia).
    replace (Z.to_nat (1 + 8)) with 9%nat by lia.
    unfold buffered in Hf. rewrite Hlen in Hf.
    rewrite firstn_skipn_comm, Hf. reflexivity. }
  pose proof (handleACLData_reassembled C b r Hb Hl) as A.
  cbv zeta in A. rewrite H0, H2, H6, Hpay in A. rewrite H4 in A.
  specialize (A ltac:(unfold b, frame, slen; cbn [lo hi]; lia)
                ltac:(unfold b, frame, slen; cbn [lo hi]; lia)).
  rewrite A, Z.eqb_refl. cbn [negb].
  destruct Hc as [-> | ->]; reflexivity.
Qed.

(** X2.  What [sendAclPkt] writes, [handleACLData] delivers.  An engine sends
    [data] (at most 247 bytes) for connection [hd] on the ATT or the
    signaling channel: the frame written is [aclFrame hd cid data] and the
    credit of pending packets goes up by one (modulo 2^16).  An engine
    whose packet buffer starts with that frame hands exactly [data], with
    the handle cut to its low 12 bits, to ATT or to L2CAP. *)
Theorem acl_round_trip C C' hd cid data s r :
  0 <= hd < 65536 -> len data <= 247 ->
  cid = attCID \/ cid = signalingCID ->
  len (writebuf s) = bufCap -> tr_write_err C (aclFrame hd cid data) = None ->
  len (buf r) = bufCap -> buffered (aclFrame hd cid data) r ->
  sendAclPkt C hd cid data s =
    Val None (set_pendingPkt (wrap16 (pendingPkt s + 1)) (sentAcl hd cid data s)) /\
  handleACLData C' (frame (9 + len data)) r =
    if cid =? attCID then
      Val (ext (att_handleData C' (Z.land hd 0x0fff) data))
          (set_trace (trace r ++ [EvAttHandleData (Z.land hd 0x0fff) data]) r)
    else
      Val (ext (l2cap_handleData C' (Z.land hd 0x0fff) data))
          (set_trace (trace r ++ [EvL2capHandleData (Z.land hd 0x0fff) data]) r).
Proof.
  intros Hh Hd Hc Hw Hwr Hl Hf.
  pose proof (len_nonneg data) as Hn.
  split.
  - rewrite sendAclPkt_eq, Hwr, Hw.
    destruct (Z.leb_spec (9 + len data) bufCap); [reflexivity|unfold bufCap in *; lia].
  - apply aclFrame_delivered; assumption.
Qed.

Lemma acl_round_trip_witness :
  let data := [xaa; xbb] in
  let r := holding (aclFrame 0x2001 attCID data) in
  sendAclPkt quiet 0x2001 attCID data (newHCI [] 0) =
    Val None (set_pendingPkt 1 (sentAcl 0x2001 attCID data (newHCI [] 0))) /\
  handleACLData quiet (frame 11) r =
    Val None (set_trace [EvAttHandleData 1 data] r).
Proof.
  apply (acl_round_trip quiet quiet 0x2001 attCID [xaa; xbb] (newHCI [] 0)
           (holding (aclFrame 0x2001 attCID [xaa; xbb]))).
  - lia.
  - vm_compute. discriminate.
  - left. reflexivity.
  - vm_compute. reflexivity.
  - reflexivity.
  - vm_compute. reflexivity.
  - vm_compute. reflexivity.
Defined.

(** X3.  [sendAclPkt] has no length check of its own: with the 256-byte write
    buffer of [newHCI], a payload longer than 247 bytes makes the slice
    [h.writebuf[:9+len(data)]] exceed the capacity and the call panics,
    whatever the transport would have answered. *)
Theorem sendAclPkt_overlong_panics C hd cid data s :
  len (writebuf s) = bufCap -> 247 < len data ->
  sendAclPkt C hd cid data s = Panic.
Proof.
  intros Hw Hd. rewrite sendAclPkt_eq, Hw.
  destruct (Z.leb_spec (9 + len data) bufCap); [unfold bufCap in *; lia|reflexivity].
Qed.

Lemma sendAclPkt_overlong_panics_witness :
  sendAclPkt quiet 1 attCID (zeros 248) (newHCI [] 0) = Panic.
Proof.
  apply (sendAclPkt_overlong_panics quiet 1 attCID (zeros 248) (newHCI [] 0)).
  - vm_compute. reflexivity.
  - vm_compute. reflexivity.
Defined.

(** X4.  The credit of pending packets counts only frames the transport took:
    when the write fails, [sendAclPkt] returns the transport's error and
    [pendingPkt] is what it was; when it succeeds the credit is one more,
    modulo 2^16.  Either way the frame went to the transport exactly once
    and nothing was read from it. *)
Theorem sendAclPkt_credit C hd cid data s :
  len (writebuf s) = bufCap -> len data <= 247 ->
  exists e s1,
    sendAclPkt C hd cid data s = Val e s1 /\
    e = ext (tr_write_err C (aclFrame hd cid data)) /\
    pendingPkt s1 = match e with
                    | Some _ => pendingPkt s
                    | None => wrap16 (pendingPkt s + 1)
                    end /\
    trace s1 = trace s ++ [EvWrite (aclFrame hd cid data)] /\
    rx s1 = rx s /\ buf s1 = buf s.
Proof.
  intros Hw Hd. rewrite sendAclPkt_eq, Hw.
  destruct (Z.leb_spec (9 + len data) bufCap) as [_|H]; [|unfold bufCap in *; lia].
  destruct s. unfold ext.
  destruct (tr_write_err C _); eexists; eexists; (split; [reflexivity|]);
    repeat split.
Qed.

Lemma sendAclPkt_credit_witness :
  exists e s1,
    sendAclPkt quiet 1 attCID [xaa] (newHCI [] 0) = Val e s1 /\
    e = ext (tr_write_err quiet (aclFrame 1 attCID [xaa])) /\
    pendingPkt s1 = match e with
                    | Some _ => pendingPkt (newHCI [] 0)
                    | None => wrap16 (pendingPkt (newHCI [] 0) + 1)
                    end /\
    trace s1 = trace (newHCI [] 0) ++ [EvWrite (aclFrame 1 attCID [xaa])] /\
    rx s1 = rx (newHCI [] 0) /\ buf s1 = buf (newHCI [] 0).
Proof.
  apply (sendAclPkt_credit quiet 1 attCID [xaa] (newHCI [] 0)).
  - vm_compute. reflexivity.
  - vm_compute. discriminate.
Defined.
(** * What the decoders leave alone *)

(** ** Frame rules *)

Section Keeps.
Variable R : state -> state -> Prop.
Hypothesis R_refl : forall s, R s s.
Hypothesis R_trans : forall s t u, R s t -> R t u -> R s u.

Lemma keeps_ret {A} (a : A) : keeps R (ret a).
Proof. intros s. apply R_refl. Qed.

Lemma keeps_panic {A} : keeps R (@panic A).
Proof. intros s. exact I. Qed.

Lemma keeps_gets {A} (f : state -> A) : keeps R (gets f).
Proof. intros s. apply R_refl. Qed.

Lemma keeps_bind {A B} (m : M A) (k : A -> M B) :
  keeps R m -> (forall a, keeps R (k a)) -> keeps R (bind m k).
Proof.
  intros Hm Hk s. specialize (Hm s). unfold wp, bind in *.
  destruct (m s) as [a s1| |]; [|exact I|contradiction].
  specialize (Hk a s1). unfold wp in Hk.
  destruct (k a s1); [eapply R_trans; eassumption|exact I|contradiction].
Qed.

Lemma keeps_modify (f : state -> state) :
  (forall s, R s (f s)) -> keeps R (modify f).
Proof. intros H s. apply H. Qed.

Lemma keeps_idx b i : keeps R (idx b i).
Proof.
  intros s. unfold wp, idx.
  destruct ((0 <=? i) && (i <? slen b)); [|exact I].
  destruct (nth_error _ _); [apply R_refl|exact I].
Qed.

Lemma keeps_from b a : keeps R (from b a).
Proof.
  intros s. unfold wp, from, ret, panic.
  destruct ((0 <=? a) && (a <=? slen b)); [apply R_refl|exact I].
Qed.

Lemma keeps_sub b a c : keeps R (sub b a c).
Proof.
  intros s. unfold wp, sub, ret, panic.
  destruct ((0 <=? a) && (a <=? c) && (c <=? scap b)); [apply R_refl|exact I].
Qed.

Lemma keeps_Uint16 b : keeps R (Uint16 b).
Proof.
  unfold Uint16. repeat (apply keeps_bind; [apply keeps_idx|intro]).
  apply keeps_ret.
Qed.

Lemma keeps_Uint16_from b off : keeps R (Uint16_from b off).
Proof.
  unfold Uint16_from. apply keeps_bind; [apply keeps_from|intro].
  apply keeps_Uint16.
Qed.

Lemma keeps_if {A} (c : bool) (m1 m2 : M A) :
  keeps R m1 -> keeps R m2 -> keeps R (if c then m1 else m2).
Proof. destruct c; auto. Qed.
End Keeps.

Lemma framing_refl s : framing s s.
Proof.
  unfold framing. repeat split. exists []. rewrite app_nil_r. split; constructor.
Qed.

Lemma framing_trans s t u : framing s t -> framing t u -> framing s u.
Proof.
  unfold framing.
  intros (A1 & A2 & A3 & A4 & A5 & A8 & A9 & t1 & A6 & A7)
         (B1 & B2 & B3 & B4 & B5 & B8 & B9 & t2 & B6 & B7).
  repeat split; try congruence.
  exists (t1 ++ t2). split; [rewrite B6, A6, app_assoc; reflexivity|].
  apply Forall_app. split; assumption.
Qed.

(** A change of one field other than those of [framing]. *)
Ltac field_only :=
  let s := fresh "s" in
  intros s; destruct s as [bf ps en wb co cs cr sc ad cd mp pp rxs tr nw];
  unfold framing;
  cbv beta iota delta
    [set_writebuf set_cmdCompleteOpcode set_cmdCompleteStatus set_cmdResponse
     set_advData set_connectData set_pendingPkt
     buf pos end_ rx now trace writebuf flags scanning maxPkt];
  repeat (split; [reflexivity|]);
  exists []; rewrite app_nil_r; split; constructor.

Lemma framing_log e : notRead e -> keeps framing (log e).
Proof.
  intros He. apply keeps_modify. intros s. destruct s as [bf ps en wb co cs cr sc ad cd mp pp rxs tr nw].
  unfold framing.
  cbv beta iota delta
    [set_trace buf pos end_ rx now trace writebuf flags scanning maxPkt].
  repeat (split; [reflexivity|]).
  exists [e]. split; [reflexivity|]. constructor; [exact He|constructor].
Qed.

Lemma framing_upd_conn f : keeps framing (upd_conn f).
Proof. apply keeps_modify. field_only. Qed.

Lemma framing_upd_adv f : keeps framing (upd_adv f).
Proof. apply keeps_modify. field_only. Qed.

Lemma store_length (l : list byte) (i : Z) (src : list byte) :
  0 <= i -> i + len src <= len l -> length (store l i src) = length l.
Proof.
  unfold store, len. intros Hi Hl.
  rewrite !length_app, length_firstn, length_skipn. lia.
Qed.

Lemma framing_wb l :
  forall s, length l = length (writebuf s) -> framing s (set_writebuf l s).
Proof.
  intros s. destruct s as [bf ps en wb co cs cr sc ad cd mp pp rxs tr nw].
  unfold framing.
  cbv beta iota delta
    [set_writebuf buf pos end_ rx now trace writebuf flags scanning maxPkt].
  intros Hl. repeat (split; [reflexivity|]). split; [exact Hl|].
  split; [reflexivity|].
  exists []. rewrite app_nil_r. split; constructor.
Qed.

Lemma framing_wb_set i v : keeps framing (wb_set i v).
Proof.
  intros s. unfold wp, wb_set.
  destruct (Z.leb_spec 0 i); [|exact I].
  destruct (Z.ltb_spec i (len (writebuf s))); [|exact I]. cbn [andb].
  apply framing_wb. apply store_length; [assumption|]. unfold len in *. cbn [length]. lia.
Qed.

Lemma framing_wb_copy4 p : keeps framing (wb_copy4 p).
Proof.
  intros s. unfold wp, wb_copy4.
  destruct (Z.leb_spec 4 (len (writebuf s))); [|exact I].
  apply framing_wb. unfold len in *.
  rewrite length_app, copy_into_length, length_firstn, length_skipn. lia.
Qed.

Lemma framing_wb_prefix n : keeps framing (wb_prefix n).
Proof.
  intros s. unfold wp, wb_prefix.
  destruct ((0 <=? n) && (n <=? len (writebuf s))); [apply framing_refl|exact I].
Qed.

Ltac framed :=
  repeat first
    [ apply (keeps_bind framing framing_trans); [|intro]
    | apply (keeps_ret framing framing_refl)
    | apply (keeps_gets framing framing_refl)
    | apply (keeps_idx framing framing_refl)
    | apply (keeps_from framing framing_refl)
    | apply (keeps_sub framing framing_refl)
    | apply (keeps_Uint16 framing framing_refl framing_trans)
    | apply (keeps_Uint16_from framing framing_refl framing_trans)
    | apply framing_upd_conn
    | apply framing_upd_adv
    | apply framing_wb_set
    | apply framing_wb_copy4
    | apply framing_wb_prefix
    | apply framing_log; exact I
    | apply keeps_modify; field_only
    | apply keeps_if
    | match goal with
      | |- keeps _ (match ?x with _ => _ end) => destruct x
      end ].

Lemma framing_sendWithoutResponse C opcode params :
  keeps framing (sendWithoutResponse C opcode params).
Proof.
  unfold sendWithoutResponse, encodeCommand, write, transport_Write, resetCompletion.
  framed.
Qed.

Lemma framing_leSetAdvertiseEnable C e : keeps framing (leSetAdvertiseEnable C e).
Proof. unfold leSetAdvertiseEnable. apply framing_sendWithoutResponse. Qed.

Lemma framing_sumCompPkts n : forall b i p, keeps framing (sumCompPkts n b i p).
Proof.
  induction n as [|n IH]; intros b i p; cbn [sumCompPkts]; framed. apply IH.
Qed.

Lemma framing_handleACLData C b : keeps framing (handleACLData C b).
Proof. unfold handleACLData, att_deliver, l2cap_deliver. framed. Qed.

Lemma framing_handleEventData C b : keeps framing (handleEventData C b).
Proof.
  unfold handleEventData, onDisconnComplete, onCmdComplete, onCmdStatus,
    onNumCompPkts, onLEMetaEvent, onConnComplete, onAdvertisingReport,
    onRemoteConnParamReq, clearAdvData.
  framed;
    try apply framing_leSetAdvertiseEnable;
    try apply framing_sendWithoutResponse;
    try apply framing_sumCompPkts.
  all: framed.
  all: try apply framing_leSetAdvertiseEnable.
  apply keeps_modify. intros s. destruct (_ && _); revert s; field_only.
Qed.

(** X5.  The decoders stay out of the framer's way.  Whatever frame they are
    handed, [handleEventData] and [handleACLData] end (with a result or a
    panic), and when they return, the packet buffer, both cursors, the
    bytes waiting in the transport and the clock are untouched, the write
    buffer has kept its size and the transport was not read: all they
    change is the completion slot, the two reports, the credit, the
    contents of the write buffer and the log of calls. *)
Theorem decoders_leave_framer C b :
  keeps framing (handleEventData C b) /\ keeps framing (handleACLData C b).
Proof. split; [apply framing_handleEventData|apply framing_handleACLData]. Qed.

(** ** The framer: invariant and termination *)

Lemma wp_bind {A B} (m : M A) (k : A -> M B) s Q :
  wp m s (fun a s1 => wp (k a) s1 Q) -> wp (bind m k) s Q.
Proof. unfold wp, bind. destruct (m s); auto. Qed.

Lemma wp_ret {A} (a : A) s (Q : A -> state -> Prop) : Q a s -> wp (ret a) s Q.
Proof. auto. Qed.

Lemma wp_gets {A} (f : state -> A) s (Q : A -> state -> Prop) :
  Q (f s) s -> wp (gets f) s Q.
Proof. auto. Qed.

Lemma wp_modify f s (Q : unit -> state -> Prop) : Q tt (f s) -> wp (modify f) s Q.
Proof. auto. Qed.

Lemma wp_idx b i s (Q : byte -> state -> Prop) :
  (forall x, Q x s) -> wp (idx b i) s Q.
Proof.
  intros H. unfold wp, idx. destruct (_ && _); [|exact I].
  destruct (nth_error _ _); [apply H|exact I].
Qed.

Lemma wp_sub b a c s (Q : slice -> state -> Prop) :
  (0 <= a -> a <= c -> c <= scap b -> Q (mkSlice (lo b + a) (lo b + c)) s) ->
  wp (sub b a c) s Q.
Proof.
  intros H. unfold wp, sub, ret, panic.
  destruct (Z.leb_spec 0 a); [|exact I].
  destruct (Z.leb_spec a c); [|exact I].
  destruct (Z.leb_spec c (scap b)); [|exact I].
  cbn [andb]. auto.
Qed.

Lemma wp_Uint16 b s (Q : Z -> state -> Prop) :
  (forall v, 0 <= v < 65536 -> Q v s) -> wp (Uint16 b) s Q.
Proof.
  intros H. unfold Uint16. apply wp_bind, wp_idx. intros b1.
  apply wp_bind, wp_idx. intros b0. apply wp_ret, H, le16_range.
Qed.

Lemma wp_keeps {A} R (m : M A) s (Q : A -> state -> Prop) :
  keeps R m -> (forall a s1, R s s1 -> Q a s1) -> wp m s Q.
Proof.
  intros Hk H. specialize (Hk s). unfold wp in *.
  destruct (m s); auto.
Qed.

Lemma wp_mono {A} (m : M A) s (Q Q' : A -> state -> Prop) :
  wp m s Q -> (forall a s1, Q a s1 -> Q' a s1) -> wp m s Q'.
Proof. unfold wp. destruct (m s); auto. Qed.


Lemma dispatched_after s X e s1 :
  0 <= X -> framing (set_pos X s) s1 -> dispatched s (true, e) s1.
Proof.
  destruct s as [bf ps en wb co cs cr sc ad cd mp pp rxs tr nw].
  unfold framing, dispatched.
  cbv beta iota delta
    [set_pos buf pos end_ rx now trace writebuf fst snd flags scanning maxPkt].
  intros HX (A1 & A2 & A3 & A4 & A5 & A6 & A7 & _).
  repeat split; try assumption; try lia; discriminate.
Qed.

Lemma dispatched_none s : 0 <= pos s -> dispatched s (false, None) s.
Proof. intros H. unfold dispatched. repeat split; assumption. Qed.

Lemma processPacket_wp C s :
  0 <= pos s -> wp (processPacket C) s (dispatched s).
Proof.
  intros Hp. unfold processPacket.
  apply wp_bind, wp_idx. intros t.
  apply wp_bind, wp_gets. apply wp_bind, wp_gets.
  unfold hciACLLenPos, hciEvtLenPos.
  destruct (u8 t =? hciACLDataPkt).
  { destruct (pos s >? 4); [|apply wp_ret, dispatched_none, Hp].
    apply wp_bind, wp_sub. intros _ _ _.
    apply wp_bind, wp_Uint16. intros pktlen Hl.
    destruct (end_ s <? 4 + pktlen); [apply wp_ret, dispatched_none, Hp|].
    destruct (pos s >=? 4 + pktlen); [|apply wp_ret, dispatched_none, Hp].
    apply wp_bind, wp_modify. apply wp_bind, wp_sub. intros _ _ _.
    apply wp_bind. eapply wp_keeps; [apply framing_handleACLData|].
    intros e s1 F. apply wp_ret. eapply dispatched_after; [|exact F]. lia. }
  destruct (u8 t =? hciEventPkt).
  { destruct (pos s >? 2); [|apply wp_ret, dispatched_none, Hp].
    apply wp_bind, wp_idx. intros pl. pose proof (u8_range pl) as Hl.
    destruct (end_ s <? 2 + u8 pl); [apply wp_ret, dispatched_none, Hp|].
    destruct (pos s >=? 2 + u8 pl); [|apply wp_ret, dispatched_none, Hp].
    apply wp_bind, wp_modify. apply wp_bind, wp_sub. intros _ _ _.
    apply wp_bind. eapply wp_keeps; [apply framing_handleEventData|].
    intros e s1 F. apply wp_ret. eapply dispatched_after; [|exact F]. lia. }
  destruct (u8 t =? hciSynchronousDataPkt).
  { destruct (pos s >? 3); [|apply wp_ret, dispatched_none, Hp].
    apply wp_bind, wp_idx. intros pl. pose proof (u8_range pl) as Hl.
    apply wp_bind, wp_modify. apply wp_ret.
    eapply dispatched_after; [|apply framing_refl]. lia. }
  apply wp_ret.
  destruct s as [bf ps en wb co cs cr sc ad cd mp pp rxs tr nw].
  unfold dispatched. cbn in *. repeat split; try assumption; discriminate.
Qed.

Ltac fields s := destruct s as [bf ps en wb co cs cr sc ad cd mp pp rxs tr nw].

Ltac flat :=
  cbv beta iota delta
    [set_buf set_pos set_end set_rx set_trace set_now
     buf pos end_ rx now trace writebuf fst snd flags scanning maxPkt] in *.

Ltac wstep :=
  cbv beta;
  lazymatch goal with
  | |- wp (bind _ _) _ _ => apply wp_bind
  | |- wp (modify _) _ _ => apply wp_modify
  | |- wp (gets _) _ _ => apply wp_gets
  | |- wp (ret _) _ _ => apply wp_ret
  | |- wp (sub _ _ _) _ _ => apply wp_sub; intros _ _ _
  end.

Ltac wdone := repeat wstep; flat; repeat split; try tauto; try lia.

Lemma pollSwitch_wp r s :
  buffers_ok s -> 0 <= pos s -> 0 <= end_ s <= bufCap ->
  (fst r = false -> pos s <= end_ s) ->
  wp (pollSwitch r) s (switched s r).
Proof.
  intros Hb Hp He Hc. unfold pollSwitch, dropBuffer, sleep.
  fields s. destruct r as [d err].
  unfold switched, buffers_ok, cursor_ok, bufCap in *.
  cbn [fst snd buf pos end_ rx writebuf] in Hb, Hp, He, Hc. cbn [fst snd].
  destruct (resync err); [wdone|].
  destruct err as [e|]; [wdone|].
  destruct d.
  - do 4 wstep. cbn [end_ pos].
    destruct (Z.gtb_spec en ps).
    + wdone. unfold len in *. rewrite copy_into_length. tauto.
    + wdone.
  - do 4 wstep. cbn [end_ pos]. specialize (Hc eq_refl).
    destruct (Z.gtb_spec ps en); wdone.
Qed.

(** The part of a turn behind the read. *)
Lemma pollTail_wp C s :
  buffers_ok s -> 0 <= pos s -> pos s < end_ s -> end_ s <= bufCap ->
  wp (modify (fun s => set_pos (pos s + 1) s) ;;
      r <- processPacket C ;; pollSwitch r) s
     (fun t s2 =>
        buffers_ok s2 /\ cursor_ok s2 /\ rx s2 = rx s /\ flags s2 = flags s /\
        match t with
        | Again => end_ s2 - pos s2 < end_ s - pos s
        | Return _ => True
        end).
Proof.
  intros Hb Hp Hlt He. apply wp_bind, wp_modify. cbv beta.
  apply wp_bind.
  eapply wp_mono; [apply processPacket_wp|].
  { fields s. flat. lia. }
  intros r s1 (D1 & D2 & D3 & D4 & D7 & D5 & D6).
  assert (Hb1 : buffers_ok s1).
  { fields s. unfold buffers_ok, len in *. flat. rewrite D1, D4. exact Hb. }
  assert (He1 : end_ s1 = end_ s) by (fields s; flat; exact D2).
  assert (Hr1 : rx s1 = rx s) by (fields s; flat; exact D3).
  assert (Hf1 : flags s1 = flags s) by (fields s; flat; exact D7).
  assert (Hp1 : fst r = false -> pos s1 = pos s + 1).
  { intros Hf. destruct (D6 Hf) as [_ E]. fields s. flat. exact E. }
  clear D1 D2 D3 D4 D6 D7.
  eapply wp_mono; [apply pollSwitch_wp|].
  - exact Hb1.
  - exact D5.
  - lia.
  - intros Hf. rewrite (Hp1 Hf). lia.
  - intros t s2 (S1 & S2 & S3 & S5 & S4).
    split; [exact S1|]. split; [exact S2|]. split; [congruence|].
    split; [congruence|].
    destruct t; [|exact I].
    destruct S4 as [[E1 E2]|(Hf & E1 & E2)].
    + lia.
    + rewrite E1, E2, He1, (Hp1 Hf). lia.
Qed.

Lemma pollTurn_wp C s :
  buffers_ok s -> cursor_ok s -> rx s <> [] \/ pos s < end_ s ->
  wp (pollTurn C) s (turned s).
Proof.
  intros Hb Hc Hgo. unfold pollTurn, Buffered.
  apply wp_bind, wp_gets.
  destruct (rx s) as [|x rest] eqn:Erx.
  - (* nothing waits: no read *)
    destruct Hgo as [Hgo|Hgo]; [congruence|].
    change (len (@nil byte) >? 0) with false. cbv iota.
    apply wp_bind, wp_ret.
    eapply wp_mono; [apply pollTail_wp; unfold cursor_ok in Hc; try tauto; lia|].
    intros t s2 (T1 & T2 & T3 & T5 & T4). unfold turned.
    split; [exact T1|]. split; [exact T2|]. split; [exact T5|].
    destruct t; [|exact I]. split; [congruence|]. intros _. exact T4.
  - (* the read takes all the bytes that wait *)
    assert (Hav : 0 < len (rx s)) by (rewrite Erx; unfold len; cbn [length]; lia).
    rewrite <- Erx.
    destruct (Z.gtb_spec (len (rx s)) 0) as [_|]; [|lia].
    pose proof (aligned_spec _ Hav) as [_ [Hal _]].
    unfold pollRead. apply wp_bind. apply wp_bind, wp_gets.
    apply wp_bind, wp_sub. intros H0 H1 H2.
    unfold hbuf, scap, bufCap in H2. cbn [lo] in H2.
    unfold transport_Read, slen, hbuf. cbn [lo hi].
    replace (0 + (end_ s + aligned (len (rx s))) - (0 + end_ s))
      with (aligned (len (rx s))) by lia.
    unfold wp at 1, bind at 1.
    destruct (tr_read_err C (aligned (len (rx s)))) as [e|].
    { cbn [snd]. unfold ret at 1. cbv beta iota. unfold wp, ret.
      unfold turned. fields s. unfold buffers_ok, cursor_ok in *. flat. tauto. }
    cbn [snd fst]. 
    change (wp (modify (fun s0 => set_pos (pos s0 + 1) s0) ;;
                r <- processPacket C ;; pollSwitch r)
              (set_end (end_ s + Z.min (aligned (len (rx s))) (len (rx s)))
                 (set_trace (trace s ++ [EvRead (aligned (len (rx s)))
                     (firstn (Z.to_nat (Z.min (aligned (len (rx s))) (len (rx s)))) (rx s))])
                 (set_rx (skipn (Z.to_nat (Z.min (aligned (len (rx s))) (len (rx s)))) (rx s))
                 (set_buf (store (buf s) (0 + end_ s)
                    (firstn (Z.to_nat (Z.min (aligned (len (rx s))) (len (rx s)))) (rx s))) s))))
              (turned s)).
    rewrite Z.min_r by lia.
    replace (Z.to_nat (len (rx s))) with (length (rx s)) by (unfold len; lia).
    rewrite firstn_all, skipn_all.
    eapply wp_mono; [apply pollTail_wp|].
    + unfold buffers_ok in *. fields s. flat. split; [|tauto].
      unfold len. rewrite store_length; [tauto|lia|]. unfold bufCap, len in *. lia.
    + unfold cursor_ok in Hc. fields s. flat. tauto.
    + unfold cursor_ok in Hc. fields s. flat. lia.
    + fields s. flat. unfold bufCap. lia.
    + intros t s2 (T1 & T2 & T3 & T5 & T4). unfold turned.
      split; [exact T1|]. split; [exact T2|].
      split; [rewrite T5; fields s; flat; reflexivity|].
      destruct t; [|exact I]. split.
      * rewrite T3. fields s. flat. reflexivity.
      * intros E. congruence.
Qed.

Lemma pollLoop_wp C :
  forall fuel s,
    buffers_ok s -> cursor_ok s ->
    (rx s = [] -> end_ s - pos s < Z.of_nat fuel) ->
    (rx s <> [] -> bufCap + 1 < Z.of_nat fuel) ->
    wp (pollLoop C fuel) s
       (fun _ s1 => buffers_ok s1 /\ cursor_ok s1 /\ flags s1 = flags s).
Proof.
  induction fuel as [|f IH]; intros s Hb Hc Hm Hn.
  - unfold wp. cbn [pollLoop].
    destruct (rx s) as [|x rest] eqn:Erx.
    + specialize (Hm eq_refl). change (len (@nil byte) >? 0) with false.
      cbn [orb]. destruct (Z.gtb_spec (end_ s) (pos s)); [lia|]. tauto.
    + unfold bufCap in Hn. specialize (Hn ltac:(discriminate)). lia.
  - unfold wp. cbn [pollLoop].
    destruct ((len (rx s) >? 0) || (end_ s >? pos s)) eqn:Ego; [|tauto].
    assert (Hgo : rx s <> [] \/ pos s < end_ s).
    { apply orb_true_iff in Ego as [E|E].
      - left. intros E0. rewrite E0 in E. discriminate.
      - right. lia. }
    change (wp (t <- pollTurn C ;;
                match t with
                | Again => pollLoop C f
                | Return err => ret err
                end) s
              (fun _ s1 => buffers_ok s1 /\ cursor_ok s1 /\ flags s1 = flags s)).
    apply wp_bind. eapply wp_mono; [apply pollTurn_wp; assumption|].
    intros t s1 (T1 & T2 & T5 & T3). destruct t as [|err].
    + destruct T3 as [T3 T4].
      eapply wp_mono; [apply IH; try assumption|].
      * intros _. destruct (rx s) as [|x rest] eqn:Erx.
        -- specialize (T4 eq_refl). specialize (Hm eq_refl). lia.
        -- specialize (Hn ltac:(discriminate)).
           unfold cursor_ok in T2. lia.
      * intros E. contradiction.
      * intros e s2 (U1 & U2 & U3).
        split; [exact U1|]. split; [exact U2|]. congruence.
    + apply wp_ret. tauto.
Qed.

Lemma pollLoop_more C :
  forall f s, pollLoop C f s <> Spin ->
  forall k, pollLoop C (f + k) s = pollLoop C f s.
Proof.
  induction f as [|f IH]; intros s H k.
  - cbn [pollLoop] in H. cbn [Nat.add].
    destruct k as [|k]; [reflexivity|]. cbn [pollLoop].
    destruct ((len (rx s) >? 0) || (end_ s >? pos s)); [congruence|reflexivity].
  - cbn [Nat.add pollLoop] in *.
    destruct ((len (rx s) >? 0) || (end_ s >? pos s)); [|reflexivity].
    unfold bind in *. destruct (pollTurn C s) as [t s1| |]; try reflexivity.
    destruct t; [|reflexivity]. apply IH. exact H.
Qed.

(** X6.  [poll] ends and keeps the data model.  From an engine whose two
    buffers have the capacity [newHCI] gave them and whose cursors satisfy
    [0 <= pos <= end <= capacity], and with no byte reaching the transport
    during the call, [poll] ends: with a panic, or with a result and an
    engine that satisfies the same two conditions and has the scanning
    flag and the packet limit it had.  The loop takes all
    waiting bytes in its first read and then moves the cursor by one per
    turn, so the budget of the model is never what stops it: a larger
    budget gives the same outcome. *)
Theorem poll_returns C s :
  buffers_ok s -> cursor_ok s ->
  poll C s <> Spin /\
  (forall e s1, poll C s = Val e s1 ->
     buffers_ok s1 /\ cursor_ok s1 /\ flags s1 = flags s) /\
  (forall k, pollLoop C (pollFuel + k) s = poll C s).
Proof.
  intros Hb Hc.
  assert (W : wp (poll C) s
                (fun _ s1 => buffers_ok s1 /\ cursor_ok s1 /\ flags s1 = flags s)).
  { apply pollLoop_wp; try assumption.
    - intros _. unfold cursor_ok, bufCap, pollFuel in *. lia.
    - intros _. unfold bufCap, pollFuel. lia. }
  assert (N : poll C s <> Spin).
  { unfold wp in W. destruct (poll C s); [discriminate|discriminate|contradiction]. }
  split; [exact N|]. split.
  - intros e s1 E. unfold wp in W. rewrite E in W. exact W.
  - intros k. apply pollLoop_more. exact N.
Qed.

Lemma poll_returns_witness :
  let s := newHCI resetComplete 0 in
  poll quiet s <> Spin /\
  (forall e s1, poll quiet s = Val e s1 ->
     buffers_ok s1 /\ cursor_ok s1 /\ flags s1 = flags s) /\
  (forall k, pollLoop quiet (pollFuel + k) s = poll quiet s).
Proof.
  apply (poll_returns quiet (newHCI resetComplete 0)).
  - split; vm_compute; reflexivity.
  - unfold cursor_ok, bufCap. simpl. lia.
Defined.

(** ** Advertising and scan-response data *)

Lemma copied_length room src : length (copied room src) = room.
Proof. unfold copied, zeros. rewrite copy_into_length. apply repeat_length. Qed.

Lemma skipn_zeros n m : skipn n (zeros m) = zeros (m - n).
Proof.
  unfold zeros. revert m. induction n as [|n IH]; intros m.
  - rewrite Nat.sub_0_r. reflexivity.
  - destruct m as [|m]; [reflexivity|]. cbn [repeat skipn Nat.sub]. apply IH.
Qed.

Lemma copied_eq room src :
  copied room src = firstn room src ++ zeros (room - length src).
Proof.
  unfold copied, copy_into. unfold zeros at 1. rewrite repeat_length.
  f_equal. apply skipn_zeros.
Qed.

(** X7.  The parameter block of [leSetAdvertisingData] and
    [leSetScanResponseData] is 32 bytes whatever the data: its first byte
    is the length of the data modulo 256 and the other 31 are the data,
    padded with zeros or cut at 31 bytes.  No length is checked: data
    longer than 31 bytes gives the block of its first 31 bytes under a
    length byte that announces more. *)
Theorem advBlock_truncates (data : list byte) :
  length (advBlock data) = 32%nat /\
  u8 (hd x00 (advBlock data)) = len data mod 256 /\
  tl (advBlock data) = firstn 31 data ++ zeros (31 - length data).
Proof.
  unfold advBlock. cbn [hd tl length]. rewrite copied_length.
  repeat split.
  - apply u8_byte_of.
  - apply copied_eq.
Qed.

(** ** The LE buffer size *)

(** X8.  [readLeBufferSize] never hands ATT an MTU below 27: what
    [att.setMaxMTU] would answer to a smaller value plays no part in any
    run, since every value goes through [max 27] first. *)
Theorem readLeBufferSize_mtu_floor C (setMaxMTU : Z -> option nat) script s :
  readLeBufferSize C setMaxMTU script s =
  readLeBufferSize C (fun v => setMaxMTU (Z.max 27 v)) script s.
Proof.
  unfold readLeBufferSize, bind.
  destruct (sendCommand C script _ s) as [[e|] s1| |]; try reflexivity.
  destruct (Uint16_from hbuf 0 s1) as [v s2| |]; try reflexivity.
  destruct (idx hbuf 2 s2) as [mp s3| |]; try reflexivity.
  unfold modify, ret.
  destruct (Z.ltb_spec v 27).
  - rewrite Z.max_l by lia. reflexivity.
  - rewrite Z.max_r by lia. reflexivity.
Qed.

(** X9.  The reply to LE Read Buffer Size is not what [readLeBufferSize]
    reads.  A fresh engine sends the command and the controller answers
    with one CommandComplete frame, 04 0E 07 n 02 20 st lo hi k, where
    lo hi is the packet length it reports and k the packet count.  The
    call succeeds, but the length is read at [h.buf[0:]] and the count at
    [h.buf[2]], the head of the packet buffer, where the frame starts with
    its tag, its event code and its parameter length: ATT gets the MTU
    0x0E04 and [maxPkt] is 7, whatever lo, hi and k are, while
    [h.cmdResponse] does show the reply. *)
Theorem readLeBufferSize_reads_frame_head
    (setMaxMTU : Z -> option nat) (n st lo_ hi_ k : byte) :
  let reply := [x04; x0e; x07; n; x02; x20; st; lo_; hi_; k] in
  let run := readLeBufferSize quiet setMaxMTU [mkTick 0 reply] (newHCI [] 0) in
  answer run = Some (ext (setMaxMTU 0x0e04)) /\
  after run maxPkt = Some 7 /\
  after run response = Some [x07; n; x02; x20; st; lo_; hi_; k].
Proof.
  cbv zeta. repeat split; vm_compute; reflexivity.
Qed.

(** ** The scanning flag *)

Lemma poll_wp C s :
  buffers_ok s -> cursor_ok s ->
  wp (poll C) s (fun _ s1 => buffers_ok s1 /\ cursor_ok s1 /\ flags s1 = flags s).
Proof.
  intros Hb Hc. apply pollLoop_wp; try assumption.
  - intros _. unfold cursor_ok, bufCap, pollFuel in *. lia.
  - intros _. unfold bufCap, pollFuel. lia.
Qed.

Lemma waitLoop_keeps C opcode start :
  forall script s e s1,
    buffers_ok s -> cursor_ok s ->
    waitLoop C script opcode start s = Val e s1 ->
    buffers_ok s1 /\ cursor_ok s1 /\ flags s1 = flags s.
Proof.
  induction script as [|t script IH]; intros s e s1 Hb Hc; cbn [waitLoop].
  - destruct (negb (cmdCompleteOpcode s =? opcode)); [discriminate|].
    intros H. inversion H; subst. tauto.
  - destruct (negb (cmdCompleteOpcode s =? opcode)).
    2:{ intros H. inversion H; subst. tauto. }
    unfold worldTurn. rewrite bind_modify.
    set (s' := set_now (now s + elapse t) (set_rx (rx s ++ incoming t) s)).
    assert (Hb' : buffers_ok s') by (subst s'; fields s; exact Hb).
    assert (Hc' : cursor_ok s') by (subst s'; fields s; exact Hc).
    assert (Hf' : flags s' = flags s) by (subst s'; fields s; reflexivity).
    pose proof (poll_wp C s' Hb' Hc') as W. unfold wp in W.
    unfold bind at 1.
    destruct (poll C s') as [err s2| |]; try discriminate.
    destruct W as (W1 & W2 & W3).
    destruct err as [x|].
    + intros H. inversion H; subst.
      split; [exact W1|]. split; [exact W2|]. congruence.
    + rewrite bind_gets.
      destruct (Z.quot (now s2 - start) second >? 3).
      * intros H. inversion H; subst.
        split; [exact W1|]. split; [exact W2|]. congruence.
      * intros H. apply IH in H; try assumption.
        destruct H as (H1 & H2 & H3).
        split; [exact H1|]. split; [exact H2|]. congruence.
Qed.

Lemma sent_keeps opcode params s :
  4 + len params <= len (writebuf s) -> buffers_ok s -> cursor_ok s ->
  flags (sent opcode params s) = flags s /\
  buffers_ok (noPending (sent opcode params s)) /\
  cursor_ok (noPending (sent opcode params s)) /\
  flags (noPending (sent opcode params s)) = flags s.
Proof.
  intros Hl [Hb1 Hb2] Hc.
  pose proof (sent_writebuf_len opcode params s Hl) as Hw.
  unfold buffers_ok, cursor_ok, flags, noPending, sent in *.
  fields s.
  cbv beta iota delta
    [set_trace set_writebuf set_cmdCompleteOpcode set_cmdCompleteStatus
     buf pos end_ writebuf scanning maxPkt] in *.
  repeat split; try tauto; try lia.
Qed.

(** X10.  [leSetScanEnable] records the request before it sends the command
    and never takes it back: however the call returns (controller
    answered, transport refused the frame, [poll] failed, timeout), the
    scanning flag is the requested one. *)
Theorem leSetScanEnable_sets_flag C script enabled duplicates s e s1 :
  buffers_ok s -> cursor_ok s ->
  leSetScanEnable C script enabled duplicates s = Val e s1 ->
  scanning s1 = enabled.
Proof.
  intros Hb Hc. unfold leSetScanEnable. rewrite bind_modify.
  assert (Hb' : buffers_ok (set_scanning enabled s)) by (fields s; exact Hb).
  assert (Hc' : cursor_ok (set_scanning enabled s)) by (fields s; exact Hc).
  assert (Hs' : flags (set_scanning enabled s) = (enabled, maxPkt s))
    by (fields s; reflexivity).
  revert Hb' Hc' Hs'. generalize (set_scanning enabled s). intros s' Hb' Hc' Hs'.
  rewrite sendCommandWithParams_eq.
  destruct (Z.leb_spec (4 + len [bit enabled; bit duplicates]) (len (writebuf s')))
    as [Hl|]; [|discriminate].
  destruct (sent_keeps (opcodeOf ogfLECtrl ocfLESetScanEnable)
              [bit enabled; bit duplicates] s' Hl Hb' Hc') as (K0 & K1 & K2 & K3).
  destruct (tr_write_err C _).
  - intros H. inversion H; subst. rewrite Hs' in K0.
    unfold flags in K0. congruence.
  - intros H. apply waitLoop_keeps in H; [|assumption|assumption].
    destruct H as (_ & _ & H). rewrite K3, Hs' in H.
    unfold flags in H. congruence.
Qed.

Lemma leSetScanEnable_sets_flag_witness :
  scanning
    (set_now (5 * second)
       (noPending (sent (opcodeOf ogfLECtrl ocfLESetScanEnable) [x01; x00]
                     (set_scanning true (newHCI [] 0))))) = true.
Proof.
  apply (leSetScanEnable_sets_flag quiet [mkTick (5 * second) []] true false
           (newHCI [] 0) (Some ErrHCITimeout)).
  - split; vm_compute; reflexivity.
  - unfold cursor_ok, bufCap. simpl. lia.
  - vm_compute. reflexivity.
Defined.

(** ** Blocking commands and the data model *)

(** X11.  Every blocking command keeps the data model.  From an engine whose
    buffers have their capacity and whose cursors are in order,
    [sendCommandWithParams] (and with it every command function built on
    it), however it returns, leaves an engine of the same kind, with the
    scanning flag and the packet limit untouched. *)
Theorem command_keeps_model C script opcode params s e s1 :
  buffers_ok s -> cursor_ok s ->
  sendCommandWithParams C script opcode params s = Val e s1 ->
  buffers_ok s1 /\ cursor_ok s1 /\ flags s1 = flags s.
Proof.
  intros Hb Hc. rewrite sendCommandWithParams_eq.
  destruct (Z.leb_spec (4 + len params) (len (writebuf s))) as [Hl|]; [|discriminate].
  destruct (sent_keeps opcode params s Hl Hb Hc) as (K0 & K1 & K2 & K3).
  destruct (tr_write_err C _).
  - intros H. inversion H; subst. split; [|split; [|exact K0]].
    + unfold buffers_ok, noPending in *. fields s. exact K1.
    + unfold cursor_ok, noPending in *. fields s. exact K2.
  - intros H. apply waitLoop_keeps in H; [|assumption|assumption].
    destruct H as (H1 & H2 & H3). split; [exact H1|]. split; [exact H2|]. congruence.
Qed.

Lemma command_keeps_model_witness :
  let s1 := set_now (5 * second) (noPending (sent opReset [] (newHCI [] 0))) in
  buffers_ok s1 /\ cursor_ok s1 /\ flags s1 = flags (newHCI [] 0).
Proof.
  apply (command_keeps_model quiet [mkTick (5 * second) []] opReset []
           (newHCI [] 0) (Some ErrHCITimeout)).
  - split; vm_compute; reflexivity.
  - unfold cursor_ok, bufCap. simpl. lia.
  - vm_compute. reflexivity.
Defined.

(** ** Resynchronisation *)

(** The first read of [poll] takes every byte that waits. *)
Lemma pollRead_all C s :
  0 <= end_ s -> 0 < len (rx s) ->
  end_ s + aligned (len (rx s)) <= bufCap ->
  tr_read_err C (aligned (len (rx s))) = None ->
  pollRead C (len (rx s)) s =
    Val None
      (set_end (end_ s + len (rx s))
         (set_trace (trace s ++ [EvRead (aligned (len (rx s))) (rx s)])
            (set_rx [] (set_buf (store (buf s) (end_ s) (rx s)) s)))).
Proof.
  intros He Hn Hc Hrd.
  pose proof (aligned_spec _ Hn) as [_ [Ha1 Ha2]].
  unfold pollRead. rewrite bind_gets.
  unfold sub, hbuf, scap. cbn [lo].
  destruct (Z.leb_spec 0 (end_ s)) as [_|]; [|lia].
  destruct (Z.leb_spec (end_ s) (end_ s + aligned (len (rx s)))) as [_|]; [|lia].
  destruct (Z.leb_spec (end_ s + aligned (len (rx s))) (bufCap - 0)) as [_|]; [|lia].
  cbn [andb]. rewrite bind_ret.
  unfold bind, transport_Read, slen. cbn [lo hi].
  replace (0 + (end_ s + aligned (len (rx s))) - (0 + end_ s))
    with (aligned (len (rx s))) by lia.
  rewrite Hrd, Z.min_r by lia.
  replace (Z.to_nat (len (rx s))) with (length (rx s)) by (unfold len; lia).
  rewrite firstn_all, skipn_all. cbn [snd fst]. unfold modify, ret.
  fields s. reflexivity.
Qed.

Lemma store_head (l : list byte) (x : byte) (rest : list byte) :
  nth_error (store l 0 (x :: rest)) 0 = Some x.
Proof. reflexivity. Qed.

Lemma pollLoop_unknown_tag C (f : nat) s (t : byte) (rest : list byte) :
  len (buf s) = bufCap -> pos s = 0 -> end_ s = 0 ->
  rx s = t :: rest -> len (t :: rest) <= 253 ->
  u8 t <> hciACLDataPkt -> u8 t <> hciEventPkt -> u8 t <> hciSynchronousDataPkt ->
  tr_read_err C (aligned (len (t :: rest))) = None ->
  pollLoop C (S (S f)) s =
    Val None
      (set_now (now s + 5 * millisecond)
         (set_trace (trace s ++ [EvRead (aligned (len (t :: rest))) (t :: rest)])
            (set_rx [] (set_buf (store (buf s) 0 (t :: rest)) s)))).
Proof.
  intros Hb Hp He Hrx Hn T2 T4 T3 Hrd.
  fields s. cbn [buf pos end_ rx] in Hb, Hp, He, Hrx. subst ps en rxs.
  assert (Hpos : 0 < len (t :: rest)) by (unfold len; cbn [length]; lia).
  pose proof (aligned_spec _ Hpos) as [_ [Ha1 Ha2]].
  match goal with |- pollLoop _ _ ?S = _ => pose proof (pollRead_all C S) as R end.
  cbn [end_ rx] in R.
  specialize (R ltac:(lia) Hpos ltac:(unfold bufCap; lia) Hrd).
  cbn [pollLoop]. cbn [rx end_ pos].
  destruct (Z.gtb_spec (len (t :: rest)) 0) as [_|]; [|lia]. cbn [orb].
  unfold pollTurn at 1, Buffered. rewrite bind_assoc, bind_gets. cbn [rx].
  destruct (Z.gtb_spec (len (t :: rest)) 0) as [_|]; [|lia].
  rewrite bind_assoc. rewrite (bind_run _ _ _ _ _ R). clear R. norm.
  rewrite bind_assoc, bind_modify. norm.
  unfold processPacket. rewrite !bind_assoc.
  unfold bind at 1, idx at 1, hbuf, slen, bufCap. cbn [lo hi buf].
  change ((0 <=? 0) && (0 <? 256 - 0)) with true. cbv iota.
  change (Z.to_nat (0 + 0)) with 0%nat. rewrite store_head.
  rewrite bind_assoc, bind_gets, bind_assoc, bind_gets.
  destruct (Z.eqb_spec (u8 t) hciACLDataPkt) as [E|_]; [contradiction|].
  destruct (Z.eqb_spec (u8 t) hciEventPkt) as [E|_]; [contradiction|].
  destruct (Z.eqb_spec (u8 t) hciSynchronousDataPkt) as [E|_]; [contradiction|].
  rewrite bind_ret. unfold pollSwitch. cbn [fst snd resync].
  unfold dropBuffer, sleep.
  repeat first [rewrite bind_assoc | rewrite bind_modify | rewrite bind_ret]. norm.
  change (len (@nil byte) >? 0) with false. change (0 >? 0) with false.
  reflexivity.
Qed.

(** X12.  A byte that is no packet tag costs everything read with it.  The
    framer is idle ([pos = end = 0]) and the transport holds [t :: rest],
    at most 253 bytes, where [t] is none of the tags 2 (ACL), 3
    (synchronous) and 4 (event).  [poll] reads all of it in one read,
    finds the tag unknown, drops the buffer, sleeps 5 ms and, with nothing
    left to read, returns nil: the caller sees a success, no decoder
    ran, and the bytes behind [t], complete frames included, are gone. *)
Theorem unknown_tag_drops_all C s (t : byte) (rest : list byte) :
  len (buf s) = bufCap -> pos s = 0 -> end_ s = 0 ->
  rx s = t :: rest -> len (t :: rest) <= 253 ->
  u8 t <> hciACLDataPkt -> u8 t <> hciEventPkt -> u8 t <> hciSynchronousDataPkt ->
  tr_read_err C (aligned (len (t :: rest))) = None ->
  poll C s =
    Val None
      (set_now (now s + 5 * millisecond)
         (set_trace (trace s ++ [EvRead (aligned (len (t :: rest))) (t :: rest)])
            (set_rx [] (set_buf (store (buf s) 0 (t :: rest)) s)))).
Proof. exact (pollLoop_unknown_tag C 518 s t rest). Qed.

Lemma unknown_tag_drops_all_witness :
  poll quiet (newHCI (xff :: resetComplete) 0) =
    Val None
      (set_now (5 * millisecond)
         (set_trace [EvRead 8 (xff :: resetComplete)]
            (set_rx [] (set_buf (store (zeros 256) 0 (xff :: resetComplete))
                          (newHCI (xff :: resetComplete) 0))))).
Proof.
  apply (unknown_tag_drops_all quiet (newHCI (xff :: resetComplete) 0) xff resetComplete).
  - vm_compute. reflexivity.
  - reflexivity.
  - reflexivity.
  - reflexivity.
  - vm_compute. discriminate.
  - vm_compute. discriminate.
  - vm_compute. discriminate.
  - vm_compute. discriminate.
  - reflexivity.
Defined.

(** ** Dispatch of an event frame *)

(** X13.  The framer asks for more bytes while [end < 2 + plen] and
    dispatches from [pos >= 2 + plen] on, one byte before the frame
    of [3 + plen] bytes is complete.  A CommandComplete frame of declared
    length 4, 04 0E 04 n o1 o2 st, whose status byte has not arrived yet,
    is decoded all the same: the opcode is taken from the frame, the
    status from the byte the buffer held before (0 in a fresh engine),
    and the buffer is emptied, so that the late status byte will be read
    as the tag of the next packet. *)
Theorem event_dispatched_one_byte_early (n o1 o2 : byte) :
  let run := poll quiet (newHCI [x04; x0e; x04; n; o1; o2] 0) in
  answer run = Some None /\
  after run cmdCompleteOpcode = Some (le16 o1 o2) /\
  after run cmdCompleteStatus = Some 0 /\
  after run response = Some [x04; n; o1; o2; x00] /\
  after run (fun t => (pos t, end_ t, rx t)) = Some (0, 0, []).
Proof.
  cbv zeta. repeat split; vm_compute; reflexivity.
Qed.

(** ** Advertising reports *)

Lemma window_length (l : list byte) (b : slice) :
  0 <= lo b -> lo b <= hi b -> hi b <= len l ->
  length (window l b) = Z.to_nat (slen b).
Proof.
  intros H0 H1 H2. unfold window, slen, len in *.
  rewrite length_firstn, length_skipn. lia.
Qed.

Ltac bounds := unfold slen, scap, bufCap in *; cbn [lo hi] in *; lia.

Lemma idx_list b i (l : list byte) t :
  slice_ok b -> len l = bufCap -> buf t = l -> 0 <= i < slen b ->
  idx b i t = Val (nth (Z.to_nat (lo b + i)) l x00) t.
Proof.
  intros Hb Hl Ht Hi.
  exact (idx_run b i (set_buf l t) t Hb Hl Ht Hi).
Qed.

(** Run the next action of the goal; reads are made on the frame [b] of
    the buffer named by [Hl : len l = bufCap]. *)
Ltac fwd Hb Hl :=
  match type of Hl with
  | len ?l = _ =>
      match goal with
      | |- context [bind (idx ?b ?i) ?k ?t] =>
          rewrite (bind_run (idx b i) k t _ t
                     (idx_list b i l t Hb Hl eq_refl ltac:(bounds)))
      | |- context [bind (from ?b ?i) ?k ?t] =>
          rewrite (bind_run (from b i) k t _ t (from_ok b i t ltac:(bounds)))
      | |- context [bind (sub ?b ?i ?j) ?k ?t] =>
          rewrite (bind_run (sub b i j) k t _ t
                     (sub_ok b i j t ltac:(bounds) ltac:(bounds)))
      | |- context [bind (modify ?f) ?k ?t] => rewrite bind_modify
      | |- context [bind (gets ?f) ?k ?t] => rewrite bind_gets
      | |- context [bind (ret ?a) ?k ?t] => rewrite bind_ret
      | |- context [bind (bind ?m ?j) ?k ?t] => rewrite bind_assoc
      end
  end; norm.

Lemma copy_into_full (dst src : list byte) :
  length src = length dst -> copy_into dst src = src.
Proof.
  intros H. unfold copy_into. rewrite <- H, firstn_all, skipn_all2 by lia.
  apply app_nil_r.
Qed.

(** X14.  An LE Advertising Report of at least 13 bytes.  With [e = buf[12]],
    the decoder answers InvalidPacket exactly when [e > 31] or the frame is
    shorter than [14 + e] (the wrap-around of [13 + e + 1] in uint8
    changes nothing, since it needs [e > 31]).  Otherwise it succeeds:
    [eirLength] is [e], the first [e] bytes of [eirData] are
    [buf[13:13+e]] and the bytes behind them are still those of the
    report before, and [rssi] is [int8(buf[13+e])] when the report count
    is 1 and 0 otherwise. *)
Theorem advertisingReport_decoded C b s :
  slice_ok b -> len (buf s) = bufCap -> 13 <= slen b ->
  at_ s b 0 = evtLEMetaEvent -> at_ s b 2 = leMetaEventAdvertisingReport ->
  length (eirData (advData s)) = 31%nat ->
  let e := at_ s b 12 in
  let run := handleEventData C b s in
  if (31 <? e) || (slen b <? 14 + e)
  then answer run = Some (Some ErrHCIInvalidPacket)
  else
    answer run = Some None /\
    after run (fun t => eirLength (advData t)) = Some e /\
    after run (fun t => eirData (advData t)) =
      Some (window (buf s) (mkSlice (lo b + 13) (lo b + (13 + e)))
            ++ skipn (Z.to_nat e) (eirData (advData s))) /\
    after run (fun t => rssi (advData t)) =
      Some (if at_ s b 3 =? 0x01 then int8 (at_ s b (13 + e)) else 0).
Proof.
  intros Hb Hl H13 He Hs H31 e run.
  assert (Hrun : run = onAdvertisingReport b s).
  { unfold run. rewrite (handleEventData_head C b s Hb Hl ltac:(lia)).
    cbv zeta. rewrite He. cbn [Z.eqb evtLEMetaEvent evtDisconnComplete
      evtEncryptionChange evtCmdComplete evtCmdStatus evtNumCompPkts Pos.eqb].
    unfold onLEMetaEvent.
    rewrite (bind_run _ _ _ _ _ (idx_run b 2 s s Hb Hl eq_refl ltac:(lia))).
    cbv zeta. change (u8 (byteAt s b 2)) with (at_ s b 2). rewrite Hs.
    reflexivity. }
  rewrite Hrun. clear Hrun run He Hs.
  assert (Hr : 0 <= e < 256) by apply u8_range.
  pose proof Hb as (Hb0 & Hb1 & Hb2).
  unfold onAdvertisingReport, upd_adv.
  unfold at_, at16, byteAt in *.
  open_state s. norm_in H31. norm_in Hl. norm_in e. norm_in Hr. norm.
  do 13 fwd Hb Hl.
  change (u8 (nth (Z.to_nat (lo b + 12)) bf x00)) with e.
  clearbody e.
  destruct (Z.ltb_spec 31 e) as [Hbig|Hsmall]; cbn [orb].
  { destruct (Z.gtb_spec e 31) as [_|]; [|lia]. rewrite orb_true_r. reflexivity. }
  destruct (Z.gtb_spec e 31) as [|_]; [lia|]. rewrite orb_false_r.
  unfold wrap8. rewrite !Z.mod_small by lia.
  replace (13 + e + 1) with (14 + e) by lia.
  destruct (Z.ltb_spec (slen b) (14 + e)) as [Hshort|Hfull].
  { destruct (Z.gtb_spec (14 + e) (slen b)) as [_|]; [|lia]. reflexivity. }
  destruct (Z.gtb_spec (14 + e) (slen b)) as [|_]; [lia|].
  assert (Heir : forall old : list byte, length old = 31%nat ->
            copy_into (firstn (Z.to_nat e) old)
              (window bf (mkSlice (lo b + 13) (lo b + (13 + e)))) =
            window bf (mkSlice (lo b + 13) (lo b + (13 + e)))).
  { intros old Ho. apply copy_into_full.
    rewrite window_length by (unfold bufCap in *; cbn [lo hi]; bounds).
    rewrite length_firstn, Ho. unfold slen. cbn [lo hi]. lia. }
  repeat fwd Hb Hl.
  match goal with
  | |- context [if ?c =? 1 then _ else _] => destruct (c =? 1)
  end;
    repeat fwd Hb Hl; unfold ret; cbn [answer after]; norm;
    rewrite (Heir _ H31); repeat split.
Qed.


Lemma advertisingReport_decoded_witness :
  let b := frame 46 in
  let s := holding fullReport in
  let e := at_ s b 12 in
  let run := handleEventData quiet b s in
  if (31 <? e) || (slen b <? 14 + e)
  then answer run = Some (Some ErrHCIInvalidPacket)
  else
    answer run = Some None /\
    after run (fun t => eirLength (advData t)) = Some e /\
    after run (fun t => eirData (advData t)) =
      Some (window (buf s) (mkSlice (lo b + 13) (lo b + (13 + e)))
            ++ skipn (Z.to_nat e) (eirData (advData s))) /\
    after run (fun t => rssi (advData t)) =
      Some (if at_ s b 3 =? 0x01 then int8 (at_ s b (13 + e)) else 0).
Proof.
  apply (advertisingReport_decoded quiet (frame 46) (holding fullReport)).
  - unfold slice_ok, frame, bufCap. simpl. lia.
  - vm_compute. reflexivity.
  - vm_compute. discriminate.
  - vm_compute. reflexivity.
  - vm_compute. reflexivity.
  - reflexivity.
Defined.

(** ** The framer at work *)

(** The end of a turn that only moves the cursor: the buffer holds the
    head of an event frame and the cursor has not reached its last
    byte. *)
Lemma tail_wait C s (plen : byte) :
  nth_error (buf s) 0 = Some x04 -> nth_error (buf s) 2 = Some plen ->
  0 <= pos s -> pos s + 1 <= end_ s ->
  pos s + 1 <= 2 \/ (2 + u8 plen <= end_ s /\ pos s + 1 < 2 + u8 plen) ->
  (modify (fun s => set_pos (pos s + 1) s) ;;
   r <- processPacket C ;; pollSwitch r) s =
    Val Again (set_now (now s + 1 * millisecond) (set_pos (pos s + 1) s)).
Proof.
  intros H0 H2 Hp He Hw.
  fields s. cbn [rx buf pos end_] in *.
  rewrite bind_modify. norm.
  unfold processPacket. rewrite bind_assoc.
  unfold bind at 1, idx at 1, hbuf, slen, bufCap. cbn [lo hi buf].
  change ((0 <=? 0) && (0 <? 256 - 0)) with true. cbv iota.
  change (Z.to_nat (0 + 0)) with 0%nat. rewrite H0.
  rewrite bind_assoc, bind_gets, bind_assoc, bind_gets. cbn [pos end_].
  change (u8 x04 =? hciACLDataPkt) with false.
  change (u8 x04 =? hciEventPkt) with true. cbv iota.
  unfold hciEvtLenPos.
  assert (Tail : forall S0 : state,
            pos S0 = ps + 1 -> end_ S0 = en ->
            pollSwitch (false, None) S0 =
              Val Again (set_now (now S0 + 1 * millisecond) S0)).
  { intros S0 P0 E0. unfold pollSwitch. cbn [fst snd resync].
    rewrite bind_gets, bind_gets, P0, E0.
    destruct (Z.gtb_spec (ps + 1) en) as [|_]; [lia|].
    unfold sleep. rewrite bind_modify. reflexivity. }
  destruct (Z.gtb_spec (ps + 1) 2) as [Hgt|Hle].
  - destruct Hw as [Hw|[Hw1 Hw2]]; [lia|].
    rewrite bind_assoc.
    unfold bind at 1, idx at 1, slen. cbn [lo hi buf].
    change ((0 <=? 2) && (2 <? 256 - 0)) with true. cbv iota.
    change (Z.to_nat (0 + 2)) with 2%nat. rewrite H2.
    destruct (Z.ltb_spec en (2 + u8 plen)) as [|_]; [lia|].
    destruct (Z.geb_spec (ps + 1) (2 + u8 plen)) as [|_]; [lia|].
    rewrite bind_ret. rewrite Tail by reflexivity. reflexivity.
  - rewrite bind_ret. rewrite Tail by reflexivity. reflexivity.
Qed.

Lemma turn_wait C s (plen : byte) :
  rx s = [] -> nth_error (buf s) 0 = Some x04 -> nth_error (buf s) 2 = Some plen ->
  0 <= pos s -> pos s + 1 <= end_ s ->
  pos s + 1 <= 2 \/ (2 + u8 plen <= end_ s /\ pos s + 1 < 2 + u8 plen) ->
  pollTurn C s =
    Val Again (set_now (now s + 1 * millisecond) (set_pos (pos s + 1) s)).
Proof.
  intros Hrx H0 H2 Hp He Hw.
  unfold pollTurn, Buffered. rewrite bind_gets, Hrx.
  change (len (@nil byte) >? 0) with false. cbv iota.
  rewrite bind_ret. apply (tail_wait C s plen); assumption.
Qed.

(** [k] such turns in a row. *)
Lemma turns_wait C (plen : byte) :
  forall (k : nat) (f : nat) s,
    rx s = [] -> nth_error (buf s) 0 = Some x04 ->
    nth_error (buf s) 2 = Some plen ->
    0 <= pos s -> 3 <= end_ s -> 2 + u8 plen <= end_ s ->
    pos s + Z.of_nat k <= Z.max 2 (1 + u8 plen) ->
    pollLoop C (k + f) s =
    pollLoop C f (set_now (now s + Z.of_nat k * millisecond)
                    (set_pos (pos s + Z.of_nat k) s)).
Proof.
  induction k as [|k IH]; intros f s Hrx H0 H2 Hp H3 He Hk.
  - cbn [Nat.add]. f_equal. fields s. unfold set_now, set_pos.
    cbn [now pos buf end_ writebuf
        cmdCompleteOpcode cmdCompleteStatus cmdResponse scanning advData
        connectData maxPkt pendingPkt rx trace Z.of_nat].
    f_equal; lia.
  - cbn [Nat.add pollLoop].
    destruct (Z.gtb_spec (end_ s) (pos s)) as [_|]; [|lia].
    rewrite orb_true_r.
    rewrite (bind_run _ _ _ _ _ (turn_wait C s plen Hrx H0 H2 Hp ltac:(lia) ltac:(lia))).
    rewrite IH.
    + f_equal. fields s. unfold set_now, set_pos. cbn [now pos buf end_ writebuf
        cmdCompleteOpcode cmdCompleteStatus cmdResponse scanning advData
        connectData maxPkt pendingPkt rx trace].
      f_equal; lia.
    + fields s. exact Hrx.
    + fields s. exact H0.
    + fields s. exact H2.
    + fields s. norm. norm_in Hp. lia.
    + fields s. exact H3.
    + fields s. exact He.
    + fields s. norm. norm_in Hk. rewrite Nat2Z.inj_succ in Hk. lia.
Qed.

Lemma store_prefix (l bytes : list byte) (i : nat) :
  (i < length bytes)%nat -> nth_error (store l 0 bytes) i = nth_error bytes i.
Proof.
  intros H. unfold store. cbn [Z.to_nat firstn app].
  apply nth_error_app1. exact H.
Qed.

(** The first turn on an idle framer: everything is read, the cursor
    moves to 1. *)
Lemma turn_first C s (bytes : list byte) (plen : byte) :
  pos s = 0 -> end_ s = 0 -> rx s = bytes -> 
  nth_error bytes 0 = Some x04 -> nth_error bytes 2 = Some plen ->
  len bytes <= bufCap ->
  tr_read_err C (aligned (len bytes)) = None ->
  pollTurn C s = Val Again (arrived s bytes 1 1).
Proof.
  intros Hp He Hrx H0 H2 Hn Hrd.
  assert (H3 : 3 <= len bytes).
  { assert (2 < length bytes)%nat by (apply nth_error_Some; congruence).
    unfold len. lia. }
  assert (Hpos : 0 < len (rx s)) by (rewrite Hrx; lia).
  pose proof (aligned_spec _ Hpos) as [Ha0 [Ha1 Ha2]].
  pose proof (pollRead_all C s ltac:(lia) Hpos) as R.
  rewrite Hrx, He in *.
  assert (Hal : aligned (len bytes) <= bufCap).
  { unfold bufCap in *. 
    destruct (Z.eq_dec (len bytes) 256) as [E|E]; [rewrite E; reflexivity|].
    assert (aligned (len bytes) mod 4 = 0) by exact Ha0.
    Z.div_mod_to_equations. lia. }
  specialize (R ltac:(lia) Hrd).
  unfold pollTurn, Buffered. rewrite bind_gets, Hrx.
  destruct (Z.gtb_spec (len bytes) 0) as [_|]; [|lia].
  rewrite (bind_run _ _ _ _ _ R). clear R.
  match goal with |- _ ?S = _ => pose proof (tail_wait C S plen) as T end.
  rewrite T; clear T.
  - unfold arrived. fields s. norm. cbn [pos end_] in *. subst ps en.
    f_equal.
  - fields s. norm. rewrite store_prefix by (unfold len in *; lia). exact H0.
  - fields s. norm. rewrite store_prefix by (unfold len in *; lia). exact H2.
  - fields s. norm. cbn [pos] in Hp. lia.
  - fields s. norm. cbn [pos] in Hp. lia.
  - left. fields s. norm. cbn [pos] in Hp. lia.
Qed.

(** The turn that reaches the end of an event frame hands [h.buf[1:3+plen]]
    to the decoder, or panics when that slice exceeds the buffer. *)
Lemma turn_dispatch C s (plen : byte) :
  rx s = [] -> nth_error (buf s) 0 = Some x04 -> nth_error (buf s) 2 = Some plen ->
  2 < pos s + 1 -> 2 + u8 plen <= end_ s -> 2 + u8 plen <= pos s + 1 ->
  pollTurn C s =
    if 3 + u8 plen <=? bufCap then
      match handleEventData C (frame (3 + u8 plen)) (set_pos (3 + u8 plen) s) with
      | Val err s2 => pollSwitch (true, err) s2
      | Panic => Panic
      | Spin => Spin
      end
    else Panic.
Proof.
  intros Hrx H0 H2 Hp He Hd.
  pose proof (u8_range plen) as Hr.
  fields s. cbn [rx buf pos end_] in *. subst rxs.
  unfold pollTurn, Buffered. rewrite bind_gets. cbn [rx].
  change (len (@nil byte) >? 0) with false. cbv iota.
  rewrite bind_ret, bind_modify. norm.
  unfold processPacket. rewrite bind_assoc.
  unfold bind at 1, idx at 1, hbuf, slen, bufCap. cbn [lo hi buf].
  change ((0 <=? 0) && (0 <? 256 - 0)) with true. cbv iota.
  change (Z.to_nat (0 + 0)) with 0%nat. rewrite H0.
  rewrite bind_assoc, bind_gets, bind_assoc, bind_gets. cbn [pos end_].
  change (u8 x04 =? hciACLDataPkt) with false.
  change (u8 x04 =? hciEventPkt) with true. cbv iota.
  unfold hciEvtLenPos.
  destruct (Z.gtb_spec (ps + 1) 2) as [_|]; [|lia].
  rewrite bind_assoc.
  unfold bind at 1, idx at 1, slen. cbn [lo hi buf].
  change ((0 <=? 2) && (2 <? 256 - 0)) with true. cbv iota.
  change (Z.to_nat (0 + 2)) with 2%nat. rewrite H2.
  destruct (Z.ltb_spec en (2 + u8 plen)) as [|_]; [lia|].
  destruct (Z.geb_spec (ps + 1) (2 + u8 plen)) as [_|]; [|lia].
  rewrite !bind_assoc, bind_modify. norm.
  replace (2 + u8 plen + 1) with (3 + u8 plen) by lia.
  unfold bind at 1, sub at 1, scap, bufCap. cbn [lo hi].
  destruct (Z.leb_spec (3 + u8 plen) 256) as [Hfit|Hbig].
  - destruct (Z.leb_spec 0 1) as [_|]; [|lia].
    destruct (Z.leb_spec 1 (3 + u8 plen)) as [_|]; [|lia].
    destruct (Z.leb_spec (3 + u8 plen) (256 - 0)) as [_|]; [|lia].
    cbn [andb]. unfold ret at 1. cbv beta iota.
    change (0 + 1) with 1. change (0 + (3 + u8 plen)) with (3 + u8 plen).
    unfold frame, bind.
    destruct (handleEventData C _ _) as [err s2| |]; reflexivity.
  - destruct (Z.leb_spec (3 + u8 plen) (256 - 0)) as [|_]; [lia|].
    rewrite andb_false_r. reflexivity.
Qed.

(** The [case done] of the switch. *)
Lemma switch_done s :
  0 <= pos s -> end_ s <= bufCap ->
  pollSwitch (true, None) s = Val (Return None) (compacted s).
Proof.
  intros Hp He. unfold pollSwitch, compacted. cbn [fst snd resync].
  rewrite bind_gets, bind_gets.
  destruct (Z.gtb_spec (end_ s) (pos s)) as [Hgt|Hle].
  - rewrite !bind_assoc.
    unfold bind at 1, sub at 1, hbuf, scap. cbn [lo hi].
    destruct (Z.leb_spec 0 (pos s)) as [_|]; [|lia].
    destruct (Z.leb_spec (pos s) (end_ s)) as [_|]; [|lia].
    destruct (Z.leb_spec (end_ s) (bufCap - 0)) as [_|]; [|lia].
    cbn [andb]. unfold ret at 1. cbv beta iota.
    repeat first [rewrite bind_assoc | rewrite bind_modify | rewrite bind_ret].
    unfold ret. fields s. norm. reflexivity.
  - repeat first [rewrite bind_assoc | rewrite bind_modify | rewrite bind_ret].
    unfold ret. reflexivity.
Qed.

Lemma eventFrame_len evt params : len (eventFrame evt params) = 3 + len params.
Proof. unfold eventFrame, len. rewrite length_app. cbn [length]. lia. Qed.

Lemma window_store (l bytes front r : list byte) (n : Z) :
  bytes = front ++ r -> len front = n -> len bytes <= len l ->
  window (store l 0 bytes) (mkSlice n (len bytes)) = r.
Proof.
  intros -> Hn Hl. unfold window, store, slen. cbn [lo hi Z.to_nat firstn app].
  unfold len in *. rewrite length_app in *.
  replace (Z.to_nat n) with (length front) by lia.
  rewrite <- app_assoc, skipn_app, skipn_all, Nat.sub_diag. cbn [skipn app].
  replace (Z.to_nat (Z.of_nat (length front + length r) - n)) with (length r) by lia.
  rewrite firstn_app, firstn_all, Nat.sub_diag. cbn [firstn]. apply app_nil_r.
Qed.

(** What [poll] leaves behind a dispatched frame. *)
Lemma compacted_front (s0 s2 : state) (bytes front r : list byte) (n w : Z) :
  bytes = front ++ r -> len front = n -> len bytes <= bufCap ->
  len (buf s0) = bufCap ->
  framing (arrived s0 bytes n w) s2 ->
  pos (compacted s2) = 0 /\ end_ (compacted s2) = len r /\
  firstn (length r) (buf (compacted s2)) = r /\
  rx (compacted s2) = [] /\
  now (compacted s2) = now s0 + w * millisecond.
Proof.
  intros Hb Hn Hl Hc (F1 & F2 & F3 & F4 & F5 & _).
  assert (Hlen : len bytes = n + len r).
  { subst bytes. unfold len in *. rewrite length_app. lia. }
  pose proof (len_nonneg r) as Hr0.
  assert (B : buf s2 = store (buf s0) 0 bytes).
  { rewrite F1. unfold arrived. fields s0. reflexivity. }
  assert (P : pos s2 = n) by (rewrite F2; unfold arrived; fields s0; reflexivity).
  assert (E : end_ s2 = len bytes) by (rewrite F3; unfold arrived; fields s0; reflexivity).
  assert (X : rx s2 = []) by (rewrite F4; unfold arrived; fields s0; reflexivity).
  assert (N : now s2 = now s0 + w * millisecond)
    by (rewrite F5; unfold arrived; fields s0; reflexivity).
  unfold compacted. rewrite P, E.
  destruct (Z.gtb_spec (len bytes) n) as [Hgt|Hle].
  - rewrite B, (window_store (buf s0) bytes front r n Hb Hn) by lia.
    fields s2. norm. cbn [buf pos end_ rx now] in *.
    repeat split; try assumption; try lia.
    unfold copy_into. rewrite firstn_app.
    rewrite (firstn_all2 (n:=length (store (buf s0) 0 bytes))).
    2:{ rewrite store_length; unfold len, bufCap in *; lia. }
    rewrite firstn_all. replace (length r - length r)%nat with 0%nat by lia.
    cbn [firstn]. apply app_nil_r.
  - assert (r = []) by (destruct r; [reflexivity|unfold len in *; cbn [length] in *; lia]).
    subst r. fields s2. norm. cbn [buf pos end_ rx now] in *.
    repeat split; try assumption; try reflexivity.
Qed.

(** X15.  [poll] on one event frame.  The framer is idle and the transport
    holds an event frame of up to 253 parameter bytes, followed by any
    bytes [r] (256 bytes at most in all).  [poll] reads everything in one
    read, then moves the cursor one byte per turn, sleeping a
    millisecond each time, until it stands on the last byte of the frame:
    [max 2 (1 + plen)] turns.  It then hands [h.buf[1:3+plen]] to
    [handleEventData]; when the decoder answers nil, [poll] returns nil
    with [r] moved to the front of the buffer, [end = len r] and
    [pos = 0], ready for the next call. *)
Theorem poll_dispatches_first_event C s (evt : byte) (params r : list byte) s2 :
  len (buf s) = bufCap -> pos s = 0 -> end_ s = 0 ->
  rx s = eventFrame evt params ++ r ->
  len params <= 253 -> len (rx s) <= bufCap ->
  tr_read_err C (aligned (len (rx s))) = None ->
  handleEventData C (frame (3 + len params))
    (arrived s (rx s) (3 + len params) (Z.max 2 (1 + len params))) = Val None s2 ->
  poll C s = Val None (compacted s2) /\
  pos (compacted s2) = 0 /\ end_ (compacted s2) = len r /\
  firstn (length r) (buf (compacted s2)) = r /\
  rx (compacted s2) = [] /\
  now (compacted s2) = now s + Z.max 2 (1 + len params) * millisecond.
Proof.
  intros Hb Hp He Hrx Hn Hl Hrd Hdec.
  pose proof (len_nonneg params) as Hn0.
  set (plen := byte_of (len params)).
  assert (Hu : u8 plen = len params).
  { unfold plen. rewrite u8_byte_of. apply Z.mod_small. lia. }
  set (w := Z.max 2 (1 + len params)) in *.
  set (n := 3 + len params) in *.
  remember (rx s) as bytes eqn:Eb.
  assert (H0 : nth_error bytes 0 = Some x04) by (rewrite Hrx; reflexivity).
  assert (H2 : nth_error bytes 2 = Some plen) by (rewrite Hrx; reflexivity).
  assert (Hlen : n <= len bytes).
  { rewrite Hrx. unfold n, len. rewrite length_app.
    pose proof (eventFrame_len evt params) as E. unfold len in E. lia. }
  pose proof (framing_handleEventData C (frame n) (arrived s bytes n w)) as F.
  unfold wp in F. rewrite Hdec in F.
  destruct (compacted_front s s2 bytes (eventFrame evt params) r n w
              Hrx (eventFrame_len evt params) Hl Hb F) as (K1 & K2 & K3 & K4 & K5).
  split; [|repeat split; assumption].
  set (k := Z.to_nat (w - 1)).
  assert (Hk : Z.of_nat k = w - 1) by (unfold k, w; lia).
  assert (Run : pollLoop C (S (k + 1)) s = Val None (compacted s2)).
  { cbn [pollLoop]. rewrite <- Eb.
    destruct (Z.gtb_spec (len bytes) 0) as [_|]; [|unfold n in *; lia]. cbn [orb].
    rewrite (bind_run _ _ _ _ _
               (turn_first C s bytes plen Hp He (eq_sym Eb) H0 H2 Hl Hrd)).
    rewrite (turns_wait C plen k 1 (arrived s bytes 1 1)).
    2:{ unfold arrived. fields s. reflexivity. }
    2:{ unfold arrived. fields s. norm.
        rewrite store_prefix by (unfold n, len in *; lia). exact H0. }
    2:{ unfold arrived. fields s. norm.
        rewrite store_prefix by (unfold n, len in *; lia). exact H2. }
    2:{ unfold arrived. fields s. norm. lia. }
    2:{ unfold arrived. fields s. norm. unfold n in *. lia. }
    2:{ unfold arrived. fields s. norm. unfold n in *. lia. }
    2:{ unfold arrived. fields s. norm. rewrite Hu. fold w. lia. }
    assert (Es : set_now (now (arrived s bytes 1 1) + Z.of_nat k * millisecond)
                   (set_pos (pos (arrived s bytes 1 1) + Z.of_nat k)
                      (arrived s bytes 1 1)) = arrived s bytes w w).
    { unfold arrived. fields s. norm. f_equal; lia. }
    rewrite Es. clear Es.
    cbn [pollLoop].
    assert (Ew : end_ (arrived s bytes w w) = len bytes /\
                 pos (arrived s bytes w w) = w /\ rx (arrived s bytes w w) = []).
    { unfold arrived. fields s. norm. repeat split. }
    destruct Ew as (Ew1 & Ew2 & Ew3). rewrite Ew1, Ew2.
    destruct (Z.gtb_spec (len bytes) w) as [_|]; [|unfold n, w in *; lia].
    rewrite orb_true_r.
    unfold bind. rewrite (turn_dispatch C (arrived s bytes w w) plen).
    2:{ exact Ew3. }
    2:{ unfold arrived. fields s. norm.
        rewrite store_prefix by (unfold n, len in *; lia). exact H0. }
    2:{ unfold arrived. fields s. norm.
        rewrite store_prefix by (unfold n, len in *; lia). exact H2. }
    2:{ rewrite Ew2. unfold w. lia. }
    2:{ rewrite Ew1, Hu. unfold n in *. lia. }
    2:{ rewrite Ew2, Hu. unfold w. lia. }
    rewrite Hu. fold n.
    destruct (Z.leb_spec n bufCap) as [_|]; [|unfold n, bufCap in *; lia].
    assert (Ed : set_pos n (arrived s bytes w w) = arrived s bytes n w).
    { unfold arrived. fields s. reflexivity. }
    rewrite Ed, Hdec.
    destruct F as (F1 & F2 & F3 & _).
    rewrite switch_done.
    - reflexivity.
    - rewrite F2. unfold arrived. fields s. norm. unfold n. lia.
    - rewrite F3. unfold arrived. fields s. norm. exact Hl. }
  unfold poll.
  replace pollFuel with (S (k + 1) + (pollFuel - S (k + 1)))%nat.
  2:{ unfold pollFuel. unfold w in Hk. lia. }
  rewrite pollLoop_more; [exact Run|]. rewrite Run. discriminate.
Qed.

Lemma poll_dispatches_first_event_witness :
  let s := newHCI (resetComplete ++ [x04; x0e]) 0 in
  let s2 := set_cmdResponse (mkSlice 2 7)
              (set_cmdCompleteStatus 0
                 (set_cmdCompleteOpcode opReset
                    (arrived s (resetComplete ++ [x04; x0e]) 7 5))) in
  poll quiet s = Val None (compacted s2) /\
  pos (compacted s2) = 0 /\ end_ (compacted s2) = len [x04; x0e] /\
  firstn (length [x04; x0e]) (buf (compacted s2)) = [x04; x0e] /\
  rx (compacted s2) = [] /\
  now (compacted s2) = now s + Z.max 2 (1 + len [x01; x03; x0c; x00]) * millisecond.
Proof.
  apply (poll_dispatches_first_event quiet
           (newHCI (resetComplete ++ [x04; x0e]) 0) x0e [x01; x03; x0c; x00] [x04; x0e]).
  - vm_compute. reflexivity.
  - reflexivity.
  - reflexivity.
  - reflexivity.
  - vm_compute. discriminate.
  - vm_compute. discriminate.
  - reflexivity.
  - vm_compute. reflexivity.
Defined.

(** X16.  An event frame that announces 254 parameter bytes brings [poll]
    down.  The frame fills the 256-byte buffer exactly; the framer waits
    until the cursor stands on byte 255, sets [pos] to 257 and slices
    [h.buf[1:257]], past the capacity: a run-time panic, whatever the event
    code and the parameters are. *)
Theorem event_of_254_params_panics C s (evt : byte) (rest : list byte) :
  len (buf s) = bufCap -> pos s = 0 -> end_ s = 0 ->
  rx s = [x04; evt; xfe] ++ rest -> len rest = 253 ->
  tr_read_err C 256 = None ->
  poll C s = Panic.
Proof.
  intros Hb Hp He Hrx Hn Hrd.
  remember (rx s) as bytes eqn:Eb.
  assert (Hl : len bytes = 256).
  { rewrite Hrx. unfold len in *. rewrite length_app. cbn [length]. lia. }
  assert (H0 : nth_error bytes 0 = Some x04) by (rewrite Hrx; reflexivity).
  assert (H2 : nth_error bytes 2 = Some xfe) by (rewrite Hrx; reflexivity).
  assert (Hrd' : tr_read_err C (aligned (len bytes)) = None)
    by (rewrite Hl; exact Hrd).
  assert (Run : pollLoop C (S (254 + 1)) s = Panic).
  { cbn [pollLoop]. rewrite <- Eb, Hl. cbn [Z.gtb Z.compare orb].
    rewrite (bind_run _ _ _ _ _
               (turn_first C s bytes xfe Hp He (eq_sym Eb) H0 H2
                  ltac:(rewrite Hl; unfold bufCap; lia) Hrd')).
    rewrite (turns_wait C xfe 254 1 (arrived s bytes 1 1)).
    2:{ unfold arrived. fields s. reflexivity. }
    2:{ unfold arrived. fields s. norm.
        rewrite store_prefix by (unfold len in *; lia). exact H0. }
    2:{ unfold arrived. fields s. norm.
        rewrite store_prefix by (unfold len in *; lia). exact H2. }
    2:{ unfold arrived. fields s. norm. lia. }
    2:{ unfold arrived. fields s. norm. lia. }
    2:{ unfold arrived. fields s. norm. change (u8 xfe) with 254. lia. }
    2:{ unfold arrived. fields s. norm. change (u8 xfe) with 254. lia. }
    assert (Es : set_now (now (arrived s bytes 1 1) + Z.of_nat 254 * millisecond)
                   (set_pos (pos (arrived s bytes 1 1) + Z.of_nat 254)
                      (arrived s bytes 1 1)) = arrived s bytes 255 255).
    { unfold arrived. fields s. norm. f_equal; lia. }
    rewrite Es. clear Es.
    cbn [pollLoop].
    assert (Ew : end_ (arrived s bytes 255 255) = len bytes /\
                 pos (arrived s bytes 255 255) = 255 /\
                 rx (arrived s bytes 255 255) = []).
    { unfold arrived. fields s. norm. repeat split. }
    destruct Ew as (Ew1 & Ew2 & Ew3). rewrite Ew1, Ew2, Hl.
    cbn [Z.gtb Z.compare Pos.compare Pos.compare_cont orb].
    rewrite orb_true_r.
    unfold bind. rewrite (turn_dispatch C (arrived s bytes 255 255) xfe).
    2:{ exact Ew3. }
    2:{ unfold arrived. fields s. norm.
        rewrite store_prefix by (unfold len in *; lia). exact H0. }
    2:{ unfold arrived. fields s. norm.
        rewrite store_prefix by (unfold len in *; lia). exact H2. }
    2:{ rewrite Ew2. lia. }
    2:{ rewrite Ew1, Hl. change (u8 xfe) with 254. lia. }
    2:{ rewrite Ew2. change (u8 xfe) with 254. lia. }
    reflexivity. }
  unfold poll.
  change pollFuel with (S (254 + 1) + 264)%nat.
  rewrite pollLoop_more; [exact Run|]. rewrite Run. discriminate.
Qed.

Lemma event_of_254_params_panics_witness :
  poll quiet (newHCI ([x04; x0e; xfe] ++ zeros 253) 0) = Panic.
Proof.
  apply (event_of_254_params_panics quiet
           (newHCI ([x04; x0e; xfe] ++ zeros 253) 0) x0e (zeros 253)).
  - vm_compute. reflexivity.
  - reflexivity.
  - reflexivity.
  - reflexivity.
  - vm_compute. reflexivity.
  - reflexivity.
Defined.

(** ** Connection events *)

(** Run the next action of the goal; reads are made on a frame of the
    buffer of the state named by [Hl : len (buf S0) = bufCap], and their
    results are written with [at_] and [at16] on that state. *)
Ltac fwds Hb Hl :=
  match type of Hl with
  | len (buf ?S0) = _ =>
      match goal with
      | |- context [bind (idx ?b ?i) ?k ?t] =>
          rewrite (bind_run (idx b i) k t _ t
                     (idx_run b i S0 t Hb Hl eq_refl ltac:(bounds)))
      | |- context [bind (Uint16_from ?b ?i) ?k ?t] =>
          rewrite (bind_run (Uint16_from b i) k t _ t
                     (Uint16_from_run b i S0 t Hb Hl eq_refl
                        ltac:(bounds) ltac:(bounds)))
      | |- context [bind (from ?b ?i) ?k ?t] =>
          rewrite (bind_run (from b i) k t _ t (from_ok b i t ltac:(bounds)))
      | |- context [bind (sub ?b ?i ?j) ?k ?t] =>
          rewrite (bind_run (sub b i j) k t _ t
                     (sub_ok b i j t ltac:(bounds) ltac:(bounds)))
      | |- context [bind (modify ?f) ?k ?t] => rewrite bind_modify
      | |- context [bind (gets ?f) ?k ?t] => rewrite bind_gets
      | |- context [bind (ret ?a) ?k ?t] => rewrite bind_ret
      | |- context [bind (bind ?m ?j) ?k ?t] => rewrite bind_assoc
      end
  end; norm.

(** The frame that switches advertising on or off. *)
Lemma advertise_frame (on : bool) :
  commandFrame (Z.lor (Z.shiftl ogfLECtrl ogfCommandPos) ocfLESetAdvertiseEnable)
    [if on then x01 else x00] = [x01; x0a; x20; x01; if on then x01 else x00].
Proof. destruct on; reflexivity. Qed.

(** X17.  A Disconnection Complete event (at least 5 bytes) takes the handle at
    [buf[3:5]], tells ATT and L2CAP to remove the connection, sets
    [disconnected] and [handle] (and leaves [connected] and every other
    field of [connectData] as it was), then switches advertising on with
    a command it does not wait for: the answer of the decoder is the
    answer of that write, and the completion slot is set to "no command
    pending" when the write went through. *)
Theorem disconnComplete_decoded C b s :
  slice_ok b -> len (buf s) = bufCap -> len (writebuf s) = bufCap ->
  5 <= slen b -> at_ s b 0 = evtDisconnComplete ->
  let hd := at16 s b 3 in
  let advOn := [x01; x0a; x20; x01; x01] in
  let run := handleEventData C b s in
  answer run = Some (ext (tr_write_err C advOn)) /\
  after run connectData =
    Some (conn_handle hd (conn_disconnected true (connectData s))) /\
  after run trace =
    Some (trace s ++ [EvAttRemoveConnection hd; EvL2capRemoveConnection hd;
                      EvWrite advOn]) /\
  after run (fun t => (cmdCompleteOpcode t, cmdCompleteStatus t)) =
    Some (match tr_write_err C advOn with
          | Some _ => (cmdCompleteOpcode s, cmdCompleteStatus s)
          | None => (0xffff, 0xff)
          end).
Proof.
  intros Hb Hl Hw H5 He hd advOn run.
  assert (Hrun : run = onDisconnComplete C b s).
  { unfold run. rewrite (handleEventData_head C b s Hb Hl ltac:(lia)).
    cbv zeta. rewrite He. reflexivity. }
  rewrite Hrun. clear Hrun run He.
  unfold onDisconnComplete, upd_conn, log, leSetAdvertiseEnable.
  subst hd. open_state s. norm_in Hw.
  repeat fwds Hb Hl.
  rewrite sendWithoutResponse_eq. norm.
  rewrite (advertise_frame true). fold advOn.
  destruct (Z.leb_spec (4 + len [x01]) (len wb)) as [_|Hbad].
  2:{ unfold bufCap in Hw. rewrite Hw in Hbad. cbn in Hbad. lia. }
  destruct (tr_write_err C advOn); cbn [answer after ext]; norm;
    rewrite <- !app_assoc; repeat split.
Qed.

Lemma disconnComplete_decoded_witness :
  let b := frame 7 in
  let s := holding [x04; x05; x04; x00; x40; x00; x13] in
  let hd := at16 s b 3 in
  let advOn := [x01; x0a; x20; x01; x01] in
  let run := handleEventData quiet b s in
  answer run = Some (ext (tr_write_err quiet advOn)) /\
  after run connectData =
    Some (conn_handle hd (conn_disconnected true (connectData s))) /\
  after run trace =
    Some (trace s ++ [EvAttRemoveConnection hd; EvL2capRemoveConnection hd;
                      EvWrite advOn]) /\
  after run (fun t => (cmdCompleteOpcode t, cmdCompleteStatus t)) =
    Some (match tr_write_err quiet advOn with
          | Some _ => (cmdCompleteOpcode s, cmdCompleteStatus s)
          | None => (0xffff, 0xff)
          end).
Proof.
  apply (disconnComplete_decoded quiet (frame 7)
           (holding [x04; x05; x04; x00; x40; x00; x13])).
  - unfold slice_ok, frame, bufCap. simpl. lia.
  - vm_compute. reflexivity.
  - vm_compute. reflexivity.
  - vm_compute. discriminate.
  - vm_compute. reflexivity.
Defined.

Lemma copy_into_six (dst l : list byte) (a h : Z) :
  length dst = 6%nat -> 0 <= a -> a + 6 <= h -> h <= len l ->
  copy_into dst (window l (mkSlice a h)) = window l (mkSlice a (a + 6)).
Proof.
  intros Hd Ha Hh Hl. unfold copy_into, window, slen. cbn [lo hi].
  set (w := firstn (Z.to_nat (h - a)) (skipn (Z.to_nat a) l)).
  assert (Hwl : (6 <= length w)%nat).
  { unfold w. rewrite length_firstn, length_skipn. unfold len in Hl. lia. }
  rewrite Hd. rewrite (skipn_all2 dst) by lia.
  unfold w. rewrite app_nil_r, firstn_firstn.
  replace (Z.to_nat (a + 6 - a)) with 6%nat by lia.
  f_equal. lia.
Qed.

(** X18.  An LE Connection Complete event (sub-event 1, at least 20 bytes) or
    LE Enhanced Connection Complete event (sub-event 10, at least 32
    bytes) fills [connectData] from the frame: status, handle, role,
    peer address type and the six address bytes at fixed offsets, the
    interval and the supervision timeout at offsets 14 and 18, or 26 and
    30 in the enhanced layout; [connected] is set and [disconnected] is
    left as it was.  ATT and L2CAP are told of the connection; when L2CAP
    refuses it the decoder returns that error and sends nothing,
    otherwise it switches advertising off and answers what that write
    answered. *)
Theorem connComplete_decoded C b s :
  slice_ok b -> len (buf s) = bufCap -> len (writebuf s) = bufCap ->
  at_ s b 0 = evtLEMetaEvent ->
  (at_ s b 2 = leMetaEventConnComplete /\ 20 <= slen b) \/
  (at_ s b 2 = leMetaEventEnhancedConnectionComplete /\ 32 <= slen b) ->
  length (peerBdaddr (connectData s)) = 6%nat ->
  let enhanced := at_ s b 2 =? leMetaEventEnhancedConnectionComplete in
  let hd := at16 s b 4 in
  let rl := at_ s b 6 in
  let itv := at16 s b (if enhanced then 26 else 14) in
  let tmo := at16 s b (if enhanced then 30 else 18) in
  let advOff := [x01; x0a; x20; x01; x00] in
  let run := handleEventData C b s in
  after run connectData =
    Some (mkConn true (disconnected (connectData s)) (at_ s b 3) hd rl (at_ s b 7)
            (window (buf s) (mkSlice (lo b + 8) (lo b + 8 + 6))) itv tmo) /\
  answer run =
    Some (match l2cap_addConnection C hd rl itv tmo with
          | Some e => Some (ErrExternal e)
          | None => ext (tr_write_err C advOff)
          end) /\
  after run trace =
    Some (trace s ++ [EvAttAddConnection hd; EvL2capAddConnection hd rl itv tmo]
          ++ match l2cap_addConnection C hd rl itv tmo with
             | Some _ => []
             | None => [EvWrite advOff]
             end).
Proof.
  intros Hb Hl Hw He Hs H6 enhanced hd rl itv tmo advOff run.
  assert (H20 : 20 <= slen b) by (destruct Hs as [[_ ?]|[_ ?]]; lia).
  assert (Hrun : run = onConnComplete C b s).
  { unfold run. rewrite (handleEventData_head C b s Hb Hl ltac:(lia)).
    cbv zeta. rewrite He. cbn [Z.eqb evtLEMetaEvent evtDisconnComplete
      evtEncryptionChange evtCmdComplete evtCmdStatus evtNumCompPkts Pos.eqb].
    unfold onLEMetaEvent.
    rewrite (bind_run _ _ _ _ _ (idx_run b 2 s s Hb Hl eq_refl ltac:(lia))).
    cbv zeta. change (u8 (byteAt s b 2)) with (at_ s b 2).
    destruct Hs as [[-> _]|[-> _]]; reflexivity. }
  rewrite Hrun. clear Hrun run He.
  pose proof Hb as (Hb0 & Hb1 & Hb2).
  unfold onConnComplete, upd_conn, log, leSetAdvertiseEnable.
  subst hd rl itv tmo enhanced. unfold at_ in Hs |- *.
  open_state s. norm_in Hw. norm_in H6.
  repeat fwds Hb Hl.
  pose proof Hl as Hl'. norm_in Hl'.
  rewrite (copy_into_six c_bd bf (lo b + 8) (hi b) H6)
    by (unfold slen, bufCap in *; lia).
  assert (Hfit : (4 + len [x00] <=? len wb) = true).
  { unfold bufCap in Hw. rewrite Hw. reflexivity. }
  destruct Hs as [[Hs H]|[Hs H]]; rewrite Hs;
    cbn [Z.eqb Pos.eqb leMetaEventConnComplete leMetaEventEnhancedConnectionComplete];
    repeat fwds Hb Hl;
    (destruct (l2cap_addConnection C _ _ _ _) as [e|];
     [|rewrite sendWithoutResponse_eq; norm;
       rewrite (advertise_frame false), Hfit; fold advOff;
       destruct (tr_write_err C advOff)]);
    cbn [answer after ext app]; unfold ret; norm;
    rewrite <- ?app_assoc; repeat split.
Qed.

Lemma connComplete_decoded_witness :
  let b := frame 22 in
  let s := holding [x04; x3e; x13; x01; x00; x40; x00; x01; x00;
                    xa1; xa2; xa3; xa4; xa5; xa6;
                    x18; x00; x00; x00; xc8; x00; x00] in
  let enhanced := at_ s b 2 =? leMetaEventEnhancedConnectionComplete in
  let hd := at16 s b 4 in
  let rl := at_ s b 6 in
  let itv := at16 s b (if enhanced then 26 else 14) in
  let tmo := at16 s b (if enhanced then 30 else 18) in
  let advOff := [x01; x0a; x20; x01; x00] in
  let run := handleEventData quiet b s in
  after run connectData =
    Some (mkConn true (disconnected (connectData s)) (at_ s b 3) hd rl (at_ s b 7)
            (window (buf s) (mkSlice (lo b + 8) (lo b + 8 + 6))) itv tmo) /\
  answer run =
    Some (match l2cap_addConnection quiet hd rl itv tmo with
          | Some e => Some (ErrExternal e)
          | None => ext (tr_write_err quiet advOff)
          end) /\
  after run trace =
    Some (trace s ++ [EvAttAddConnection hd; EvL2capAddConnection hd rl itv tmo]
          ++ match l2cap_addConnection quiet hd rl itv tmo with
             | Some _ => []
             | None => [EvWrite advOff]
             end).
Proof.
  apply (connComplete_decoded quiet (frame 22)
           (holding [x04; x3e; x13; x01; x00; x40; x00; x01; x00;
                     xa1; xa2; xa3; xa4; xa5; xa6;
                     x18; x00; x00; x00; xc8; x00; x00])).
  - unfold slice_ok, frame, bufCap. simpl. lia.
  - vm_compute. reflexivity.
  - vm_compute. reflexivity.
  - vm_compute. reflexivity.
  - left. split; [vm_compute; reflexivity|vm_compute; discriminate].
  - reflexivity.
Defined.

(** ** The device address *)

(** X19.  What [readBdAddr] stores is the head of [h.cmdResponse], not the
    address.  A fresh engine sends Read BD_ADDR and the controller answers
    with the CommandComplete frame 04 0E 0A n 09 10 st a0 .. a5, where
    a0 .. a5 is its address.  [h.cmdResponse] starts at the parameter
    length, so the seven bytes copied from are 0A n 09 10 st a0 a1: an
    address array of six bytes, whatever it held, ends up as
    0A n 09 10 st a0, for every n, st and address. *)
Theorem readBdAddr_stores_response_head (mac : list byte)
    (m0 m1 m2 m3 m4 m5 n st a0 a1 a2 a3 a4 a5 : byte) :
  let reply := [x04; x0e; x0a; n; x09; x10; st; a0; a1; a2; a3; a4; a5] in
  let run := fun mac => readBdAddr quiet [mkTick 0 reply] mac (newHCI [] 0) in
  answer (run mac) = Some (None, copy_into mac [x0a; n; x09; x10; st; a0; a1]) /\
  after (run mac) response = Some [x0a; n; x09; x10; st; a0; a1; a2; a3; a4; a5] /\
  answer (run [m0; m1; m2; m3; m4; m5]) = Some (None, [x0a; n; x09; x10; st; a0]).
Proof.
  cbv zeta beta. repeat split; vm_compute; reflexivity.
Qed.

(** ** Commands: status and size *)

(** X20.  The status of a completion is stored, not looked at.  Reset is
    sent on a fresh engine and answered by the CommandComplete frame
    04 0E 04 n 03 0C st: the call returns nil for every status byte st,
    and [cmdCompleteStatus] holds st for the caller to inspect. *)
Theorem command_succeeds_whatever_status (n st : byte) :
  let run := reset quiet [mkTick 0 [x04; x0e; x04; n; x03; x0c; st]] (newHCI [] 0) in
  answer run = Some None /\
  after run cmdCompleteStatus = Some (u8 st) /\
  after run cmdCompleteOpcode = Some opReset.
Proof. cbv zeta. repeat split; vm_compute; reflexivity. Qed.

(** X21.  Neither send function checks the size of its parameters: with the
    256-byte write buffer, more than 252 parameter bytes make
    [h.writebuf[:4+len(params)]] exceed the capacity, and both
    [sendCommandWithParams] and [sendWithoutResponse] panic before
    anything is written. *)
Theorem command_overlong_panics C script opcode params s :
  len (writebuf s) = bufCap -> 252 < len params ->
  sendCommandWithParams C script opcode params s = Panic /\
  sendWithoutResponse C opcode params s = Panic.
Proof.
  intros Hw Hp. rewrite sendCommandWithParams_eq, sendWithoutResponse_eq, Hw.
  destruct (Z.leb_spec (4 + len params) bufCap); [unfold bufCap in *; lia|].
  split; reflexivity.
Qed.

Lemma command_overlong_panics_witness :
  sendCommandWithParams quiet [] opReset (zeros 253) (newHCI [] 0) = Panic /\
  sendWithoutResponse quiet opReset (zeros 253) (newHCI [] 0) = Panic.
Proof.
  apply (command_overlong_panics quiet [] opReset (zeros 253) (newHCI [] 0)).
  - vm_compute. reflexivity.
  - vm_compute. reflexivity.
Defined.

(** ** The framer on ACL data *)

Lemma Uint16_len s (l0 l1 : byte) :
  nth_error (buf s) 3 = Some l0 -> nth_error (buf s) 4 = Some l1 ->
  Uint16 (mkSlice 3 5) s = Val (le16 l0 l1) s.
Proof.
  intros H3 H4. unfold Uint16, bind, idx, slen, ret. cbn [lo hi].
  change ((0 <=? 1) && (1 <? 5 - 3)) with true.
  change ((0 <=? 0) && (0 <? 5 - 3)) with true. cbv iota.
  change (Z.to_nat (3 + 1)) with 4%nat. change (Z.to_nat (3 + 0)) with 3%nat.
  rewrite H4, H3. reflexivity.
Qed.

(** The end of a turn that only moves the cursor over an ACL frame. *)
Lemma tail_wait_acl C s (l0 l1 : byte) :
  nth_error (buf s) 0 = Some x02 ->
  nth_error (buf s) 3 = Some l0 -> nth_error (buf s) 4 = Some l1 ->
  0 <= pos s -> pos s + 1 <= end_ s ->
  pos s + 1 <= 4 \/ (4 + le16 l0 l1 <= end_ s /\ pos s + 1 < 4 + le16 l0 l1) ->
  (modify (fun s => set_pos (pos s + 1) s) ;;
   r <- processPacket C ;; pollSwitch r) s =
    Val Again (set_now (now s + 1 * millisecond) (set_pos (pos s + 1) s)).
Proof.
  intros H0 H3 H4 Hp He Hw.
  fields s. cbn [rx buf pos end_] in *.
  rewrite bind_modify. norm.
  unfold processPacket. rewrite bind_assoc.
  unfold bind at 1, idx at 1, hbuf, slen, bufCap. cbn [lo hi buf].
  change ((0 <=? 0) && (0 <? 256 - 0)) with true. cbv iota.
  change (Z.to_nat (0 + 0)) with 0%nat. rewrite H0.
  rewrite bind_assoc, bind_gets, bind_assoc, bind_gets. cbn [pos end_].
  change (u8 x02 =? hciACLDataPkt) with true. cbv iota.
  unfold hciACLLenPos.
  assert (Tail : forall S0 : state,
            pos S0 = ps + 1 -> end_ S0 = en ->
            pollSwitch (false, None) S0 =
              Val Again (set_now (now S0 + 1 * millisecond) S0)).
  { intros S0 P0 E0. unfold pollSwitch. cbn [fst snd resync].
    rewrite bind_gets, bind_gets, P0, E0.
    destruct (Z.gtb_spec (ps + 1) en) as [|_]; [lia|].
    unfold sleep. rewrite bind_modify. reflexivity. }
  destruct (Z.gtb_spec (ps + 1) 4) as [Hgt|Hle].
  - destruct Hw as [Hw|[Hw1 Hw2]]; [lia|].
    rewrite bind_assoc.
    unfold bind at 1, sub at 1, scap, bufCap. cbn [lo hi].
    change ((0 <=? 3) && (3 <=? 5) && (5 <=? 256 - 0)) with true. cbv iota.
    unfold ret at 1. cbv beta iota.
    change (0 + 3) with 3. change (0 + 5) with 5.
    rewrite bind_assoc.
    match goal with
    | |- bind _ _ ?S = _ =>
        rewrite (bind_run _ _ _ _ _ (Uint16_len S l0 l1 H3 H4))
    end.
    destruct (Z.ltb_spec en (4 + le16 l0 l1)) as [|_]; [lia|].
    destruct (Z.geb_spec (ps + 1) (4 + le16 l0 l1)) as [|_]; [lia|].
    rewrite bind_ret. rewrite Tail by reflexivity. reflexivity.
  - rewrite bind_ret. rewrite Tail by reflexivity. reflexivity.
Qed.

Lemma turn_wait_acl C s (l0 l1 : byte) :
  rx s = [] -> nth_error (buf s) 0 = Some x02 ->
  nth_error (buf s) 3 = Some l0 -> nth_error (buf s) 4 = Some l1 ->
  0 <= pos s -> pos s + 1 <= end_ s ->
  pos s + 1 <= 4 \/ (4 + le16 l0 l1 <= end_ s /\ pos s + 1 < 4 + le16 l0 l1) ->
  pollTurn C s =
    Val Again (set_now (now s + 1 * millisecond) (set_pos (pos s + 1) s)).
Proof.
  intros Hrx H0 H3 H4 Hp He Hw.
  unfold pollTurn, Buffered. rewrite bind_gets, Hrx.
  change (len (@nil byte) >? 0) with false. cbv iota.
  rewrite bind_ret. apply (tail_wait_acl C s l0 l1); assumption.
Qed.

Lemma turns_wait_acl C (l0 l1 : byte) :
  forall (k : nat) (f : nat) s,
    rx s = [] -> nth_error (buf s) 0 = Some x02 ->
    nth_error (buf s) 3 = Some l0 -> nth_error (buf s) 4 = Some l1 ->
    0 <= pos s -> 5 <= end_ s -> 4 + le16 l0 l1 <= end_ s ->
    pos s + Z.of_nat k <= Z.max 4 (3 + le16 l0 l1) ->
    pollLoop C (k + f) s =
    pollLoop C f (set_now (now s + Z.of_nat k * millisecond)
                    (set_pos (pos s + Z.of_nat k) s)).
Proof.
  induction k as [|k IH]; intros f s Hrx H0 H3 H4 Hp H5 He Hk.
  - cbn [Nat.add]. f_equal. fields s. unfold set_now, set_pos.
    cbn [now pos buf end_ writebuf
        cmdCompleteOpcode cmdCompleteStatus cmdResponse scanning advData
        connectData maxPkt pendingPkt rx trace Z.of_nat].
    f_equal; lia.
  - cbn [Nat.add pollLoop].
    destruct (Z.gtb_spec (end_ s) (pos s)) as [_|]; [|lia].
    rewrite orb_true_r.
    rewrite (bind_run _ _ _ _ _
               (turn_wait_acl C s l0 l1 Hrx H0 H3 H4 Hp ltac:(lia) ltac:(lia))).
    rewrite IH.
    + f_equal. fields s. unfold set_now, set_pos. cbn [now pos buf end_ writebuf
        cmdCompleteOpcode cmdCompleteStatus cmdResponse scanning advData
        connectData maxPkt pendingPkt rx trace].
      f_equal; lia.
    + fields s. exact Hrx.
    + fields s. exact H0.
    + fields s. exact H3.
    + fields s. exact H4.
    + fields s. norm. norm_in Hp. lia.
    + fields s. exact H5.
    + fields s. exact He.
    + fields s. norm. norm_in Hk. rewrite Nat2Z.inj_succ in Hk. lia.
Qed.

Lemma turn_first_acl C s (bytes : list byte) (l0 l1 : byte) :
  pos s = 0 -> end_ s = 0 -> rx s = bytes ->
  nth_error bytes 0 = Some x02 ->
  nth_error bytes 3 = Some l0 -> nth_error bytes 4 = Some l1 ->
  len bytes <= bufCap ->
  tr_read_err C (aligned (len bytes)) = None ->
  pollTurn C s = Val Again (arrived s bytes 1 1).
Proof.
  intros Hp He Hrx H0 H3 H4 Hn Hrd.
  assert (H5 : 5 <= len bytes).
  { assert (4 < length bytes)%nat by (apply nth_error_Some; congruence).
    unfold len. lia. }
  assert (Hpos : 0 < len (rx s)) by (rewrite Hrx; lia).
  pose proof (aligned_spec _ Hpos) as [Ha0 [Ha1 Ha2]].
  pose proof (pollRead_all C s ltac:(lia) Hpos) as R.
  rewrite Hrx, He in *.
  assert (Hal : aligned (len bytes) <= bufCap).
  { unfold bufCap in *.
    destruct (Z.eq_dec (len bytes) 256) as [E|E]; [rewrite E; reflexivity|].
    assert (aligned (len bytes) mod 4 = 0) by exact Ha0.
    Z.div_mod_to_equations. lia. }
  specialize (R ltac:(lia) Hrd).
  unfold pollTurn, Buffered. rewrite bind_gets, Hrx.
  destruct (Z.gtb_spec (len bytes) 0) as [_|]; [|lia].
  rewrite (bind_run _ _ _ _ _ R). clear R.
  match goal with |- _ ?S = _ => pose proof (tail_wait_acl C S l0 l1) as T end.
  rewrite T; clear T.
  - unfold arrived. fields s. norm. cbn [pos end_] in *. subst ps en.
    f_equal.
  - fields s. norm. rewrite store_prefix by (unfold len in *; lia). exact H0.
  - fields s. norm. rewrite store_prefix by (unfold len in *; lia). exact H3.
  - fields s. norm. rewrite store_prefix by (unfold len in *; lia). exact H4.
  - fields s. norm. cbn [pos] in Hp. lia.
  - fields s. norm. cbn [pos] in Hp. lia.
  - left. fields s. norm. cbn [pos] in Hp. lia.
Qed.

(** The turn that reaches the end of an ACL frame hands
    [h.buf[1:5+pktlen]] to the demultiplexer, or panics when that slice
    exceeds the buffer. *)
Lemma turn_dispatch_acl C s (l0 l1 : byte) :
  rx s = [] -> nth_error (buf s) 0 = Some x02 ->
  nth_error (buf s) 3 = Some l0 -> nth_error (buf s) 4 = Some l1 ->
  4 < pos s + 1 -> 4 + le16 l0 l1 <= end_ s -> 4 + le16 l0 l1 <= pos s + 1 ->
  pollTurn C s =
    if 5 + le16 l0 l1 <=? bufCap then
      match handleACLData C (frame (5 + le16 l0 l1))
              (set_pos (5 + le16 l0 l1) s) with
      | Val err s2 => pollSwitch (true, err) s2
      | Panic => Panic
      | Spin => Spin
      end
    else Panic.
Proof.
  intros Hrx H0 H3 H4 Hp He Hd.
  pose proof (le16_range l0 l1) as Hr.
  fields s. cbn [rx buf pos end_] in *. subst rxs.
  unfold pollTurn, Buffered. rewrite bind_gets. cbn [rx].
  change (len (@nil byte) >? 0) with false. cbv iota.
  rewrite bind_ret, bind_modify. norm.
  unfold processPacket. rewrite bind_assoc.
  unfold bind at 1, idx at 1, hbuf, slen, bufCap. cbn [lo hi buf].
  change ((0 <=? 0) && (0 <? 256 - 0)) with true. cbv iota.
  change (Z.to_nat (0 + 0)) with 0%nat. rewrite H0.
  rewrite bind_assoc, bind_gets, bind_assoc, bind_gets. cbn [pos end_].
  change (u8 x02 =? hciACLDataPkt) with true. cbv iota.
  unfold hciACLLenPos.
  destruct (Z.gtb_spec (ps + 1) 4) as [_|]; [|lia].
  rewrite bind_assoc.
  unfold bind at 1, sub at 1, scap, bufCap. cbn [lo hi].
  change ((0 <=? 3) && (3 <=? 5) && (5 <=? 256 - 0)) with true. cbv iota.
  unfold ret at 1. cbv beta iota.
  change (0 + 3) with 3. change (0 + 5) with 5.
  rewrite bind_assoc.
  match goal with
  | |- bind _ _ ?S = _ =>
      rewrite (bind_run _ _ _ _ _ (Uint16_len S l0 l1 H3 H4))
  end.
  destruct (Z.ltb_spec en (4 + le16 l0 l1)) as [|_]; [lia|].
  destruct (Z.geb_spec (ps + 1) (4 + le16 l0 l1)) as [_|]; [|lia].
  rewrite !bind_assoc, bind_modify. norm.
  replace (4 + le16 l0 l1 + 1) with (5 + le16 l0 l1) by lia.
  unfold bind at 1, sub at 1, scap, bufCap. cbn [lo hi].
  destruct (Z.leb_spec (5 + le16 l0 l1) 256) as [Hfit|Hbig].
  - destruct (Z.leb_spec 0 1) as [_|]; [|lia].
    destruct (Z.leb_spec 1 (5 + le16 l0 l1)) as [_|]; [|lia].
    destruct (Z.leb_spec (5 + le16 l0 l1) (256 - 0)) as [_|]; [|lia].
    cbn [andb]. unfold ret at 1. cbv beta iota.
    change (0 + 1) with 1. change (0 + (5 + le16 l0 l1)) with (5 + le16 l0 l1).
    unfold frame, bind.
    destruct (handleACLData C _ _) as [err s2| |]; reflexivity.
  - destruct (Z.leb_spec (5 + le16 l0 l1) (256 - 0)) as [|_]; [lia|].
    rewrite andb_false_r. reflexivity.
Qed.

Lemma aclFrame_len hd cid data : len (aclFrame hd cid data) = 9 + len data.
Proof. unfold aclFrame, len. rewrite !length_app. cbn [length put16]. lia. Qed.

Lemma store_front (l front r : list byte) :
  firstn (length front) (store l 0 (front ++ r)) = front.
Proof.
  unfold store. cbn [Z.to_nat firstn app].
  rewrite <- app_assoc, firstn_app, firstn_all, Nat.sub_diag. cbn [firstn].
  apply app_nil_r.
Qed.

(** X22.  From [sendAclPkt] to the layer above, through [poll].  The
    framer is idle and the transport holds the frame [sendAclPkt] builds
    for [data] (at most 247 bytes) on the ATT or the signaling channel,
    followed by any bytes [r] (256 bytes at most in all).  [poll] reads
    everything in one read, moves the cursor for [7 + len data] turns of
    one millisecond each, and hands the frame to [handleACLData], which
    passes exactly [data], with the handle cut to 12 bits, to ATT or
    L2CAP; when that layer answers nil, [poll] returns nil with [r] moved
    to the front of the buffer, [end = len r] and [pos = 0]. *)
Theorem poll_delivers_acl C s hd cid (data r : list byte) :
  len (buf s) = bufCap -> pos s = 0 -> end_ s = 0 ->
  0 <= hd < 65536 -> len data <= 247 ->
  cid = attCID \/ cid = signalingCID ->
  rx s = aclFrame hd cid data ++ r -> len (rx s) <= bufCap ->
  tr_read_err C (aligned (len (rx s))) = None ->
  (if cid =? attCID then att_handleData C (Z.land hd 0x0fff) data
   else l2cap_handleData C (Z.land hd 0x0fff) data) = None ->
  let ev := if cid =? attCID then EvAttHandleData (Z.land hd 0x0fff) data
            else EvL2capHandleData (Z.land hd 0x0fff) data in
  let s2 := set_trace (trace s ++ [EvRead (aligned (len (rx s))) (rx s); ev])
              (arrived s (rx s) (9 + len data) (7 + len data)) in
  poll C s = Val None (compacted s2) /\
  pos (compacted s2) = 0 /\ end_ (compacted s2) = len r /\
  firstn (length r) (buf (compacted s2)) = r /\
  rx (compacted s2) = [] /\
  now (compacted s2) = now s + (7 + len data) * millisecond.
Proof.
  intros Hb Hp He Hh Hn Hc Hrx Hl Hrd Hans ev s2.
  pose proof (len_nonneg data) as Hn0.
  set (L := wrap16 (len data + 4)).
  assert (HL : L = len data + 4) by (unfold L, wrap16; apply Z.mod_small; lia).
  set (l0 := byte_of L). set (l1 := byte_of (Z.shiftr L 8)).
  assert (Hu : le16 l0 l1 = len data + 4).
  { unfold l0, l1. rewrite le16_put16 by (rewrite HL; lia). exact HL. }
  set (w := 7 + len data) in *.
  set (n := 9 + len data) in *.
  remember (rx s) as bytes eqn:Eb.
  assert (H0 : nth_error bytes 0 = Some x02) by (rewrite Hrx; reflexivity).
  assert (H3 : nth_error bytes 3 = Some l0) by (rewrite Hrx; reflexivity).
  assert (H4 : nth_error bytes 4 = Some l1) by (rewrite Hrx; reflexivity).
  assert (Hlen : n <= len bytes).
  { rewrite Hrx. unfold n, len. rewrite length_app.
    pose proof (aclFrame_len hd cid data) as E. unfold len in E. lia. }
  (* the decoder on the frame *)
  assert (Hdec : handleACLData C (frame n) (arrived s bytes n w) = Val None s2).
  { unfold n. rewrite (aclFrame_delivered C hd cid data _ Hh Hn Hc).
    - subst ev s2. destruct Hc as [-> | ->]; cbn [Z.eqb Pos.eqb attCID signalingCID] in *;
        rewrite Hans; cbn [ext option_map]; f_equal;
        unfold arrived; fields s; norm; rewrite <- app_assoc; reflexivity.
    - unfold arrived. fields s. norm. unfold len.
      rewrite store_length; [exact Hb|lia|unfold bufCap in *; cbn [buf] in Hb; lia].
    - unfold buffered, arrived. fields s. norm. rewrite Hrx. apply store_front. }
  pose proof (framing_handleACLData C (frame n) (arrived s bytes n w)) as F.
  unfold wp in F. rewrite Hdec in F.
  destruct (compacted_front s s2 bytes (aclFrame hd cid data) r n w
              Hrx (aclFrame_len hd cid data) Hl Hb F) as (K1 & K2 & K3 & K4 & K5).
  split; [|repeat split; assumption].
  set (k := Z.to_nat (w - 1)).
  assert (Hk : Z.of_nat k = w - 1) by (unfold k, w; lia).
  assert (Run : pollLoop C (S (k + 1)) s = Val None (compacted s2)).
  { cbn [pollLoop]. rewrite <- Eb.
    destruct (Z.gtb_spec (len bytes) 0) as [_|]; [|unfold n in *; lia]. cbn [orb].
    rewrite (bind_run _ _ _ _ _
               (turn_first_acl C s bytes l0 l1 Hp He (eq_sym Eb) H0 H3 H4 Hl Hrd)).
    rewrite (turns_wait_acl C l0 l1 k 1 (arrived s bytes 1 1)).
    2:{ unfold arrived. fields s. reflexivity. }
    2:{ unfold arrived. fields s. norm.
        rewrite store_prefix by (unfold n, len in *; lia). exact H0. }
    2:{ unfold arrived. fields s. norm.
        rewrite store_prefix by (unfold n, len in *; lia). exact H3. }
    2:{ unfold arrived. fields s. norm.
        rewrite store_prefix by (unfold n, len in *; lia). exact H4. }
    2:{ unfold arrived. fields s. norm. lia. }
    2:{ unfold arrived. fields s. norm. unfold n in *. lia. }
    2:{ unfold arrived. fields s. norm. rewrite Hu. unfold n in *. lia. }
    2:{ unfold arrived. fields s. norm. rewrite Hu. unfold w in *. lia. }
    assert (Es : set_now (now (arrived s bytes 1 1) + Z.of_nat k * millisecond)
                   (set_pos (pos (arrived s bytes 1 1) + Z.of_nat k)
                      (arrived s bytes 1 1)) = arrived s bytes w w).
    { unfold arrived. fields s. norm. f_equal; lia. }
    rewrite Es. clear Es.
    cbn [pollLoop].
    assert (Ew : end_ (arrived s bytes w w) = len bytes /\
                 pos (arrived s bytes w w) = w /\ rx (arrived s bytes w w) = []).
    { unfold arrived. fields s. norm. repeat split. }
    destruct Ew as (Ew1 & Ew2 & Ew3). rewrite Ew1, Ew2.
    destruct (Z.gtb_spec (len bytes) w) as [_|]; [|unfold n, w in *; lia].
    rewrite orb_true_r.
    unfold bind. rewrite (turn_dispatch_acl C (arrived s bytes w w) l0 l1).
    2:{ exact Ew3. }
    2:{ unfold arrived. fields s. norm.
        rewrite store_prefix by (unfold n, len in *; lia). exact H0. }
    2:{ unfold arrived. fields s. norm.
        rewrite store_prefix by (unfold n, len in *; lia). exact H3. }
    2:{ unfold arrived. fields s. norm.
        rewrite store_prefix by (unfold n, len in *; lia). exact H4. }
    2:{ rewrite Ew2. unfold w. lia. }
    2:{ rewrite Ew1, Hu. unfold n in *. lia. }
    2:{ rewrite Ew2, Hu. unfold w. lia. }
    rewrite Hu. replace (5 + (len data + 4)) with n by (unfold n; lia).
    destruct (Z.leb_spec n bufCap) as [_|]; [|unfold n, bufCap in *; lia].
    assert (Ed : set_pos n (arrived s bytes w w) = arrived s bytes n w).
    { unfold arrived. fields s. reflexivity. }
    rewrite Ed, Hdec.
    destruct F as (F1 & F2 & F3 & _).
    rewrite switch_done.
    - reflexivity.
    - rewrite F2. unfold arrived. fields s. norm. unfold n. lia.
    - rewrite F3. unfold arrived. fields s. norm. exact Hl. }
  unfold poll.
  replace pollFuel with (S (k + 1) + (pollFuel - S (k + 1)))%nat.
  2:{ unfold pollFuel. unfold w in Hk. lia. }
  rewrite pollLoop_more; [exact Run|]. rewrite Run. discriminate.
Qed.

Lemma poll_delivers_acl_witness :
  let data := [xaa; xbb] in
  let r := [x04; x0e] in
  let s := newHCI (aclFrame 0x2001 attCID data ++ r) 0 in
  let ev := if attCID =? attCID then EvAttHandleData (Z.land 0x2001 0x0fff) data
            else EvL2capHandleData (Z.land 0x2001 0x0fff) data in
  let s2 := set_trace (trace s ++ [EvRead (aligned (len (rx s))) (rx s); ev])
              (arrived s (rx s) (9 + len data) (7 + len data)) in
  poll quiet s = Val None (compacted s2) /\
  pos (compacted s2) = 0 /\ end_ (compacted s2) = len r /\
  firstn (length r) (buf (compacted s2)) = r /\
  rx (compacted s2) = [] /\
  now (compacted s2) = now s + (7 + len data) * millisecond.
Proof.
  apply (poll_delivers_acl quiet
           (newHCI (aclFrame 0x2001 attCID [xaa; xbb] ++ [x04; x0e]) 0)
           0x2001 attCID [xaa; xbb] [x04; x0e]).
  - vm_compute. reflexivity.
  - reflexivity.
  - reflexivity.
  - lia.
  - vm_compute. discriminate.
  - left. reflexivity.
  - reflexivity.
  - vm_compute. discriminate.
  - reflexivity.
  - reflexivity.
Defined.
